(** * Mission Control: dispatch, completion webhook, planning poller

    A shallow embedding of four route handlers of the repository and of
    the helper [extractJSON], with the properties the specification
    states about them:

    - [POST /api/tasks/[id]/dispatch]            (module [Dispatch])
    - [POST, DELETE /api/agents/[id]/openclaw]   (module [OpenClawLink])
    - [POST /api/tasks/[id]/planning]            (module [Planning])
    - [POST /api/webhooks/agent-completion]      (module [Completion])

    and of the two read routes beside them,

    - [GET /api/agents/[id]/openclaw]            (module [OpenClawLinkGet])
    - [GET /api/tasks/[id]/planning]             (module [PlanningGet])

    with further properties of all six: what each leaves alone, what
    each does when it refuses, fails or goes through, and what requests
    in sequence add up to.

    How the program is modelled.

    - A string is the sequence of its UTF-16 code units ([list N]), so
      that [trim], the class [\s], [indexOf], [slice] and the escapes of
      JSON mean what they mean in the language.
    - [JSON.parse] is a recursive-descent parser written out here; its
      recursion budget is proved sufficient for every input, so a
      negative answer is a syntax error and nothing else.
    - The two regular expressions of the source are terms of a small
      syntax, run by a backtracking matcher (greedy, lazy, optional,
      capture, ignore-case).
    - The database is a record of tables, each a list of rows in row
      order; a statement is a function on it.  Statements commit one by
      one: a handler that throws half-way keeps what it wrote.  A text
      that comes from a request's body is stored as its round trip
      through UTF-8 ([sql_text]): a surrogate outside a pair becomes
      U+FFFD.
    - A handler is a computation in a monad with state (store, count of
      identifiers drawn, trace of outside effects), early reply and
      exceptions; the trace records gateway calls, pauses and
      broadcasts.  A handler runs from start to end; the link route is
      also given in the stretches between its waits, to state what two
      overlapping link requests do ([Interleaving]).
    - What the repository does not contain is a parameter: the digest,
      [toLowerCase], the message templates, the database layer's
      treatment of a parameter that is neither a string nor null
      ([Runtime]); configuration, clock, identifiers and the gateway's
      answers ([Env]).

    The file has the definitions first (primitives, store, handlers, the
    vocabulary of the statements, sample worlds) and the proofs after. *)

From Stdlib Require Import String Ascii DecimalString NArith ZArith Bool Lia List.
Import ListNotations.

Set Implicit Arguments.

(* ================================================================== *)
(** * JavaScript strings *)
(* ================================================================== *)

Module JS.

(** A JavaScript string is a sequence of UTF-16 code units. *)
Definition jstring := list N.

(** An ASCII literal of the source, as a sequence of code units. *)
Definition lit (s : string) : jstring :=
  map N_of_ascii (list_ascii_of_string s).

Fixpoint str_eqb (a b : jstring) : bool :=
  match a, b with
  | [], [] => true
  | x :: a', y :: b' => N.eqb x y && str_eqb a' b'
  | _, _ => false
  end.

(** [s.startsWith(p)], giving the rest of [s] after the prefix. *)
Fixpoint strip_prefix (p s : jstring) : option jstring :=
  match p with
  | [] => Some s
  | x :: p' =>
      match s with
      | y :: s' => if N.eqb x y then strip_prefix p' s' else None
      | [] => None
      end
  end.

(** WhiteSpace and LineTerminator code units of ECMAScript: the class
    [\s] of regular expressions and the characters removed by [trim]. *)
Definition is_space (c : N) : bool :=
  ((9 <=? c) && (c <=? 13) || (c =? 32) || (c =? 160) || (c =? 5760)
   || ((8192 <=? c) && (c <=? 8202)) || (c =? 8232) || (c =? 8233)
   || (c =? 8239) || (c =? 8287) || (c =? 12288) || (c =? 65279))%N.

(** LineTerminator: what [.] does not match. *)
Definition is_line_terminator (c : N) : bool :=
  ((c =? 10) || (c =? 13) || (c =? 8232) || (c =? 8233))%N.

Fixpoint trim_start (s : jstring) : jstring :=
  match s with
  | c :: s' => if is_space c then trim_start s' else s
  | [] => []
  end.

Definition trim_end (s : jstring) : jstring := rev (trim_start (rev s)).

(** [s.trim()] *)
Definition trim (s : jstring) : jstring := trim_end (trim_start s).

(** [s.indexOf(c)] for a one-unit pattern: the index, or -1. *)
Fixpoint indexOf (c : N) (s : jstring) : Z :=
  match s with
  | [] => -1
  | x :: s' =>
      if N.eqb x c then 0
      else match indexOf c s' with
           | Zneg _ => -1
           | i => i + 1
           end
  end%Z.

(** [s.lastIndexOf(c)] for a one-unit pattern: the index, or -1. *)
Fixpoint lastIndexOf (c : N) (s : jstring) : Z :=
  match s with
  | [] => -1
  | x :: s' =>
      match lastIndexOf c s' with
      | Zneg _ => if N.eqb x c then 0 else -1
      | i => i + 1
      end
  end%Z.

(** [s.slice(a, b)], with the clamping of relative indices. *)
Definition slice (s : jstring) (a b : Z) : jstring :=
  let len := Z.of_nat (length s) in
  let clamp i := if (i <? 0)%Z then Z.max (len + i) 0 else Z.min i len in
  let from := clamp a in
  let to := clamp b in
  firstn (Z.to_nat (to - from)) (skipn (Z.to_nat from) s).

Arguments lit : simpl never.

(** A literal in which the apostrophe stands for the double quote, for
    texts that carry JSON. *)
Definition litq (s : string) : jstring :=
  map (fun c => if N.eqb c 39 then 34%N else c) (lit s).

(** Decimal rendering of a natural number, as [String(n)] gives it for
    the array lengths the handlers print. *)
Definition decimal (n : nat) : jstring :=
  lit (NilEmpty.string_of_uint (Nat.to_uint n)).

End JS.
Import JS.

(* ================================================================== *)
(** * JSON values and [JSON.parse] *)
(* ================================================================== *)

Module Json.

#[local] Unset Elimination Schemes.

(** The values [JSON.parse] produces.  A number is kept as the exact
    decimal [(-1)^neg * mant * 10^exp10] its literal denotes (the engine
    rounds it to binary64); an object keeps its members in source
    order, duplicates included, and a property read takes the last. *)
Inductive json : Type :=
| JNull
| JBool (b : bool)
| JNum (neg : bool) (mant : N) (exp10 : Z)
| JStr (s : jstring)
| JArr (items : list json)
| JObj (members : list (jstring * json)).
#[local] Set Elimination Schemes.

Definition num_of_nat (n : nat) : json := JNum false (N.of_nat n) 0.

(** Outcome of a parsing step: a value and the unread input, a
    [SyntaxError], or recursion budget exhausted. *)
Inductive pres (A : Type) : Type :=
| POk (a : A) (rest : jstring)
| PSyntax
| PFuel.
Arguments PSyntax {A}.
Arguments PFuel {A}.

(** JSON whitespace: space, tab, line feed, carriage return. *)
Definition is_json_ws (c : N) : bool :=
  ((c =? 32) || (c =? 9) || (c =? 10) || (c =? 13))%N.

Fixpoint skip_ws (s : jstring) : jstring :=
  match s with
  | c :: s' => if is_json_ws c then skip_ws s' else s
  | [] => []
  end.

Definition is_digit (c : N) : bool := ((48 <=? c) && (c <=? 57))%N.

(** Leading digits of [s], accumulated in base ten on [acc]; the count
    of digits read and the unread input come with the value. *)
Fixpoint digits (s : jstring) (acc : N) (count : nat) : N * nat * jstring :=
  match s with
  | c :: s' =>
      if is_digit c then digits s' (10 * acc + (c - 48))%N (S count)
      else (acc, count, s)
  | [] => (acc, count, [])
  end.

Definition hex_value (c : N) : option N :=
  if is_digit c then Some (c - 48)%N
  else if ((97 <=? c) && (c <=? 102))%N then Some (c - 87)%N
  else if ((65 <=? c) && (c <=? 70))%N then Some (c - 55)%N
  else None.

Definition hex4 (a b c d : N) : option N :=
  match hex_value a, hex_value b, hex_value c, hex_value d with
  | Some x, Some y, Some z, Some w => Some (((x * 16 + y) * 16 + z) * 16 + w)%N
  | _, _, _, _ => None
  end.

(** The character a one-letter escape stands for. *)
Definition escape (c : N) : option N :=
  if (c =? 34)%N then Some 34%N            (* quote *)
  else if (c =? 92)%N then Some 92%N       (* backslash *)
  else if (c =? 47)%N then Some 47%N       (* slash *)
  else if (c =? 98)%N then Some 8%N        (* b: backspace *)
  else if (c =? 102)%N then Some 12%N      (* f: form feed *)
  else if (c =? 110)%N then Some 10%N      (* n: line feed *)
  else if (c =? 114)%N then Some 13%N      (* r: carriage return *)
  else if (c =? 116)%N then Some 9%N       (* t: tab *)
  else None.

(** The characters of a string literal after its opening quote, up to
    and including the closing quote. *)
Fixpoint parse_chars (s : jstring) (acc : jstring) : option (jstring * jstring) :=
  match s with
  | [] => None
  | c :: r =>
      if (c =? 34)%N then Some (rev acc, r)
      else if (c =? 92)%N then
        match r with
        | [] => None
        | e :: r' =>
            if (e =? 117)%N then
              match r' with
              | h1 :: h2 :: h3 :: h4 :: r'' =>
                  match hex4 h1 h2 h3 h4 with
                  | Some u => parse_chars r'' (u :: acc)
                  | None => None
                  end
              | _ => None
              end
            else
              match escape e with
              | Some x => parse_chars r' (x :: acc)
              | None => None
              end
        end
      else if (c <? 32)%N then None
      else parse_chars r (c :: acc)
  end.

(** The rest of a keyword ([null], [true], [false]) after its first
    letter. *)
Definition keyword (tail : string) (v : json) (r : jstring) : pres json :=
  match strip_prefix (lit tail) r with
  | Some r' => POk v r'
  | None => PSyntax
  end.

(** A number literal: an optional minus sign; an integer part that is
    either a single 0 or a nonzero digit followed by digits; an optional
    fraction (a dot and at least one digit); an optional exponent (e or
    E, an optional sign, at least one digit). *)
Definition parse_number (s : jstring) : pres json :=
  let '(neg, s1) :=
    match s with
    | c :: r => if (c =? 45)%N then (true, r) else (false, s)
    | [] => (false, s)
    end in
  match s1 with
  | [] => PSyntax
  | c :: r =>
      if negb (is_digit c) then PSyntax
      else
        let '(int, _, s2) :=
          if (c =? 48)%N then (0%N, 1%nat, r) else digits s1 0 0 in
        let frac :=
          match s2 with
          | d :: r2 =>
              if (d =? 46)%N then
                match digits r2 int 0 with
                | (_, O, _) => None
                | (m, k, s3) => Some (m, k, s3)
                end
              else Some (int, O, s2)
          | [] => Some (int, O, s2)
          end in
        match frac with
        | None => PSyntax
        | Some (mant, k, s3) =>
            match s3 with
            | e :: r3 =>
                if ((e =? 101) || (e =? 69))%N then
                  let '(eneg, s4) :=
                    match r3 with
                    | g :: r4 =>
                        if (g =? 45)%N then (true, r4)
                        else if (g =? 43)%N then (false, r4)
                        else (false, r3)
                    | [] => (false, r3)
                    end in
                  match digits s4 0 0 with
                  | (_, O, _) => PSyntax
                  | (x, _, s5) =>
                      let ex := if eneg then (- Z.of_N x)%Z else Z.of_N x in
                      POk (JNum neg mant (ex - Z.of_nat k)) s5
                  end
                else POk (JNum neg mant (- Z.of_nat k)) s3
            | [] => POk (JNum neg mant (- Z.of_nat k)) s3
            end
        end
  end.

(** A value, the elements of an array after [[], the members of an
    object after [{].  Callers skip the whitespace in front. *)
Fixpoint parse_value (fuel : nat) (s : jstring) : pres json :=
  match fuel with
  | O => PFuel
  | S f =>
      match s with
      | [] => PSyntax
      | c :: r =>
          if (c =? 110)%N then keyword "ull" JNull r
          else if (c =? 116)%N then keyword "rue" (JBool true) r
          else if (c =? 102)%N then keyword "alse" (JBool false) r
          else if (c =? 34)%N then
            match parse_chars r [] with
            | Some (str, r') => POk (JStr str) r'
            | None => PSyntax
            end
          else if (c =? 91)%N then
            match skip_ws r with
            | c' :: r' =>
                if (c' =? 93)%N then POk (JArr []) r'
                else parse_elems f (c' :: r') []
            | [] => PSyntax
            end
          else if (c =? 123)%N then
            match skip_ws r with
            | c' :: r' =>
                if (c' =? 125)%N then POk (JObj []) r'
                else parse_members f (c' :: r') []
            | [] => PSyntax
            end
          else parse_number s
      end
  end

with parse_elems (fuel : nat) (s : jstring) (acc : list json) : pres json :=
  match fuel with
  | O => PFuel
  | S f =>
      match parse_value f s with
      | POk v r =>
          match skip_ws r with
          | c :: r' =>
              if (c =? 44)%N then parse_elems f (skip_ws r') (v :: acc)
              else if (c =? 93)%N then POk (JArr (rev (v :: acc))) r'
              else PSyntax
          | [] => PSyntax
          end
      | PSyntax => PSyntax
      | PFuel => PFuel
      end
  end

with parse_members (fuel : nat) (s : jstring) (acc : list (jstring * json))
  : pres json :=
  match fuel with
  | O => PFuel
  | S f =>
      match s with
      | [] => PSyntax
      | c :: r =>
          if negb (c =? 34)%N then PSyntax
          else
            match parse_chars r [] with
            | None => PSyntax
            | Some (key, r1) =>
                match skip_ws r1 with
                | [] => PSyntax
                | c2 :: r2 =>
                    if negb (c2 =? 58)%N then PSyntax
                    else
                      match parse_value f (skip_ws r2) with
                      | POk v r3 =>
                          match skip_ws r3 with
                          | c3 :: r4 =>
                              if (c3 =? 44)%N then
                                parse_members f (skip_ws r4) ((key, v) :: acc)
                              else if (c3 =? 125)%N then
                                POk (JObj (rev ((key, v) :: acc))) r4
                              else PSyntax
                          | [] => PSyntax
                          end
                      | PSyntax => PSyntax
                      | PFuel => PFuel
                      end
                end
            end
      end
  end.

(** Recursion budget that every input stays within (see
    [parse_value_budget] below). *)
Definition budget (s : jstring) : nat := 2 * length s + 1.

(** [JSON.parse(text)]: [None] stands for the [SyntaxError] thrown. *)
Definition JSON_parse (text : jstring) : option json :=
  let s := skip_ws text in
  match parse_value (budget s) s with
  | POk v r => match skip_ws r with [] => Some v | _ :: _ => None end
  | _ => None
  end.

(** ** Reading parsed values the way the handlers do *)

(** A number literal whose binary64 value is zero: a zero mantissa, or
    a magnitude of at most [2^-1075], which rounds to zero. *)
Definition rounds_to_zero (mant : N) (exp10 : Z) : bool :=
  (mant =? 0)%N
  || ((exp10 <? 0)%Z && (Z.of_N mant * 2 ^ 1075 <=? 10 ^ (- exp10))%Z).

(** [ToBoolean]: what [if (v)], [v || d] and [!v] test. *)
Definition truthy (v : json) : bool :=
  match v with
  | JNull => false
  | JBool b => b
  | JNum _ m e => negb (rounds_to_zero m e)
  | JStr s => match s with [] => false | _ :: _ => true end
  | JArr _ | JObj _ => true
  end.

(** A property read may find nothing: [None] is [undefined]. *)
Definition truthy_opt (v : option json) : bool :=
  match v with Some x => truthy x | None => false end.

(** Own property [k] of an object: the last member of that name. *)
Fixpoint last_member (k : jstring) (ms : list (jstring * json)) : option json :=
  match ms with
  | [] => None
  | (k', v) :: ms' =>
      match last_member k ms' with
      | Some x => Some x
      | None => if str_eqb k' k then Some v else None
      end
  end.

(** Outcome of an operation that may throw a [TypeError]. *)
Inductive attempt (A : Type) : Type :=
| Fine (a : A)
| TypeError.
Arguments TypeError {A}.

(** [v.k], for the property names the handlers read (none of them is
    defined by a prototype): a read on [null] throws, a read on another
    primitive or on an array finds nothing. *)
Definition prop (v : json) (k : jstring) : attempt (option json) :=
  match v with
  | JNull => TypeError
  | JObj ms => Fine (last_member k ms)
  | _ => Fine None
  end.

(** [k in v]: throws unless [v] is an object or an array. *)
Definition has_prop (k : jstring) (v : json) : attempt bool :=
  match v with
  | JObj ms => Fine (match last_member k ms with Some _ => true | None => false end)
  | JArr _ => Fine false
  | _ => TypeError
  end.

End Json.
Import Json.

(* ================================================================== *)
(** * Regular expressions *)
(* ================================================================== *)

Module Regex.

(** The fragment of ECMAScript regular expressions the source uses.
    Repetition applies to a character class only. *)
Inductive re : Type :=
| Lit (s : jstring)            (* the characters of [s], in order *)
| Class (p : N -> bool)        (* one character of a class *)
| Opt (r : re)                 (* [(?:r)?] *)
| Star (p : N -> bool)         (* [p*], greedy *)
| LazyStar (p : N -> bool)     (* [p*?] *)
| Plus (p : N -> bool)         (* [p+], greedy *)
| Group (r : re)               (* [(r)], capturing *)
| Seq (r1 r2 : re).

Section Matcher.

(** The [i] flag. *)
Variable ignore_case : bool.

(** Canonicalisation of a code unit under [i], for patterns in ASCII:
    a unit outside ASCII never folds to an ASCII one. *)
Definition canon (c : N) : N :=
  if ignore_case && (97 <=? c)%N && (c <=? 122)%N then (c - 32)%N else c.

Fixpoint lit_match (p s : jstring) : option jstring :=
  match p with
  | [] => Some s
  | x :: p' =>
      match s with
      | y :: s' => if N.eqb (canon x) (canon y) then lit_match p' s' else None
      | [] => None
      end
  end.

Variable A : Type.

(** Greedy repetition: take as many as possible, give back one at a
    time while the continuation fails. *)
Fixpoint star (p : N -> bool) (s : jstring) (k : jstring -> option A) : option A :=
  match s with
  | c :: s' =>
      if p c then
        match star p s' k with
        | Some a => Some a
        | None => k s
        end
      else k s
  | [] => k []
  end.

(** Lazy repetition: take as few as possible, one more each time the
    continuation fails. *)
Fixpoint lazy_star (p : N -> bool) (s : jstring) (k : jstring -> option A) : option A :=
  match k s with
  | Some a => Some a
  | None =>
      match s with
      | c :: s' => if p c then lazy_star p s' k else None
      | [] => None
      end
  end.

(** Backtracking matcher: [k] receives the unread input and the
    captures made so far. *)
Fixpoint run (r : re) (s : jstring) (caps : list jstring)
    (k : jstring -> list jstring -> option A) : option A :=
  match r with
  | Lit l =>
      match lit_match l s with
      | Some s' => k s' caps
      | None => None
      end
  | Class p =>
      match s with
      | c :: s' => if p c then k s' caps else None
      | [] => None
      end
  | Opt r1 =>
      match run r1 s caps k with
      | Some a => Some a
      | None => k s caps
      end
  | Star p => star p s (fun s' => k s' caps)
  | LazyStar p => lazy_star p s (fun s' => k s' caps)
  | Plus p =>
      match s with
      | c :: s' => if p c then star p s' (fun s'' => k s'' caps) else None
      | [] => None
      end
  | Group r1 =>
      run r1 s caps
        (fun s' caps' => k s' (caps' ++ [firstn (length s - length s') s]))
  | Seq r1 r2 => run r1 s caps (fun s' caps' => run r2 s' caps' k)
  end.

End Matcher.

(** [s.match(r)] for a pattern without the [g] flag: the captures of
    the leftmost match, or [None] for [null]. *)
Fixpoint exec (ignore_case : bool) (r : re) (s : jstring) : option (list jstring) :=
  match run ignore_case r s [] (fun _ caps => Some caps) with
  | Some caps => Some caps
  | None =>
      match s with
      | _ :: s' => exec ignore_case r s'
      | [] => None
      end
  end.

Definition any (c : N) : bool := true.
Definition dot (c : N) : bool := negb (is_line_terminator c).

(** [s.replace(/\s+/g, '-')]: every maximal run of whitespace becomes
    one hyphen; [in_run] tells that the previous unit was whitespace. *)
Fixpoint replace_spaces_from (in_run : bool) (s : jstring) : jstring :=
  match s with
  | [] => []
  | c :: s' =>
      if is_space c then
        if in_run then replace_spaces_from true s'
        else 45%N :: replace_spaces_from true s'
      else c :: replace_spaces_from false s'
  end.

Definition replace_spaces (s : jstring) : jstring := replace_spaces_from false s.

End Regex.
Import Regex.

(* ================================================================== *)
(** * [extractJSON] (planning route) *)
(* ================================================================== *)

Module Extract.

Definition fence : jstring := lit "```".

(** The pattern of the code-block search: three backquotes, an optional
    [json] tag, whitespace, a lazily captured interior, three
    backquotes. *)
Definition codeBlockRe : re :=
  Seq (Lit fence)
    (Seq (Opt (Lit (lit "json")))
       (Seq (Star is_space)
          (Seq (Group (LazyStar any)) (Lit fence)))).

(** [text.match(codeBlockRe)], reduced to its first capture. *)
Definition codeBlockMatch (text : jstring) : option jstring :=
  match exec false codeBlockRe text with
  | Some (interior :: _) => Some interior
  | _ => None
  end.

(** The third strategy's candidate: the slice from the first opening
    brace to the last closing brace. *)
Definition braceSlice (text : jstring) : option jstring :=
  let firstBrace := indexOf 123 text in
  let lastBrace := lastIndexOf 125 text in
  if negb (firstBrace =? -1)%Z && (lastBrace >? firstBrace)%Z
  then Some (slice text firstBrace (lastBrace + 1))
  else None.

(** [extractJSON(text)]; the result [JNull] is the source's [null]. *)
Definition extractJSON (text : jstring) : json :=
  match JSON_parse (trim text) with
  | Some v => v
  | None =>
      let second :=
        match codeBlockMatch text with
        | Some interior => JSON_parse (trim interior)
        | None => None
        end in
      match second with
      | Some v => v
      | None =>
          let third :=
            match braceSlice text with
            | Some candidate => JSON_parse candidate
            | None => None
            end in
          match third with
          | Some v => v
          | None => JNull
          end
      end
  end.

End Extract.
Import Extract.

(* ================================================================== *)
(** * The store *)
(* ================================================================== *)

Module Store.

(** A nullable text column: [None] is SQL [NULL]. *)
Definition cell := option jstring.

Definition cell_truthy (c : cell) : bool :=
  match c with
  | Some (_ :: _) => true
  | _ => false
  end.

Record PlanningMessage := mkPlanningMessage {
  pm_role : jstring;
  pm_content : jstring;
  pm_timestamp : nat }.

(** A row of [tasks].  The column [planning_messages] holds the
    [JSON.stringify] of a message list; the model keeps the list. *)
Record Task := mkTask {
  t_id : jstring;
  t_title : jstring;
  t_description : cell;
  t_status : jstring;
  t_priority : jstring;
  t_assigned_agent_id : cell;
  t_workspace_id : jstring;
  t_due_date : cell;
  t_planning_session_key : cell;
  t_planning_messages : option (list PlanningMessage);
  t_updated_at : jstring }.

Record Agent := mkAgent {
  a_id : jstring;
  a_name : jstring;
  a_role : cell;
  a_is_master : bool;
  a_status : jstring;
  a_workspace_id : jstring;
  a_updated_at : jstring }.

(** A row of [openclaw_sessions]. *)
Record Session := mkSession {
  s_id : jstring;
  s_agent_id : jstring;
  s_openclaw_session_id : cell;
  s_channel : jstring;
  s_status : jstring;
  s_created_at : jstring;
  s_updated_at : jstring }.

Record Event := mkEvent {
  e_id : jstring;
  e_type : jstring;
  e_agent_id : cell;
  e_task_id : cell;
  e_message : jstring;
  e_created_at : jstring }.

(** A row of [task_activities]. *)
Record Activity := mkActivity {
  act_id : jstring;
  act_task_id : jstring;
  act_agent_id : cell;
  act_type : jstring;
  act_message : cell;
  act_created_at : jstring }.

(** A row of [task_deliverables]. *)
Record Deliverable := mkDeliverable {
  d_id : jstring;
  d_task_id : jstring;
  d_type : cell;
  d_title : cell;
  d_path : cell;
  d_description : cell;
  d_created_at : jstring }.

(** The tables, each in row order. *)
Record store := mkStore {
  tasks : list Task;
  agents : list Agent;
  sessions : list Session;
  events : list Event;
  activities : list Activity;
  deliverables : list Deliverable }.

(** ** Statements *)

Definition set_tasks (f : list Task -> list Task) (st : store) : store :=
  mkStore (f (tasks st)) (agents st) (sessions st) (events st)
    (activities st) (deliverables st).
Definition set_agents (f : list Agent -> list Agent) (st : store) : store :=
  mkStore (tasks st) (f (agents st)) (sessions st) (events st)
    (activities st) (deliverables st).
Definition set_sessions (f : list Session -> list Session) (st : store) : store :=
  mkStore (tasks st) (agents st) (f (sessions st)) (events st)
    (activities st) (deliverables st).
Definition insert_event (e : Event) (st : store) : store :=
  mkStore (tasks st) (agents st) (sessions st) (events st ++ [e])
    (activities st) (deliverables st).
Definition insert_activity (a : Activity) (st : store) : store :=
  mkStore (tasks st) (agents st) (sessions st) (events st)
    (activities st ++ [a]) (deliverables st).
Definition insert_deliverable (d : Deliverable) (st : store) : store :=
  mkStore (tasks st) (agents st) (sessions st) (events st)
    (activities st) (deliverables st ++ [d]).
Definition insert_session (s : Session) (st : store) : store :=
  set_sessions (fun l => l ++ [s]) st.

(** [SELECT * FROM tasks WHERE id = ?] *)
Definition task_by_id (id : jstring) (st : store) : option Task :=
  find (fun t => str_eqb (t_id t) id) (tasks st).

(** [SELECT * FROM agents WHERE id = ?] *)
Definition agent_by_id (id : jstring) (st : store) : option Agent :=
  find (fun a => str_eqb (a_id a) id) (agents st).

(** The column [a.name as assigned_agent_name] of the left join of a
    task with its agent. *)
Definition assigned_agent_name (t : Task) (st : store) : cell :=
  match t_assigned_agent_id t with
  | Some aid => option_map a_name (agent_by_id aid st)
  | None => None
  end.

(** [SELECT * FROM openclaw_sessions WHERE agent_id = ? AND status = 'active'] *)
Definition active_session_of (agent_id : jstring) (st : store) : option Session :=
  find (fun s => str_eqb (s_agent_id s) agent_id
                 && str_eqb (s_status s) (lit "active")) (sessions st).

(** [SELECT * FROM openclaw_sessions WHERE id = ?] *)
Definition session_by_id (id : jstring) (st : store) : option Session :=
  find (fun s => str_eqb (s_id s) id) (sessions st).

(** [SELECT * FROM openclaw_sessions
     WHERE openclaw_session_id = ? AND status = 'active'] *)
Definition active_session_by_key (key : jstring) (st : store) : option Session :=
  find (fun s => match s_openclaw_session_id s with
                 | Some k => str_eqb k key
                 | None => false
                 end && str_eqb (s_status s) (lit "active")) (sessions st).

(** [UPDATE tasks SET status = ?, updated_at = ? WHERE id = ?] *)
Definition update_task_status (status now id : jstring) : store -> store :=
  set_tasks (map (fun t =>
    if str_eqb (t_id t) id then
      mkTask (t_id t) (t_title t) (t_description t) status (t_priority t)
        (t_assigned_agent_id t) (t_workspace_id t) (t_due_date t)
        (t_planning_session_key t) (t_planning_messages t) now
    else t)).

(** [UPDATE agents SET status = ?, updated_at = ? WHERE id = ?] *)
Definition update_agent_status (status now id : jstring) : store -> store :=
  set_agents (map (fun a =>
    if str_eqb (a_id a) id then
      mkAgent (a_id a) (a_name a) (a_role a) (a_is_master a) status
        (a_workspace_id a) now
    else a)).

(** [UPDATE openclaw_sessions SET status = ?, updated_at = ? WHERE id = ?] *)
Definition update_session_status (status now id : jstring) : store -> store :=
  set_sessions (map (fun s =>
    if str_eqb (s_id s) id then
      mkSession (s_id s) (s_agent_id s) (s_openclaw_session_id s)
        (s_channel s) status (s_created_at s) now
    else s)).

(** [UPDATE tasks SET planning_session_key = ?, planning_messages = ?,
     status = 'planning' WHERE id = ?] *)
Definition start_task_planning (key : jstring) (msgs : list PlanningMessage)
    (id : jstring) : store -> store :=
  set_tasks (map (fun t =>
    if str_eqb (t_id t) id then
      mkTask (t_id t) (t_title t) (t_description t) (lit "planning")
        (t_priority t) (t_assigned_agent_id t) (t_workspace_id t)
        (t_due_date t) (Some key) (Some msgs) (t_updated_at t)
    else t)).

(** [UPDATE tasks SET planning_messages = ? WHERE id = ?] *)
Definition update_planning_messages (msgs : list PlanningMessage)
    (id : jstring) : store -> store :=
  set_tasks (map (fun t =>
    if str_eqb (t_id t) id then
      mkTask (t_id t) (t_title t) (t_description t) (t_status t)
        (t_priority t) (t_assigned_agent_id t) (t_workspace_id t)
        (t_due_date t) (t_planning_session_key t) (Some msgs) (t_updated_at t)
    else t)).

(** The other orchestrators of a workspace:
    [SELECT id, name, role FROM agents WHERE is_master = 1 AND id != ?
     AND workspace_id = ? AND status != 'offline'] *)
Definition is_other_orchestrator (self workspace : jstring) (a : Agent) : bool :=
  a_is_master a
  && negb (str_eqb (a_id a) self)
  && str_eqb (a_workspace_id a) workspace
  && negb (str_eqb (a_status a) (lit "offline")).

Definition other_orchestrators (self workspace : jstring) (st : store) : list Agent :=
  filter (is_other_orchestrator self workspace) (agents st).

(** Lexicographic order on code units; on the ISO-8601 timestamps the
    handlers write, this is the order of the instants. *)
Fixpoint str_ltb (a b : jstring) : bool :=
  match a, b with
  | _, [] => false
  | [], _ :: _ => true
  | x :: a', y :: b' => (x <? y)%N || ((x =? y)%N && str_ltb a' b')
  end.

(** First row of [ORDER BY updated_at DESC]: the latest, the earlier
    row on a tie. *)
Fixpoint latest (l : list Task) : option Task :=
  match l with
  | [] => None
  | t :: l' =>
      match latest l' with
      | Some u => if str_ltb (t_updated_at t) (t_updated_at u) then Some u else Some t
      | None => Some t
      end
  end.

Definition is_active_task_of (agent_id : jstring) (t : Task) : bool :=
  match t_assigned_agent_id t with
  | Some a => str_eqb a agent_id
  | None => false
  end
  && (str_eqb (t_status t) (lit "assigned")
      || str_eqb (t_status t) (lit "in_progress")).

(** [SELECT ... FROM tasks t WHERE t.assigned_agent_id = ?
     AND t.status IN ('assigned', 'in_progress')
     ORDER BY t.updated_at DESC LIMIT 1] *)
Definition active_task_of (agent_id : jstring) (st : store) : option Task :=
  latest (filter (is_active_task_of agent_id) (tasks st)).

End Store.
Import Store.

(* ================================================================== *)
(** * Handlers: effects and environment *)
(* ================================================================== *)

Module Handler.

(** What a handler can throw. *)
Inductive fault : Type :=
| GatewayFault      (* a gateway call rejected *)
| SyntaxFault       (* [JSON.parse] on a malformed text *)
| TypeFault         (* a [TypeError] of the language *)
| BindFault.        (* the database layer refused a parameter *)

(** What a handler does to the outside, in order. *)
Inductive effect : Type :=
| Connect
| ListSessions
| ChatSend (sessionKey message idempotencyKey : jstring)
| ChatHistory (sessionKey : jstring)
| Sleep (ms : nat)
| Broadcast (type : jstring) (payload : Task).

Record world := mkWorld {
  w_store : store;
  w_uuids : nat;               (* identifiers drawn so far *)
  w_trace : list effect }.

Record Response := mkResponse {
  status : nat;
  body : json }.

(** A message of a [chat.history] answer. *)
Record Block := mkBlock { b_type : jstring; b_text : cell }.
Record GwMessage := mkGwMessage {
  g_role : jstring;
  g_content : option (list Block) }.

(** Library functions the handlers call whose code is outside the
    repository. *)
Record Runtime := mkRuntime {
  (* [createHmac('sha256', key).update(data).digest('hex')] *)
  hmac_sha256_hex : jstring -> jstring -> jstring;
  (* [String.prototype.toLowerCase] *)
  toLowerCase : jstring -> jstring;
  (* how the database layer binds a parameter that is neither a string
     nor [null]: the cell written, or [None] when it throws *)
  bind_other : option json -> option cell;
  (* how a template literal renders a value that is not a string *)
  display_other : json -> jstring;
  (* the [message] of a caught error *)
  fault_message : fault -> jstring;
  (* the dispatch template filled in for a task *)
  taskMessage : Task -> jstring;
  (* the planning template filled in for a task *)
  planningPrompt : Task -> jstring }.

(** Configuration, clock, identifiers and the gateway's answers during
    one request. *)
Record Env := mkEnv {
  WEBHOOK_SECRET : cell;
  now : jstring;                      (* [new Date().toISOString()] *)
  uuid : nat -> jstring;              (* the n-th identifier drawn *)
  date_now : nat -> nat;              (* the n-th [Date.now()] *)
  isConnected : bool;
  connect_ok : bool;
  listSessions_ok : bool;
  send_ok : bool;
  (* answer to the n-th transcript request, [None] when it fails *)
  history : nat -> option (list GwMessage) }.

(** ** The handler monad: state, early reply, exceptions *)

Inductive outcome (A : Type) : Type :=
| Ret (a : A)
| Reply (r : Response)
| Throw (f : fault).
Arguments Reply {A}.
Arguments Throw {A}.

Definition M (A : Type) : Type := world -> outcome A * world.

Definition ret {A} (a : A) : M A := fun w => (Ret a, w).
Arguments ret {A} a w /.

Definition bind {A B} (m : M A) (k : A -> M B) : M B :=
  fun w =>
    match m w with
    | (Ret a, w') => k a w'
    | (Reply r, w') => (Reply r, w')
    | (Throw f, w') => (Throw f, w')
    end.
Arguments bind {A B} m k w /.

Declare Scope handler_scope.
Delimit Scope handler_scope with handler.
Notation "x <- c1 ;; c2" := (bind c1 (fun x => c2))
  (at level 61, c1 at next level, right associativity) : handler_scope.
Notation "c1 ;; c2" := (bind c1 (fun _ => c2))
  (at level 61, right associativity) : handler_scope.
Open Scope handler_scope.

(** [return NextResponse.json(...)] in the middle of a handler. *)
Definition reply {A} (r : Response) : M A := fun w => (Reply r, w).
Definition throw {A} (f : fault) : M A := fun w => (Throw f, w).
Arguments reply {A} r w /.
Arguments throw {A} f w /.

(** [try { m } catch (err) { h err }] *)
Definition catch {A} (m : M A) (h : fault -> M A) : M A :=
  fun w =>
    match m w with
    | (Throw f, w') => h f w'
    | r => r
    end.
Arguments catch {A} m h w /.

Definition query {A} (q : store -> A) : M A := fun w => (Ret (q (w_store w)), w).
Arguments query {A} q w /.

Definition run_sql (f : store -> store) : M unit :=
  fun w => (Ret tt, mkWorld (f (w_store w)) (w_uuids w) (w_trace w)).

Definition emit (e : effect) : M unit :=
  fun w => (Ret tt, mkWorld (w_store w) (w_uuids w) (w_trace w ++ [e])).
Arguments run_sql f w /.
Arguments emit e w /.

Definition or_reply {A} (o : option A) (r : Response) : M A :=
  match o with
  | Some a => ret a
  | None => reply r
  end.

(** A handler as a whole: its response and the world it leaves. *)
Definition handle (on_error : fault -> Response) (m : M Response)
    (w : world) : Response * world :=
  match m w with
  | (Ret r, w') => (r, w')
  | (Reply r, w') => (r, w')
  | (Throw f, w') => (on_error f, w')
  end.

(** ** JSON bodies *)

Definition field (k : string) (v : json) : jstring * json := (lit k, v).
Definition jtext (s : string) : json := JStr (lit s).
Definition cell_json (c : cell) : json :=
  match c with Some s => JStr s | None => JNull end.
Definition error_body (msg : string) : json := JObj [field "error" (jtext msg)].

Definition session_json (s : Session) : json :=
  JObj [field "id" (JStr (s_id s));
        field "agent_id" (JStr (s_agent_id s));
        field "openclaw_session_id" (cell_json (s_openclaw_session_id s));
        field "channel" (JStr (s_channel s));
        field "status" (JStr (s_status s));
        field "created_at" (JStr (s_created_at s));
        field "updated_at" (JStr (s_updated_at s))].

Definition planning_message_json (m : PlanningMessage) : json :=
  JObj [field "role" (JStr (pm_role m));
        field "content" (JStr (pm_content m));
        field "timestamp" (num_of_nat (pm_timestamp m))].

(** A template literal's rendering of a nullable column. *)
Definition display_cell (c : cell) : jstring :=
  match c with Some s => s | None => lit "null" end.

(** [a.join(sep)] *)
Fixpoint join (sep : jstring) (l : list jstring) : jstring :=
  match l with
  | [] => []
  | [x] => x
  | x :: l' => x ++ sep ++ join sep l'
  end.

(** [l.indexOf(x)] on a list of strings. *)
Fixpoint index_of (x : jstring) (l : list jstring) : Z :=
  match l with
  | [] => -1
  | y :: l' =>
      if str_eqb y x then 0
      else match index_of x l' with
           | Zneg _ => -1
           | i => i + 1
           end
  end%Z.

(** The elements a [for ... of] over a string visits: its code points,
    a surrogate pair counting as one. *)
Fixpoint code_points (s : jstring) : list jstring :=
  match s with
  | [] => []
  | c :: s' =>
      match s' with
      | d :: s'' =>
          if ((55296 <=? c) && (c <=? 56319) && (56320 <=? d) && (d <=? 57343))%N
          then match code_points s' with
               | _ :: rest => [c; d] :: rest
               | [] => [[c; d]]
               end
          else [c] :: code_points s'
      | [] => [[c]]
      end
  end.

Definition is_high_surrogate (c : N) : bool := ((55296 <=? c) && (c <=? 56319))%N.
Definition is_low_surrogate (c : N) : bool := ((56320 <=? c) && (c <=? 57343))%N.

(** A string bound to a statement, as the database layer stores it and
    a later read returns it.  The layer writes text as UTF-8, in which
    a surrogate outside a pair has no encoding: each one is replaced by
    U+FFFD.  Strings without such a surrogate are stored as they are;
    that is the case of what was read from a row and of route
    parameters, which the handlers bind directly. *)
Fixpoint sql_text (s : jstring) : jstring :=
  match s with
  | [] => []
  | c :: s' =>
      if is_high_surrogate c then
        match s' with
        | d :: s'' =>
            if is_low_surrogate d then c :: d :: sql_text s''
            else 65533%N :: sql_text s'
        | [] => [65533%N]
        end
      else if is_low_surrogate c then 65533%N :: sql_text s'
      else c :: sql_text s'
  end.

(** No surrogate of [s] stands outside a pair. *)
Fixpoint well_formed (s : jstring) : bool :=
  match s with
  | [] => true
  | c :: s' =>
      if is_high_surrogate c then
        match s' with
        | d :: s'' => is_low_surrogate d && well_formed s''
        | [] => false
        end
      else negb (is_low_surrogate c) && well_formed s'
  end.

Section Handlers.

Variable rt : Runtime.
Variable env : Env.

(** [uuidv4()] and [crypto.randomUUID()] *)
Definition fresh_uuid : M jstring :=
  fun w => (Ret (uuid env (w_uuids w)),
            mkWorld (w_store w) (S (w_uuids w)) (w_trace w)).

(** A property read inside a handler. *)
Definition read (v : json) (k : string) : M (option json) :=
  match prop v (lit k) with
  | Fine x => ret x
  | TypeError => throw TypeFault
  end.

(** A statement parameter as the database layer stores it. *)
Definition bind_param (v : option json) : M cell :=
  match v with
  | Some (JStr s) => ret (Some (sql_text s))
  | Some JNull => ret None
  | _ =>
      match bind_other rt v with
      | Some c => ret c
      | None => throw BindFault
      end
  end.

(** A value inside a template literal. *)
Definition display (v : json) : jstring :=
  match v with
  | JStr s => s
  | _ => display_other rt v
  end.

(** [v || d] *)
Definition or_default (v : option json) (d : json) : json :=
  match v with
  | Some x => if truthy x then x else d
  | None => d
  end.

(** [if (!client.isConnected()) { await client.connect() }], the
    failure handled by [on_failure]. *)
Definition ensure_connected (on_failure : M unit) : M unit :=
  if isConnected env then ret tt
  else emit Connect ;; if connect_ok env then ret tt else on_failure.

(** The session id derived from an agent's name. *)
Definition derived_session_id (name : jstring) : jstring :=
  lit "mission-control-" ++ replace_spaces (toLowerCase rt name).

End Handlers.

End Handler.
Import Handler.

(* ================================================================== *)
(** * POST /api/tasks/[id]/dispatch *)
(* ================================================================== *)

Module Dispatch.

Section Route.

Variable rt : Runtime.
Variable env : Env.

Definition orchestrator_json (a : Agent) : json :=
  JObj [field "id" (JStr (a_id a));
        field "name" (JStr (a_name a));
        field "role" (cell_json (a_role a))].

(** The body of the 409 answer. *)
Definition conflict_body (others : list Agent) : json :=
  let n := length others in
  let one := Nat.eqb n 1 in
  JObj [field "success" (JBool false);
        field "warning" (jtext "Other orchestrators available");
        field "message"
          (JStr (lit "There " ++ (if one then lit "is" else lit "are")
                 ++ lit " " ++ decimal n ++ lit " other orchestrator"
                 ++ (if one then [] else lit "s")
                 ++ lit " available in this workspace: "
                 ++ join (lit ", ") (map a_name others)
                 ++ lit ". Consider assigning this task to them instead."));
        field "otherOrchestrators" (JArr (map orchestrator_json others))].

Definition internal_error : Response :=
  mkResponse 500 (error_body "Internal server error").

(** The handler's [try] block. *)
Definition POST_body (id : jstring) : M Response :=
  found <- query (task_by_id id) ;;
  task <- or_reply found (mkResponse 404 (error_body "Task not found")) ;;
  assigned <-
    match t_assigned_agent_id task with
    | Some (c :: r) => ret (c :: r)
    | _ => reply (mkResponse 400 (error_body "Task has no assigned agent"))
    end ;;
  found <- query (agent_by_id assigned) ;;
  agent <- or_reply found (mkResponse 404 (error_body "Assigned agent not found")) ;;
  (if a_is_master agent then
     otherOrchestrators <-
       query (other_orchestrators (a_id agent) (t_workspace_id task)) ;;
     match otherOrchestrators with
     | _ :: _ => reply (mkResponse 409 (conflict_body otherOrchestrators))
     | [] => ret tt
     end
   else ret tt) ;;
  ensure_connected env
    (reply (mkResponse 503 (error_body "Failed to connect to OpenClaw Gateway"))) ;;
  existing <- query (active_session_of (a_id agent)) ;;
  session <-
    match existing with
    | Some s => ret (Some s)
    | None =>
        sessionId <- fresh_uuid env ;;
        let openclawSessionId := derived_session_id rt (a_name agent) in
        run_sql (insert_session
          (mkSession sessionId (a_id agent) (Some openclawSessionId)
             (lit "mission-control") (lit "active") (now env) (now env))) ;;
        created <- query (session_by_id sessionId) ;;
        eventId <- fresh_uuid env ;;
        run_sql (insert_event
          (mkEvent eventId (lit "agent_status_changed") (Some (a_id agent)) None
             (a_name agent ++ lit " session created") (now env))) ;;
        ret created
    end ;;
  session <- or_reply session
    (mkResponse 500 (error_body "Failed to create agent session")) ;;
  catch
    (let sessionKey := lit "agent:main:" ++ display_cell (s_openclaw_session_id session) in
     emit (ChatSend sessionKey (taskMessage rt task)
             (lit "dispatch-" ++ t_id task ++ lit "-" ++ decimal (date_now env 0))) ;;
     (if send_ok env then ret tt else throw GatewayFault) ;;
     run_sql (update_task_status (lit "in_progress") (now env) id) ;;
     updatedTask <- query (task_by_id id) ;;
     match updatedTask with
     | Some t => emit (Broadcast (lit "task_updated") t)
     | None => ret tt
     end ;;
     run_sql (update_agent_status (lit "working") (now env) (a_id agent)) ;;
     eventId <- fresh_uuid env ;;
     run_sql (insert_event
       (mkEvent eventId (lit "task_dispatched") (Some (a_id agent))
          (Some (t_id task))
          (lit "Task " ++ [34%N] ++ t_title task ++ [34%N] ++ lit " dispatched to "
           ++ a_name agent)
          (now env))) ;;
     activityId <- fresh_uuid env ;;
     run_sql (insert_activity
       (mkActivity activityId (t_id task) (Some (a_id agent))
          (lit "status_changed")
          (Some (lit "Task dispatched to " ++ a_name agent
                 ++ lit " - Agent is now working on this task"))
          (now env))) ;;
     ret (mkResponse 200
            (JObj [field "success" (JBool true);
                   field "task_id" (JStr (t_id task));
                   field "agent_id" (JStr (a_id agent));
                   field "session_id" (cell_json (s_openclaw_session_id session));
                   field "message" (jtext "Task dispatched to agent")])))
    (fun _ => ret internal_error).

Definition POST (id : jstring) : world -> Response * world :=
  handle (fun _ => internal_error) (POST_body id).

End Route.

End Dispatch.

(* ================================================================== *)
(** * POST and DELETE /api/agents/[id]/openclaw *)
(* ================================================================== *)

Module OpenClawLink.

Section Route.

Variable rt : Runtime.
Variable env : Env.

Definition agent_not_found : Response :=
  mkResponse 404 (error_body "Agent not found").

(** Linking an agent runs in three stretches, with the event loop free
    to serve other requests between them.  The first, up to the first
    [await] on the gateway: the agent, when it exists and has no active
    session. *)
Definition POST_check (id : jstring) : M Agent :=
  found <- query (agent_by_id id) ;;
  agent <- or_reply found agent_not_found ;;
  existingSession <- query (active_session_of id) ;;
  match existingSession with
  | Some s =>
      reply (mkResponse 409
        (JObj [field "error" (jtext "Agent is already linked to an OpenClaw session");
               field "session" (session_json s)]))
  | None => ret agent
  end.

(** The second: [await client.connect()] when the client is not
    connected, then [await client.listSessions()]. *)
Definition POST_gateway : M unit :=
  ensure_connected env
    (reply (mkResponse 503 (error_body "Failed to connect to OpenClaw Gateway"))) ;;
  emit ListSessions ;;
  if listSessions_ok env then ret tt
  else reply (mkResponse 503
    (error_body "Connected but failed to communicate with OpenClaw Gateway")).

(** The third, once [await request.json()] has given the request's
    body [requestText]: the two INSERTs and the answer. *)
Definition POST_store (id requestText : jstring) (agent : Agent) : M Response :=
  let body := match JSON_parse requestText with Some b => b | None => JObj [] end in
  sessionId <- fresh_uuid env ;;
  requested <- read body "openclaw_session_id" ;;
  let openclawSessionId :=
    or_default requested (JStr (derived_session_id rt (a_name agent))) in
  key <- bind_param rt (Some openclawSessionId) ;;
  run_sql (insert_session
    (mkSession sessionId id key (lit "mission-control") (lit "active")
       (now env) (now env))) ;;
  eventId <- fresh_uuid env ;;
  run_sql (insert_event
    (mkEvent eventId (lit "agent_status_changed") (Some id) None
       (a_name agent ++ lit " connected to OpenClaw Gateway") (now env))) ;;
  session <- query (session_by_id sessionId) ;;
  ret (mkResponse 201
         (JObj (field "linked" (JBool true)
                :: match session with
                   | Some s => [field "session" (session_json s)]
                   | None => []
                   end))).

(** A link request served without another request in between. *)
Definition POST_body (id requestText : jstring) : M Response :=
  agent <- POST_check id ;;
  POST_gateway ;;
  POST_store id requestText agent.

Definition POST (id requestText : jstring) : world -> Response * world :=
  handle (fun _ => mkResponse 500 (error_body "Internal server error"))
    (POST_body id requestText).

(** Unlink an agent. *)
Definition DELETE_body (id : jstring) : M Response :=
  found <- query (agent_by_id id) ;;
  agent <- or_reply found agent_not_found ;;
  existing <- query (active_session_of id) ;;
  existingSession <- or_reply existing
    (mkResponse 404 (error_body "Agent is not linked to an OpenClaw session")) ;;
  run_sql (update_session_status (lit "inactive") (now env) (s_id existingSession)) ;;
  eventId <- fresh_uuid env ;;
  run_sql (insert_event
    (mkEvent eventId (lit "agent_status_changed") (Some id) None
       (a_name agent ++ lit " disconnected from OpenClaw Gateway") (now env))) ;;
  ret (mkResponse 200
         (JObj [field "linked" (JBool false); field "success" (JBool true)])).

Definition DELETE (id : jstring) : world -> Response * world :=
  handle (fun _ => mkResponse 500 (error_body "Failed to unlink agent from OpenClaw"))
    (DELETE_body id).

End Route.

End OpenClawLink.

(* ================================================================== *)
(** * POST /api/tasks/[id]/planning *)
(* ================================================================== *)

Module Planning.

Definition PLANNING_SESSION_PREFIX : jstring := lit "agent:main:planning:".

(** Attempts of the reply poll and the pause before each, in
    milliseconds. *)
Definition poll_attempts : nat := 30.
Definition poll_interval : nat := 500.

(** The text of the first block of type [text] of an assistant
    message, when it has one and the text is not empty. *)
Definition assistant_text (msg : GwMessage) : option jstring :=
  if str_eqb (g_role msg) (lit "assistant") then
    match g_content msg with
    | Some blocks =>
        match find (fun c => str_eqb (b_type c) (lit "text")) blocks with
        | Some textContent =>
            match b_text textContent with
            | Some (c :: r) => Some (c :: r)
            | _ => None
            end
        | None => None
        end
    | None => None
    end
  else None.

(** The assistant messages of a transcript, as [(role, content)]. *)
Fixpoint assistant_messages (l : list GwMessage) : list (jstring * jstring) :=
  match l with
  | [] => []
  | msg :: l' =>
      match assistant_text msg with
      | Some text => (lit "assistant", text) :: assistant_messages l'
      | None => assistant_messages l'
      end
  end.

(** [[...messages].reverse().find(m => m.role === 'assistant')] *)
Definition last_assistant (messages : list (jstring * jstring))
  : option (jstring * jstring) :=
  find (fun m => str_eqb (fst m) (lit "assistant")) (rev messages).

Section Route.

Variable rt : Runtime.
Variable env : Env.

(** [getMessagesFromOpenClaw(sessionKey)], for the [n]-th transcript
    request of the handler; [connected] is what [client.isConnected()]
    answers at the call.  A client that is not connected connects
    first; a failure inside the [try], of the connection or of the
    request, gives the empty list. *)
Definition getMessagesFromOpenClaw (connected : bool) (sessionKey : jstring)
    (n : nat) : M (list (jstring * jstring)) :=
  catch
    ((if connected then ret tt
      else emit Connect ;; if connect_ok env then ret tt else throw GatewayFault) ;;
     emit (ChatHistory sessionKey) ;;
     match history env n with
     | Some messages => ret (assistant_messages messages)
     | None => throw GatewayFault
     end)
    (fun _ => ret []).

(** The reply poll: [attempts] more rounds, the next being round [i].
    The handler has made sure of the connection before the poll starts,
    so the client is connected at each round. *)
Fixpoint poll (sessionKey : jstring) (attempts i : nat) : M (option jstring) :=
  match attempts with
  | O => ret None
  | S rest =>
      emit (Sleep poll_interval) ;;
      transcriptMessages <- getMessagesFromOpenClaw true sessionKey i ;;
      match last_assistant transcriptMessages with
      | Some lastAssistant => ret (Some (snd lastAssistant))
      | None => poll sessionKey rest (S i)
      end
  end.

Definition messages_json (l : list PlanningMessage) : json :=
  JArr (map planning_message_json l).

Definition POST_body (taskId : jstring) : M Response :=
  found <- query (task_by_id taskId) ;;
  task <- or_reply found (mkResponse 404 (error_body "Task not found")) ;;
  (if cell_truthy (t_planning_session_key task) then
     reply (mkResponse 400
       (JObj [field "error" (jtext "Planning already started");
              field "sessionKey" (cell_json (t_planning_session_key task))]))
   else ret tt) ;;
  let sessionKey := PLANNING_SESSION_PREFIX ++ taskId in
  let prompt := planningPrompt rt task in
  ensure_connected env (throw GatewayFault) ;;
  emit (ChatSend sessionKey prompt
          (lit "planning-start-" ++ taskId ++ lit "-" ++ decimal (date_now env 0))) ;;
  (if send_ok env then ret tt else throw GatewayFault) ;;
  let messages := [mkPlanningMessage (lit "user") prompt (date_now env 1)] in
  run_sql (start_task_planning sessionKey messages taskId) ;;
  response <- poll sessionKey poll_attempts 0 ;;
  match response with
  | Some (c :: r) =>
      let response := c :: r in
      let messages :=
        messages ++ [mkPlanningMessage (lit "assistant") response (date_now env 2)] in
      run_sql (update_planning_messages messages taskId) ;;
      let parsed := extractJSON response in
      is_question <-
        (if truthy parsed then
           match has_prop (lit "question") parsed with
           | Fine b => ret b
           | TypeError => throw TypeFault
           end
         else ret false) ;;
      if is_question : bool then
        ret (mkResponse 200
               (JObj [field "success" (JBool true);
                      field "sessionKey" (JStr sessionKey);
                      field "currentQuestion" parsed;
                      field "messages" (messages_json messages)]))
      else
        ret (mkResponse 200
               (JObj [field "success" (JBool true);
                      field "sessionKey" (JStr sessionKey);
                      field "rawResponse" (JStr response);
                      field "messages" (messages_json messages)]))
  | _ =>
      ret (mkResponse 200
             (JObj [field "success" (JBool true);
                    field "sessionKey" (JStr sessionKey);
                    field "messages" (messages_json messages);
                    field "note" (jtext
                      "Planning started, waiting for response. Poll GET endpoint for updates.")]))
  end.

Definition POST (taskId : jstring) : world -> Response * world :=
  handle
    (fun f => mkResponse 500
       (JObj [field "error"
                (JStr (lit "Failed to start planning: " ++ fault_message rt f))]))
    (POST_body taskId).

End Route.

End Planning.

(* ================================================================== *)
(** * POST /api/webhooks/agent-completion *)
(* ================================================================== *)

Module Completion.

Definition allowedStatuses : list jstring :=
  [lit "testing"; lit "review"; lit "done"].

Definition statusOrder : list jstring :=
  [lit "planning"; lit "inbox"; lit "assigned"; lit "in_progress";
   lit "testing"; lit "review"; lit "done"].

(** The pattern of a completion message: the marker, whitespace, and a
    captured, non-empty rest of the line; letter case is ignored. *)
Definition completionRe : re :=
  Seq (Lit (lit "TASK_COMPLETE:")) (Seq (Star is_space) (Group (Plus dot))).

(** [message.match(completionRe)], reduced to its first capture. *)
Definition completionMatch (message : jstring) : option jstring :=
  match exec true completionRe message with
  | Some (summary :: _) => Some summary
  | _ => None
  end.

(** The target status of a direct payload. *)
Definition targetStatus (status : option json) : jstring :=
  match status with
  | Some (JStr s) => if existsb (str_eqb s) allowedStatuses then s else lit "testing"
  | _ => lit "testing"
  end.

(** The status a task gets: the target when it lies further along
    [statusOrder], the current one otherwise. *)
Definition newStatus (current target : jstring) : jstring :=
  if (index_of target statusOrder >? index_of current statusOrder)%Z
  then target else current.

Section Route.

Variable rt : Runtime.
Variable env : Env.

Definition verifyWebhookSignature (signature rawBody : jstring) : bool :=
  match WEBHOOK_SECRET env with
  | Some (c :: k) =>
      match signature with
      | [] => false
      | _ :: _ => str_eqb signature (hmac_sha256_hex rt (c :: k) rawBody)
      end
  | _ => true
  end.

(** The signature check in front of the handler; [signature] is the
    header [x-webhook-signature], [None] when the request has none. *)
Definition check_signature (signature : cell) (rawBody : jstring) : M unit :=
  if cell_truthy (WEBHOOK_SECRET env) then
    if negb (cell_truthy signature)
       || negb (verifyWebhookSignature (display_cell signature) rawBody)
    then reply (mkResponse 401 (error_body "Unauthorized"))
    else ret tt
  else ret tt.

(** One round of the deliverables loop. *)
Definition register_deliverable (task : Task) (d : json) : M unit :=
  id <- fresh_uuid env ;;
  type <- read d "type" ;;
  title <- read d "title" ;;
  path <- read d "path" ;;
  description <- read d "description" ;;
  type <- bind_param rt (Some (or_default type (jtext "file"))) ;;
  title <- bind_param rt title ;;
  path <- bind_param rt (Some (or_default path JNull)) ;;
  description <- bind_param rt (Some (or_default description JNull)) ;;
  run_sql (insert_deliverable
    (mkDeliverable id (t_id task) type title path description (now env))).

Fixpoint for_each {A} (f : A -> M unit) (l : list A) : M unit :=
  match l with
  | [] => ret tt
  | x :: l' => f x ;; for_each f l'
  end.

(** What [for (const d of body.deliverables || [])] visits, and the
    [length] the answer reports; a truthy value that cannot be iterated
    throws. *)
Definition deliverables_of (v : option json) : M (list json * nat) :=
  match or_default v (JArr []) with
  | JArr items => ret (items, length items)
  | JStr s => ret (map JStr (code_points s), length s)
  | _ => throw TypeFault
  end.

(** Register deliverables if provided; the value is the [length] the
    answer reports. *)
Definition register_deliverables (body : json) (task : Task) : M nat :=
  listed <- read body "deliverables" ;;
  deliverables <- deliverables_of listed ;;
  for_each (register_deliverable task) (fst deliverables) ;;
  ret (snd deliverables).

(** Log the completion activity and event, and set the agent back to
    standby. *)
Definition log_completion (body : json) (task : Task)
    (assigned_agent_name : cell) : M unit :=
  summary <- read body "summary" ;;
  let summary := or_default summary (jtext "Task finished") in
  activityId <- fresh_uuid env ;;
  message <- bind_param rt (Some summary) ;;
  run_sql (insert_activity
    (mkActivity activityId (t_id task) (t_assigned_agent_id task)
       (lit "completed") message (now env))) ;;
  eventId <- fresh_uuid env ;;
  run_sql (insert_event
    (mkEvent eventId (lit "task_completed") (t_assigned_agent_id task)
       (Some (t_id task))
       (sql_text (display_cell assigned_agent_name ++ lit " completed: "
                  ++ display rt summary))
       (now env))) ;;
  match t_assigned_agent_id task with
  | Some (c :: r) => run_sql (update_agent_status (lit "standby") (now env) (c :: r))
  | _ => ret tt
  end.

(** The branch for a payload with a [task_id]. *)
Definition direct (body : json) (task_id : option json) : M Response :=
  key <- bind_param rt task_id ;;
  found <- query (fun st => match key with
                            | Some id => task_by_id id st
                            | None => None
                            end) ;;
  task <- or_reply found (mkResponse 404 (error_body "Task not found")) ;;
  assigned_agent_name <- query (assigned_agent_name task) ;;
  status <- read body "status" ;;
  let target := targetStatus status in
  let new := newStatus (t_status task) target in
  (if negb (str_eqb new (t_status task)) then
     run_sql (update_task_status new (now env) (t_id task))
   else ret tt) ;;
  registered <- register_deliverables body task ;;
  log_completion body task assigned_agent_name ;;
  ret (mkResponse 200
         (JObj [field "success" (JBool true);
                field "task_id" (JStr (t_id task));
                field "new_status" (JStr new);
                field "deliverables_registered" (num_of_nat registered);
                field "message" (JStr (lit "Task moved to " ++ new))])).

(** The branch for a payload with a [session_id] and a [message]. *)
Definition legacy (session_id message : option json) : M Response :=
  text <- match message with
          | Some (JStr m) => ret m
          | _ => throw TypeFault
          end ;;
  captured <- or_reply (completionMatch text)
    (mkResponse 400 (error_body
       "Invalid completion message format. Expected: TASK_COMPLETE: [summary]")) ;;
  let summary := trim captured in
  key <- bind_param rt session_id ;;
  found <- query (fun st => match key with
                            | Some k => active_session_by_key k st
                            | None => None
                            end) ;;
  session <- or_reply found
    (mkResponse 404 (error_body "Session not found or inactive")) ;;
  found <- query (active_task_of (s_agent_id session)) ;;
  task <- or_reply found
    (mkResponse 404 (error_body "No active task found for this agent")) ;;
  assigned_agent_name <- query (assigned_agent_name task) ;;
  (if negb (str_eqb (t_status task) (lit "testing"))
      && negb (str_eqb (t_status task) (lit "review"))
      && negb (str_eqb (t_status task) (lit "done"))
   then run_sql (update_task_status (lit "testing") (now env) (t_id task))
   else ret tt) ;;
  eventId <- fresh_uuid env ;;
  run_sql (insert_event
    (mkEvent eventId (lit "task_completed") (Some (s_agent_id session))
       (Some (t_id task))
       (sql_text (display_cell assigned_agent_name ++ lit " completed: " ++ summary))
       (now env))) ;;
  run_sql (update_agent_status (lit "standby") (now env) (s_agent_id session)) ;;
  ret (mkResponse 200
         (JObj [field "success" (JBool true);
                field "task_id" (JStr (t_id task));
                field "agent_id" (JStr (s_agent_id session));
                field "summary" (JStr summary);
                field "new_status" (jtext "testing");
                field "message" (jtext
                  "Task moved to testing for automated verification")])).

(** What follows the signature check: parse the raw body and branch on
    its shape. *)
Definition process (rawBody : jstring) : M Response :=
  body <- match JSON_parse rawBody with
          | Some b => ret b
          | None => throw SyntaxFault
          end ;;
  task_id <- read body "task_id" ;;
  if truthy_opt task_id then direct body task_id
  else
    session_id <- read body "session_id" ;;
    message <- (if truthy_opt session_id then read body "message" else ret None) ;;
    if truthy_opt session_id && truthy_opt message then legacy session_id message
    else
      reply (mkResponse 400 (error_body
        "Invalid payload. Provide either task_id or session_id + message")).

Definition POST_body (signature : cell) (rawBody : jstring) : M Response :=
  check_signature signature rawBody ;;
  process rawBody.

Definition POST (signature : cell) (rawBody : jstring) : world -> Response * world :=
  handle (fun _ => mkResponse 500 (error_body "Internal server error"))
    (POST_body signature rawBody).

End Route.

End Completion.

(* ================================================================== *)
(** * The extractor as the specification words it *)
(* ================================================================== *)

Module ExtractSpec.

(** The text in front of the first occurrence of [pat]. *)
Fixpoint before_first (pat s : jstring) : option jstring :=
  match strip_prefix pat s with
  | Some _ => Some []
  | None =>
      match s with
      | c :: s' => option_map (cons c) (before_first pat s')
      | [] => None
      end
  end.

(** The optional [json] tag after an opening fence. *)
Definition drop_tag (s : jstring) : jstring :=
  match strip_prefix (lit "json") s with
  | Some r => r
  | None => s
  end.

(** A fenced block that opens at the head of [s]: the text between the
    opening fence, its tag and the whitespace after it, and the next
    fence. *)
Definition block_at (s : jstring) : option jstring :=
  match strip_prefix fence s with
  | Some r => before_first fence (trim_start (drop_tag r))
  | None => None
  end.

(** The interior of the first fenced block of a text. *)
Fixpoint fenced_block (s : jstring) : option jstring :=
  match block_at s with
  | Some interior => Some interior
  | None =>
      match s with
      | _ :: s' => fenced_block s'
      | [] => None
      end
  end.

(** The part of [s] from the first [c] on. *)
Fixpoint from_first (c : N) (s : jstring) : option jstring :=
  match s with
  | [] => None
  | x :: s' => if N.eqb x c then Some s else from_first c s'
  end.

(** The part of [s] up to the last [c], inclusive. *)
Fixpoint upto_last (c : N) (s : jstring) : option jstring :=
  match s with
  | [] => None
  | x :: s' =>
      match upto_last c s' with
      | Some p => Some (x :: p)
      | None => if N.eqb x c then Some [x] else None
      end
  end.

(** The substring from the first opening brace to the last closing
    brace, inclusive. *)
Definition brace_span (text : jstring) : option jstring :=
  match from_first 123 text with
  | Some u => upto_last 125 u
  | None => None
  end.

(** The three strategies, in order. *)
Definition whole_text (text : jstring) : option json := JSON_parse (trim text).
Definition fenced_interior (text : jstring) : option json :=
  match fenced_block text with
  | Some interior => JSON_parse (trim interior)
  | None => None
  end.
Definition brace_to_brace (text : jstring) : option json :=
  match brace_span text with
  | Some candidate => JSON_parse candidate
  | None => None
  end.

(** The first strategy of a list that succeeds. *)
Fixpoint first_success (strategies : list (jstring -> option json))
    (text : jstring) : option json :=
  match strategies with
  | [] => None
  | f :: rest =>
      match f text with
      | Some v => Some v
      | None => first_success rest text
      end
  end.

(** The extractor of the specification; [JNull] is its none. *)
Definition extract (text : jstring) : json :=
  match first_success [whole_text; fenced_interior; brace_to_brace] text with
  | Some v => v
  | None => JNull
  end.

End ExtractSpec.

(* ================================================================== *)
(** * Vocabulary of the statements *)
(* ================================================================== *)

Module Statements.

Definition line_feed : jstring := [10%N].

(** A value that is neither an array nor an object. *)
Definition is_scalar (v : json) : bool :=
  match v with
  | JArr _ | JObj _ => false
  | _ => true
  end.

(** The statement that a text parsing to a scalar always gives that
    scalar and never the none value. *)
Definition scalar_never_none : Prop :=
  forall text v,
    JSON_parse (trim text) = Some v -> is_scalar v = true ->
    extractJSON text = v /\ extractJSON text <> JNull.

(** The signature check lets a request through: no secret is configured,
    or the header is present and equals the digest of the raw body. *)
Definition signature_ok (rt : Runtime) (env : Env) (signature : cell)
    (rawBody : jstring) : bool :=
  negb (cell_truthy (WEBHOOK_SECRET env))
  || (cell_truthy signature
      && Completion.verifyWebhookSignature rt env (display_cell signature) rawBody).

(** A computation leaves a property of the store in place, however it
    ends. *)
Definition store_stable {A} (J : store -> Prop) (m : M A) : Prop :=
  forall w, J (w_store w) -> J (w_store (snd (m w))).

(** The type of a payload entry as the handler takes it: the entry's
    [type] when that is a non-empty string, and file otherwise. *)
Definition entry_type (d : json) : jstring :=
  match prop d (lit "type") with
  | Fine (Some (JStr (c :: r))) => c :: r
  | _ => lit "file"
  end.

(** An optional text of an entry, [NULL] when absent or empty. *)
Definition entry_text (v : option json) : cell :=
  match v with
  | Some (JStr (c :: r)) => Some (c :: r)
  | _ => None
  end.

Definition text_or_absent (v : option json) : bool :=
  match v with
  | None | Some JNull | Some (JStr _) => true
  | _ => false
  end.

(** An entry as the payload's interface describes it: an object with
    a string [title], whose [type], [path] and [description] are each
    absent, null or a string. *)
Definition well_typed_entry (d : json) : bool :=
  match d with
  | JObj ms =>
      match last_member (lit "title") ms with
      | Some (JStr _) => true
      | _ => false
      end
      && text_or_absent (last_member (lit "type") ms)
      && text_or_absent (last_member (lit "path") ms)
      && text_or_absent (last_member (lit "description") ms)
  | _ => false
  end.

(** The row written for a well-typed entry, [n] identifiers having been
    drawn before: its texts as the database layer stores them. *)
Definition row_of (env : Env) (task : Task) (d : json) (n : nat) : Deliverable :=
  match d with
  | JObj ms =>
      mkDeliverable (uuid env n) (t_id task) (Some (sql_text (entry_type d)))
        (match last_member (lit "title") ms with
         | Some (JStr s) => Some (sql_text s)
         | _ => None
         end)
        (option_map sql_text (entry_text (last_member (lit "path") ms)))
        (option_map sql_text (entry_text (last_member (lit "description") ms)))
        (now env)
  | _ => mkDeliverable (uuid env n) (t_id task) (Some (sql_text (entry_type d)))
           None None None (now env)
  end.

Fixpoint rows_of (env : Env) (task : Task) (items : list json) (n : nat)
  : list Deliverable :=
  match items with
  | [] => []
  | d :: l => row_of env task d n :: rows_of env task l (S n)
  end.

(** The statement that a successful dispatch leaves alone the status
    of a task that is already past in_progress. *)
Definition dispatch_keeps_later_status : Prop :=
  forall rt env id w task,
    task_by_id id (w_store w) = Some task ->
    In (t_status task) [lit "testing"; lit "review"; lit "done"] ->
    status (fst (Dispatch.POST rt env id w)) = 200 ->
    exists task',
      task_by_id id (w_store (snd (Dispatch.POST rt env id w))) = Some task'
      /\ t_status task' = t_status task.

(** A session row after [deactivateSession] at time [now]. *)
Definition deactivated (now : jstring) (s : Session) : Session :=
  mkSession (s_id s) (s_agent_id s) (s_openclaw_session_id s) (s_channel s)
    (lit "inactive") (s_created_at s) now.

(** One round of the reply poll, and [n] rounds in a row. *)
Definition round (sessionKey : jstring) : list effect :=
  [Sleep Planning.poll_interval; ChatHistory sessionKey].

Definition rounds (sessionKey : jstring) (n : nat) : list effect :=
  concat (repeat (round sessionKey) n).

Definition is_poll_effect (e : effect) : bool :=
  match e with
  | Sleep _ | ChatHistory _ => true
  | _ => false
  end.

(** What the [n]-th transcript request shows of the assistant. *)
Definition seen (env : Env) (n : nat) : option (jstring * jstring) :=
  Planning.last_assistant
    (match history env n with
     | Some messages => Planning.assistant_messages messages
     | None => []
     end).

(** The order of the task statuses and the targets a direct payload may
    name, as the specification lists them. *)
Definition status_ordering : list jstring :=
  [lit "planning"; lit "inbox"; lit "assigned"; lit "in_progress";
   lit "testing"; lit "review"; lit "done"].

Definition direct_targets : list jstring :=
  [lit "testing"; lit "review"; lit "done"].

(** [target] stands strictly later than [current] in that order. *)
Definition strictly_later (current target : jstring) : Prop :=
  exists i j,
    nth_error status_ordering i = Some current
    /\ nth_error status_ordering j = Some target
    /\ i < j.

(** A task row after its status was written at time [now]. *)
Definition moved_to (status now : jstring) (t : Task) : Task :=
  mkTask (t_id t) (t_title t) (t_description t) status (t_priority t)
    (t_assigned_agent_id t) (t_workspace_id t) (t_due_date t)
    (t_planning_session_key t) (t_planning_messages t) now.

(** The agents a 409 answer lists. *)
Definition listed_orchestrators (r : Response) : list json :=
  match prop (body r) (lit "otherOrchestrators") with
  | Fine (Some (JArr listed)) => listed
  | _ => []
  end.

(** The statement that an orchestrator's dispatch is refused whenever
    another orchestrator that is not offline shares the workspace of the
    assigned agent. *)
Definition conflict_in_agents_workspace : Prop :=
  forall rt env id w task agent other,
    task_by_id id (w_store w) = Some task ->
    t_assigned_agent_id task = Some (a_id agent) -> a_id agent <> [] ->
    agent_by_id (a_id agent) (w_store w) = Some agent ->
    a_is_master agent = true ->
    In other (agents (w_store w)) ->
    a_is_master other = true -> a_id other <> a_id agent ->
    a_workspace_id other = a_workspace_id agent ->
    a_status other <> lit "offline" ->
    let r := Dispatch.POST rt env id w in
    status (fst r) = 409
    /\ In (Dispatch.orchestrator_json other) (listed_orchestrators (fst r))
    /\ snd r = w.

(** The statement that the type of a deliverable entry, when a
    non-empty string, is the type of the row stored for it, whatever
    the string. *)
Definition type_stored_verbatim : Prop :=
  forall rt env signature rawBody w members tid task items,
    signature_ok rt env signature rawBody = true ->
    JSON_parse rawBody = Some (JObj members) ->
    last_member (lit "task_id") members = Some (JStr tid) -> tid <> [] ->
    task_by_id (sql_text tid) (w_store w) = Some task ->
    last_member (lit "deliverables") members = Some (JArr items) ->
    forallb well_typed_entry items = true ->
    exists rows,
      deliverables (w_store (snd (Completion.POST rt env signature rawBody w)))
      = deliverables (w_store w) ++ rows
      /\ Forall2 (fun d row => d_type row = Some (entry_type d)) items rows.

End Statements.

(* ================================================================== *)
(** * Sample worlds *)
(* ================================================================== *)

Module Samples.

(** A runtime whose digest is a readable stand-in and whose database
    layer refuses every parameter that is neither a string nor null. *)
Definition rt0 : Runtime :=
  mkRuntime (fun key data => lit "hmac:" ++ key ++ lit ":" ++ data)
    (fun s => s) (fun _ => None) (fun _ => lit "?") (fun _ => lit "error")
    (fun t => lit "NEW TASK ASSIGNED: " ++ t_title t)
    (fun t => lit "PLANNING REQUEST: " ++ t_title t).

Definition clock : jstring := lit "2026-02-05T10:00:00.000Z".

(** No secret configured, gateway reachable, empty transcripts. *)
Definition env0 : Env :=
  mkEnv None clock (fun n => lit "uuid-" ++ decimal n) (fun n => 1000 + n)
    false true true true (fun _ => Some []).

(** The same with a secret configured. *)
Definition env_secret : Env :=
  mkEnv (Some (lit "s3cret")) clock (fun n => lit "uuid-" ++ decimal n)
    (fun n => 1000 + n) false true true true (fun _ => Some []).

Definition engineer : Agent :=
  mkAgent (lit "A") (lit "engineering") None false (lit "working")
    (lit "default") (lit "2026-02-01T00:00:00.000Z").
Definition charlie : Agent :=
  mkAgent (lit "M1") (lit "Charlie") (Some (lit "orchestrator")) true
    (lit "standby") (lit "default") (lit "2026-02-01T00:00:00.000Z").
Definition dana : Agent :=
  mkAgent (lit "M2") (lit "Dana") (Some (lit "orchestrator")) true
    (lit "standby") (lit "default") (lit "2026-02-01T00:00:00.000Z").
Definition erin : Agent :=
  mkAgent (lit "M3") (lit "Erin") (Some (lit "orchestrator")) true
    (lit "offline") (lit "default") (lit "2026-02-01T00:00:00.000Z").

Definition task_of (id status : string) (agent : string) (updated : string) : Task :=
  mkTask (lit id) (lit "Build auth") None (lit status) (lit "high")
    (Some (lit agent)) (lit "default") None None None (lit updated).

Definition engineer_session : Session :=
  mkSession (lit "S1") (lit "A") (Some (lit "mission-control-engineering"))
    (lit "mission-control") (lit "active") (lit "2026-02-01T00:00:00.000Z")
    (lit "2026-02-01T00:00:00.000Z").

(** A finished task of a linked agent. *)
Definition st_done : store :=
  mkStore [task_of "T1" "done" "A" "2026-02-02T00:00:00.000Z"]
    [engineer] [engineer_session] [] [] [].

(** Two tasks in flight for a linked agent, the second updated later. *)
Definition st_working : store :=
  mkStore [task_of "T1" "in_progress" "A" "2026-02-02T00:00:00.000Z";
           task_of "T2" "assigned" "A" "2026-02-03T00:00:00.000Z"]
    [engineer] [engineer_session] [] [] [].

(** A task of an orchestrator with two others in its workspace, one of
    them offline. *)
Definition st_orchestrators : store :=
  mkStore [task_of "T1" "assigned" "M1" "2026-02-02T00:00:00.000Z"]
    [charlie; dana; erin] [] [] [] [].

(** An agent without a session. *)
Definition st_unlinked : store :=
  mkStore [task_of "T1" "inbox" "A" "2026-02-02T00:00:00.000Z"]
    [engineer] [] [] [] [].

Definition world_of (st : store) : world := mkWorld st 0 [].

(** Raw bodies of completion requests. *)
Definition raw_review_after_done : jstring :=
  litq "{'task_id':'T1','status':'review','summary':'late retry'}".

Definition raw_with_deliverables : jstring :=
  litq "{'task_id':'T1','deliverables':[{'type':'file','title':'x.txt'},{'type':'banana','title':'y'},{'title':'z','type':''}]}".

Definition raw_legacy : jstring :=
  litq "{'session_id':'mission-control-engineering','message':'TASK_COMPLETE: Built the authentication system'}".

(** A deliverable whose type is the escape of a high surrogate alone. *)
Definition raw_lone_surrogate : jstring :=
  litq "{'task_id':'T1','deliverables':[{'type':'\ud83d','title':'x'}]}".

(** A task of the default workspace assigned to an orchestrator of
    another workspace, which holds a second orchestrator. *)
Definition finn : Agent :=
  mkAgent (lit "M4") (lit "Finn") (Some (lit "orchestrator")) true
    (lit "standby") (lit "ops") (lit "2026-02-01T00:00:00.000Z").
Definition gale : Agent :=
  mkAgent (lit "M5") (lit "Gale") (Some (lit "orchestrator")) true
    (lit "standby") (lit "ops") (lit "2026-02-01T00:00:00.000Z").

Definition st_elsewhere : store :=
  mkStore [task_of "T1" "assigned" "M4" "2026-02-02T00:00:00.000Z"]
    [finn; gale] [] [] [] [].

End Samples.

(* ================================================================== *)
(** * The read routes *)
(* ================================================================== *)

(** [GET /api/agents/[id]/openclaw] *)
Module OpenClawLinkGet.

Definition GET_body (id : jstring) : M Response :=
  found <- query (agent_by_id id) ;;
  or_reply found OpenClawLink.agent_not_found ;;
  session <- query (active_session_of id) ;;
  match session with
  | None =>
      ret (mkResponse 200
             (JObj [field "linked" (JBool false); field "session" JNull]))
  | Some s =>
      ret (mkResponse 200
             (JObj [field "linked" (JBool true); field "session" (session_json s)]))
  end.

Definition GET (id : jstring) : world -> Response * world :=
  handle (fun _ => mkResponse 500 (error_body "Failed to get OpenClaw session"))
    (GET_body id).

End OpenClawLinkGet.

(** [GET /api/tasks/[id]/planning] *)
Module PlanningGet.

(** The columns of a task row that the route reads and that the record
    [Task] does not carry; no handler modelled here writes them. *)
Record PlanningColumns := mkPlanningColumns {
  planning_complete : option Z;
  planning_spec : cell;
  planning_agents : cell }.

(** [[...messages].reverse().find(m => m.role === 'assistant')] on the
    stored messages. *)
Definition last_stored_assistant (messages : list PlanningMessage)
  : option PlanningMessage :=
  find (fun m => str_eqb (pm_role m) (lit "assistant")) (rev messages).

(** [column ? JSON.parse(column) : null] *)
Definition parse_column (column : cell) : M json :=
  match column with
  | Some (c :: r) =>
      match JSON_parse (c :: r) with
      | Some v => ret v
      | None => throw SyntaxFault
      end
  | _ => ret JNull
  end.

(** [parsed && 'question' in parsed ? parsed : null] on the content of
    the last assistant message. *)
Definition question_of (content : jstring) : M json :=
  let parsed := extractJSON content in
  if truthy parsed then
    match has_prop (lit "question") parsed with
    | Fine true => ret parsed
    | Fine false => ret JNull
    | TypeError => throw TypeFault
    end
  else ret JNull.

Section Route.

Variable env : Env.
Variable columns : Task -> PlanningColumns.

Definition GET_body (taskId : jstring) : M Response :=
  found <- query (task_by_id taskId) ;;
  task <- or_reply found (mkResponse 404 (error_body "Task not found")) ;;
  let messages :=
    match t_planning_messages task with Some l => l | None => [] end in
  let lastAssistantMessage :=
    option_map pm_content (last_stored_assistant messages) in
  synced <-
    match lastAssistantMessage, t_planning_session_key task, messages with
    | None, Some (c :: k), _ :: _ =>
        openclawMessages <-
          Planning.getMessagesFromOpenClaw env (isConnected env) (c :: k) 0 ;;
        match Planning.last_assistant openclawMessages with
        | Some newAssistant =>
            let messages' :=
              messages ++ [mkPlanningMessage (lit "assistant") (snd newAssistant)
                             (date_now env 0)] in
            run_sql (update_planning_messages messages' taskId) ;;
            ret (messages', Some (snd newAssistant))
        | None => ret (messages, None)
        end
    | _, _, _ => ret (messages, lastAssistantMessage)
    end ;;
  currentQuestion <-
    match snd synced with
    | Some content => question_of content
    | None => ret JNull
    end ;;
  spec <- parse_column (planning_spec (columns task)) ;;
  agents <- parse_column (planning_agents (columns task)) ;;
  ret (mkResponse 200
         (JObj [field "taskId" (JStr taskId);
                field "sessionKey" (cell_json (t_planning_session_key task));
                field "messages" (Planning.messages_json (fst synced));
                field "currentQuestion" currentQuestion;
                field "isComplete"
                  (JBool (match planning_complete (columns task) with
                          | Some z => negb (z =? 0)%Z
                          | None => false
                          end));
                field "spec" spec;
                field "agents" agents;
                field "isStarted"
                  (JBool (match fst synced with [] => false | _ :: _ => true end))])).

Definition GET (taskId : jstring) : world -> Response * world :=
  handle (fun _ => mkResponse 500 (error_body "Failed to get planning state"))
    (GET_body taskId).

End Route.

End PlanningGet.

(* ================================================================== *)
(** * Invariants and further vocabulary *)
(* ================================================================== *)

Module Invariants.

Import Statements.

(** The condition of the lookup [active_session_of]. *)
Definition is_active_session_of (agent_id : jstring) (s : Session) : bool :=
  str_eqb (s_agent_id s) agent_id && str_eqb (s_status s) (lit "active").

(** No agent has two active sessions. *)
Definition at_most_one_active (st : store) : Prop :=
  forall agent_id,
    length (filter (is_active_session_of agent_id) (sessions st)) <= 1.

(** [l'] is [l] with rows added at the end. *)
Definition extends {A} (l l' : list A) : Prop := exists more, l' = l ++ more.

(** The three logs only grow, and keep what they had. *)
Definition logs_extend (st st' : store) : Prop :=
  extends (events st) (events st')
  /\ extends (activities st) (activities st')
  /\ extends (deliverables st) (deliverables st').

(** A computation leaves a property of the world in place, however it
    ends. *)
Definition world_stable {A} (I : world -> Prop) (m : M A) : Prop :=
  forall w, I w -> I (snd (m w)).

Definition is_send (e : effect) : bool :=
  match e with ChatSend _ _ _ => true | _ => false end.

Definition is_gateway_call (e : effect) : bool :=
  match e with
  | Connect | ListSessions | ChatSend _ _ _ | ChatHistory _ => true
  | _ => false
  end.

(** A task whose dispatch passes the checks made before the gateway is
    contacted: it exists, its agent exists, and the agent is not an
    orchestrator with alternatives. *)
Definition dispatchable (id : jstring) (st : store) (task : Task) (agent : Agent)
  : Prop :=
  task_by_id id st = Some task
  /\ t_assigned_agent_id task = Some (a_id agent)
  /\ a_id agent <> []
  /\ agent_by_id (a_id agent) st = Some agent
  /\ (a_is_master agent = false
      \/ other_orchestrators (a_id agent) (t_workspace_id task) st = []).

(** The gateway is connected or accepts the connection. *)
Definition reachable (env : Env) : Prop :=
  isConnected env = true \/ connect_ok env = true.

(** The trace of making sure the gateway is connected. *)
Definition connecting (env : Env) : list effect :=
  if isConnected env then [] else [Connect].

(** Position of a status in the order of the completion webhook. *)
Definition rank (status : jstring) : Z := index_of status Completion.statusOrder.

(** What the body of a link request asks for, [requested] being its
    [openclaw_session_id] when that is a string: a body that is not JSON
    counts as the empty object, a body that is the JSON null is not
    covered (reading a property of it throws), and neither is a member
    that is truthy without being a string (its binding is the database
    layer's). *)
Definition link_request (text : jstring) (requested : option jstring) : Prop :=
  match JSON_parse text with
  | None => requested = None
  | Some JNull => False
  | Some (JObj members) =>
      match last_member (lit "openclaw_session_id") members with
      | None => requested = None
      | Some (JStr s) => requested = Some s
      | Some v => truthy v = false /\ requested = None
      end
  | Some _ => requested = None
  end.

(** [body.openclaw_session_id || `mission-control-${...}`] *)
Definition link_key (rt : Runtime) (agent : Agent) (requested : option jstring)
  : jstring :=
  match requested with
  | Some (c :: k) => c :: k
  | _ => derived_session_id rt (a_name agent)
  end.

(** A task whose planning has not started. *)
Definition plannable (taskId : jstring) (st : store) (task : Task) : Prop :=
  task_by_id taskId st = Some task
  /\ cell_truthy (t_planning_session_key task) = false.

(** Round [k] of the reply poll is the first to show an assistant
    message, and its text is [text]. *)
Definition first_reply (env : Env) (k : nat) (text : jstring) : Prop :=
  k < Planning.poll_attempts
  /\ (forall j, j < k -> seen env j = None)
  /\ seen env k = Some (lit "assistant", text).

(** The session key of a task's planning session. *)
Definition planning_key (taskId : jstring) : jstring :=
  Planning.PLANNING_SESSION_PREFIX ++ taskId.

(** The trace of a planning start up to the prompt. *)
Definition planning_prompt_sent (rt : Runtime) (env : Env) (taskId : jstring)
    (task : Task) : list effect :=
  connecting env
  ++ [ChatSend (planning_key taskId) (planningPrompt rt task)
        (lit "planning-start-" ++ taskId ++ lit "-" ++ decimal (date_now env 0))].

(** The messages stored once the reply [text] has arrived. *)
Definition planning_exchange (rt : Runtime) (env : Env) (task : Task)
    (text : jstring) : list PlanningMessage :=
  [mkPlanningMessage (lit "user") (planningPrompt rt task) (date_now env 1);
   mkPlanningMessage (lit "assistant") text (date_now env 2)].

(** [task.planning_messages ? JSON.parse(task.planning_messages) : []] *)
Definition stored_messages (task : Task) : list PlanningMessage :=
  match t_planning_messages task with Some l => l | None => [] end.

(** A task row kept as it is, or moved strictly forward in the status
    order with a new time of update. *)
Definition advanced (old new : Task) : Prop :=
  new = old
  \/ exists status now,
       new = mkTask (t_id old) (t_title old) (t_description old) status
               (t_priority old) (t_assigned_agent_id old) (t_workspace_id old)
               (t_due_date old) (t_planning_session_key old)
               (t_planning_messages old) now
       /\ (rank (t_status old) < rank status)%Z.

(** A direct payload as the dispatch message describes it: an object
    with a non-empty string [task_id], whose [deliverables] are absent
    or an array of well-typed entries and whose [summary] is absent,
    null or a string. *)
Definition direct_payload (raw : jstring) (members : list (jstring * json))
    (tid : jstring) (items : list json) : Prop :=
  JSON_parse raw = Some (JObj members)
  /\ last_member (lit "task_id") members = Some (JStr tid) /\ tid <> []
  /\ match last_member (lit "deliverables") members with
     | None => items = []
     | Some (JArr l) => items = l /\ forallb well_typed_entry l = true
     | Some _ => False
     end
  /\ text_or_absent (last_member (lit "summary") members) = true.

(** [body.summary || 'Task finished'] of such a payload. *)
Definition summary_of (members : list (jstring * json)) : jstring :=
  match last_member (lit "summary") members with
  | Some (JStr (c :: s)) => c :: s
  | _ => lit "Task finished"
  end.

(** The status a direct payload leaves a task of status [current] in. *)
Definition status_after (members : list (jstring * json)) (current : jstring)
  : jstring :=
  Completion.newStatus current
    (Completion.targetStatus (last_member (lit "status") members)).

(** What a deliverable row says, its identifier and time apart. *)
Definition row_content (d : Deliverable)
  : jstring * cell * cell * cell * cell :=
  (d_task_id d, d_type d, d_title d, d_path d, d_description d).

(** A legacy payload: an object without a truthy [task_id] whose
    [session_id] and [message] are non-empty strings. *)
Definition legacy_payload (raw : jstring) (members : list (jstring * json))
    (sid msg : jstring) : Prop :=
  JSON_parse raw = Some (JObj members)
  /\ truthy_opt (last_member (lit "task_id") members) = false
  /\ last_member (lit "session_id") members = Some (JStr sid) /\ sid <> []
  /\ last_member (lit "message") members = Some (JStr msg) /\ msg <> [].

End Invariants.

(* ================================================================== *)
(** * Further sample worlds *)
(* ================================================================== *)

Module Scenarios.

Import Samples Invariants.

(** The gateway refuses the connection. *)
Definition env_down : Env :=
  mkEnv None clock (fun n => lit "uuid-" ++ decimal n) (fun n => 1000 + n)
    false false true true (fun _ => Some []).

(** The gateway connects and then rejects what is sent. *)
Definition env_send_fails : Env :=
  mkEnv None clock (fun n => lit "uuid-" ++ decimal n) (fun n => 1000 + n)
    false true true false (fun _ => Some []).

(** A transcript entry of the assistant with one text block. *)
Definition said (text : jstring) : GwMessage :=
  mkGwMessage (lit "assistant") (Some [mkBlock (lit "text") (Some text)]).

(** The assistant's message shows from the third transcript request
    on. *)
Definition env_reply (text : jstring) : Env :=
  mkEnv None clock (fun n => lit "uuid-" ++ decimal n) (fun n => 1000 + n)
    false true true true
    (fun n => if n <? 2 then Some [] else Some [said text]).

(** The assistant's message shows at once. *)
Definition env_replied (text : jstring) : Env :=
  mkEnv None clock (fun n => lit "uuid-" ++ decimal n) (fun n => 1000 + n)
    true true true true (fun _ => Some [said text]).

Definition no_columns (t : Task) : PlanningGet.PlanningColumns :=
  PlanningGet.mkPlanningColumns None None None.

(** A task whose planning prompt is stored and unanswered. *)
Definition task_waiting : Task :=
  mkTask (lit "T1") (lit "Build auth") None (lit "planning") (lit "high")
    (Some (lit "A")) (lit "default") None
    (Some (lit "agent:main:planning:T1"))
    (Some [mkPlanningMessage (lit "user") (lit "PLANNING REQUEST: Build auth") 1001])
    (lit "2026-02-02T00:00:00.000Z").

Definition st_waiting : store :=
  mkStore [task_waiting] [engineer] [] [] [] [].

(** A task in progress of a linked agent. *)
Definition st_in_progress : store :=
  mkStore [task_of "T1" "in_progress" "A" "2026-02-02T00:00:00.000Z"]
    [engineer] [engineer_session] [] [] [].

(** The members of the sample payloads. *)
Definition members_review : list (jstring * json) :=
  [(lit "task_id", JStr (lit "T1")); (lit "status", JStr (lit "review"));
   (lit "summary", JStr (lit "late retry"))].

Definition items_listed : list json :=
  [JObj [(lit "type", JStr (lit "file")); (lit "title", JStr (lit "x.txt"))];
   JObj [(lit "type", JStr (lit "banana")); (lit "title", JStr (lit "y"))];
   JObj [(lit "title", JStr (lit "z")); (lit "type", JStr [])]].

Definition members_listed : list (jstring * json) :=
  [(lit "task_id", JStr (lit "T1")); (lit "deliverables", JArr items_listed)].

Definition members_legacy : list (jstring * json) :=
  [(lit "session_id", JStr (lit "mission-control-engineering"));
   (lit "message", JStr (lit "TASK_COMPLETE: Built the authentication system"))].

(** A linked agent beside an orchestrator that has no session. *)
Definition st_team : store :=
  mkStore [task_of "T1" "in_progress" "A" "2026-02-02T00:00:00.000Z"]
    [engineer; charlie] [engineer_session] [] [] [].

End Scenarios.

(* ================================================================== *)
(** * Link requests that overlap *)
(* ================================================================== *)

Module Interleaving.

(** The next stretch of a request in flight, unless the request has
    answered or failed already. *)
Definition resume {A B} (o : outcome A) (k : A -> M B) : M B :=
  match o with
  | Ret a => k a
  | Reply r => reply r
  | Throw f => throw f
  end.

(** The answer of a link request whose last stretch ended in [o]. *)
Definition link_answer (o : outcome Response) : Response :=
  match o with
  | Ret r | Reply r => r
  | Throw _ => mkResponse 500 (error_body "Internal server error")
  end.

Section Link.

Variable rt : Runtime.

(** A link request served with no other request in between: its three
    stretches in a row. *)
Definition POST_alone (env : Env) (id text : jstring) (w : world)
  : Response * world :=
  let (a1, w1) := OpenClawLink.POST_check id w in
  let (a2, w2) :=
    resume a1 (fun agent => OpenClawLink.POST_gateway env ;; ret agent) w1 in
  let (a3, w3) := resume a2 (OpenClawLink.POST_store rt env id text) w2 in
  (link_answer a3, w3).

(** Two link requests for the same agent, the second arriving while the
    first waits for the gateway: each runs its check before either runs
    its INSERTs.  [envA] and [envB] are what each request sees of the
    clock and the gateway. *)
Definition POST_overlapping (envA envB : Env) (id textA textB : jstring)
    (w : world) : Response * Response * world :=
  let (a1, w1) := OpenClawLink.POST_check id w in
  let (b1, w2) := OpenClawLink.POST_check id w1 in
  let (a2, w3) :=
    resume a1 (fun agent => OpenClawLink.POST_gateway envA ;; ret agent) w2 in
  let (b2, w4) :=
    resume b1 (fun agent => OpenClawLink.POST_gateway envB ;; ret agent) w3 in
  let (a3, w5) := resume a2 (OpenClawLink.POST_store rt envA id textA) w4 in
  let (b3, w6) := resume b2 (OpenClawLink.POST_store rt envB id textB) w5 in
  (link_answer a3, link_answer b3, w6).

End Link.

End Interleaving.

(* ================================================================== *)
(** * Facts about the primitives *)
(* ================================================================== *)

Module Facts.

Lemma str_eqb_eq (a b : jstring) : str_eqb a b = true <-> a = b.
Proof.
  revert b; induction a as [|x a IH]; intros [|y b]; simpl; split;
    try congruence; try reflexivity.
  - intros H. apply andb_true_iff in H as [H1 H2].
    apply N.eqb_eq in H1. apply IH in H2. congruence.
  - intros H. injection H as -> ->. rewrite N.eqb_refl. simpl. now apply IH.
Qed.

Lemma str_eqb_refl (a : jstring) : str_eqb a a = true.
Proof. now apply str_eqb_eq. Qed.

Lemma str_eqb_neq (a b : jstring) : str_eqb a b = false <-> a <> b.
Proof.
  split.
  - intros H E. apply str_eqb_eq in E. congruence.
  - intros H. destruct (str_eqb a b) eqn:E; [|reflexivity].
    apply str_eqb_eq in E. contradiction.
Qed.

(** ** The parser reads forward and stays within its budget *)

Lemma skip_ws_length (s : jstring) : length (skip_ws s) <= length s.
Proof.
  induction s as [|c s IH]; simpl; [lia|].
  destruct (is_json_ws c); simpl; lia.
Qed.

Lemma strip_prefix_length (p s r : jstring) :
  strip_prefix p s = Some r -> length s = length p + length r.
Proof.
  revert s; induction p as [|x p IH]; intros s; simpl.
  - intros [= ->]. reflexivity.
  - destruct s as [|y s]; [discriminate|].
    destruct (N.eqb x y); [|discriminate].
    intros H. apply IH in H. simpl. lia.
Qed.

Lemma digits_length (s : jstring) (acc : N) (count : nat) m k r :
  digits s acc count = (m, k, r) ->
  length r + k = length s + count /\ count <= k.
Proof.
  revert acc count; induction s as [|c s IH]; intros acc count; simpl.
  - intros [= <- <- <-]. split; reflexivity.
  - destruct (is_digit c).
    + intros H. apply IH in H. lia.
    + intros [= <- <- <-]. simpl. lia.
Qed.

Lemma parse_chars_length (n : nat) :
  forall s acc x r, length s <= n ->
    parse_chars s acc = Some (x, r) -> length r < length s.
Proof.
  induction n as [|n IH]; intros s acc x r Hn.
  - destruct s; [discriminate | simpl in Hn; lia].
  - destruct s as [|c s]; [discriminate|]. simpl in Hn. simpl.
    destruct (c =? 34)%N.
    { intros [= <- <-]. lia. }
    destruct (c =? 92)%N.
    { destruct s as [|e s]; [discriminate|]. simpl in Hn.
      destruct (e =? 117)%N.
      - destruct s as [|h1 [|h2 [|h3 [|h4 s]]]]; try discriminate.
        destruct (hex4 h1 h2 h3 h4); [|discriminate].
        intros H. apply IH in H; simpl in *; lia.
      - destruct (escape e); [|discriminate].
        intros H. apply IH in H; simpl in *; lia. }
    destruct (c <? 32)%N; [discriminate|].
    intros H. apply IH in H; simpl in *; lia.
Qed.

Lemma keyword_length tail v r w r' :
  keyword tail v r = POk w r' -> length r' <= length r.
Proof.
  unfold keyword. destruct (strip_prefix (lit tail) r) eqn:E; [|discriminate].
  intros [= <- <-]. apply strip_prefix_length in E. lia.
Qed.

Lemma keyword_fuel tail v r : keyword tail v r <> PFuel.
Proof. unfold keyword. destruct (strip_prefix (lit tail) r); discriminate. Qed.

Ltac break_match :=
  match goal with
  | |- context [match ?x with _ => _ end] => destruct x eqn:?
  | H : context [match ?x with _ => _ end] |- _ => destruct x eqn:?
  end.

Lemma digits_head (c : N) (s : jstring) (acc : N) (count : nat) m k r :
  negb (is_digit c) = false ->
  digits (c :: s) acc count = (m, k, r) -> count < k.
Proof.
  intros Hc. apply negb_false_iff in Hc. simpl. rewrite Hc.
  intros H. apply digits_length in H. lia.
Qed.

Lemma parse_number_length (s : jstring) v r :
  parse_number s = POk v r -> length r < length s.
Proof.
  unfold parse_number.
  repeat (break_match; try discriminate); intros;
    repeat match goal with
    | H : POk _ _ = POk _ _ |- _ => injection H; clear H; intros; subst
    | H : Some _ = Some _ |- _ => injection H; clear H; intros; subst
    | H : (_, _) = (_, _) |- _ => injection H; clear H; intros; subst
    end;
    repeat match goal with
    | H : digits (?c :: ?s) ?a ?n = (_, ?k, _),
      H1 : negb (is_digit ?c) = false |- _ =>
        lazymatch goal with
        | _ : n < k |- _ => fail
        | _ => pose proof (digits_head c s a n H1 H)
        end
    end;
    repeat match goal with
    | H : digits _ _ _ = _ |- _ => apply digits_length in H
    end; simpl in *; lia.
Qed.

Lemma parse_number_fuel (s : jstring) : parse_number s <> PFuel.
Proof.
  unfold parse_number.
  repeat (break_match; try discriminate).
Qed.

Lemma parse_consumes (fuel : nat) :
  (forall s v r, parse_value fuel s = POk v r -> length r < length s) /\
  (forall s acc v r, parse_elems fuel s acc = POk v r -> length r < length s) /\
  (forall s acc v r, parse_members fuel s acc = POk v r -> length r < length s).
Proof.
  induction fuel as [|f (IHv & IHe & IHm)].
  - repeat split; simpl; discriminate.
  - repeat split.
    + intros s v r. simpl.
      destruct s as [|c s]; [discriminate|].
      repeat (break_match; try discriminate); intros H;
        try (injection H as <- <-);
        repeat match goal with
        | E : keyword _ _ _ = POk _ _ |- _ => apply keyword_length in E
        | E : parse_chars _ _ = Some _ |- _ =>
            apply (parse_chars_length (n := length s)) in E; [|lia]
        | E : parse_number _ = POk _ _ |- _ => apply parse_number_length in E
        | E : parse_elems f _ _ = POk _ _ |- _ => apply IHe in E
        | E : parse_members f _ _ = POk _ _ |- _ => apply IHm in E
        end;
        try (pose proof (skip_ws_length s);
             repeat match goal with
             | E : skip_ws s = _ |- _ => rewrite E in *
             end);
        simpl in *; try lia.
      all: try (apply keyword_length in H; simpl in *; lia).
      all: try (apply parse_number_length in H; simpl in *; lia).
      all: try (apply IHe in H; simpl in *; lia).
      all: try (apply IHm in H; simpl in *; lia).
    + intros s acc v r. simpl.
      destruct (parse_value f s) as [w r1| |] eqn:E; try discriminate.
      apply IHv in E. pose proof (skip_ws_length r1) as L1.
      destruct (skip_ws r1) as [|c r2] eqn:E1; [discriminate|]. simpl in L1.
      destruct (c =? 44)%N.
      * intros H. apply IHe in H. pose proof (skip_ws_length r2). lia.
      * destruct (c =? 93)%N; [|discriminate]. intros [= <- <-]. lia.
    + intros s acc v r. simpl.
      destruct s as [|c s]; [discriminate|].
      destruct (negb (c =? 34)%N); [discriminate|].
      destruct (parse_chars s []) as [[key r1]|] eqn:E; [|discriminate].
      apply (parse_chars_length (n := length s)) in E; [|lia].
      pose proof (skip_ws_length r1) as L1.
      destruct (skip_ws r1) as [|c2 r2] eqn:E1; [discriminate|]. simpl in L1.
      destruct (negb (c2 =? 58)%N); [discriminate|].
      destruct (parse_value f (skip_ws r2)) as [w r3| |] eqn:E2; try discriminate.
      apply IHv in E2. pose proof (skip_ws_length r2) as L2.
      pose proof (skip_ws_length r3) as L3.
      destruct (skip_ws r3) as [|c3 r4] eqn:E3; [discriminate|]. simpl in L3.
      destruct (c3 =? 44)%N.
      * intros H. apply IHm in H. pose proof (skip_ws_length r4). simpl. lia.
      * destruct (c3 =? 125)%N; [|discriminate]. intros [= <- <-]. simpl. lia.
Qed.

Lemma parse_within_budget (fuel : nat) :
  (forall s, 2 * length s + 1 <= fuel -> parse_value fuel s <> PFuel) /\
  (forall s acc, 2 * length s + 2 <= fuel -> parse_elems fuel s acc <> PFuel) /\
  (forall s acc, 2 * length s + 1 <= fuel -> parse_members fuel s acc <> PFuel).
Proof.
  induction fuel as [|f (IHv & IHe & IHm)].
  - repeat split; intros; lia.
  - destruct (parse_consumes f) as (Cv & _ & _).
    repeat split.
    + intros s Hf. simpl.
      destruct s as [|c s]; [discriminate|]. simpl in Hf.
      pose proof (skip_ws_length s) as L.
      repeat (break_match; try discriminate);
        try apply keyword_fuel; try apply parse_number_fuel;
        try (apply IHe; simpl in *; lia); try (apply IHm; simpl in *; lia).
    + intros s acc Hf. simpl.
      destruct (parse_value f s) as [w r1| |] eqn:E; try discriminate.
      * apply Cv in E. pose proof (skip_ws_length r1) as L1.
        destruct (skip_ws r1) as [|c r2] eqn:E1; [discriminate|]. simpl in L1.
        destruct (c =? 44)%N.
        -- apply IHe. pose proof (skip_ws_length r2). lia.
        -- destruct (c =? 93)%N; discriminate.
      * exfalso. revert E. apply IHv. lia.
    + intros s acc Hf. simpl.
      destruct s as [|c s]; [discriminate|]. simpl in Hf.
      destruct (negb (c =? 34)%N); [discriminate|].
      destruct (parse_chars s []) as [[key r1]|] eqn:E; [|discriminate].
      apply (parse_chars_length (n := length s)) in E; [|lia].
      pose proof (skip_ws_length r1) as L1.
      destruct (skip_ws r1) as [|c2 r2] eqn:E1; [discriminate|]. simpl in L1.
      destruct (negb (c2 =? 58)%N); [discriminate|].
      pose proof (skip_ws_length r2) as L2.
      destruct (parse_value f (skip_ws r2)) as [w r3| |] eqn:E2; try discriminate.
      * apply Cv in E2. pose proof (skip_ws_length r3) as L3.
        destruct (skip_ws r3) as [|c3 r4] eqn:E3; [discriminate|]. simpl in L3.
        destruct (c3 =? 44)%N.
        -- apply IHm. pose proof (skip_ws_length r4). lia.
        -- destruct (c3 =? 125)%N; discriminate.
      * exfalso. revert E2. apply IHv. lia.
Qed.

(** [JSON_parse] never runs out of budget: [None] is a syntax error. *)
Lemma parse_value_budget (s : jstring) : parse_value (budget s) s <> PFuel.
Proof.
  apply (proj1 (parse_within_budget (budget s))). unfold budget. lia.
Qed.

Lemma JSON_parse_None (text : jstring) :
  JSON_parse text = None ->
  let s := skip_ws text in
  parse_value (budget s) s = PSyntax
  \/ exists v r c r', parse_value (budget s) s = POk v r /\ skip_ws r = c :: r'.
Proof.
  intros H s. unfold JSON_parse in H.
  pose proof (parse_value_budget (skip_ws text)) as B. fold s in B, H.
  destruct (parse_value (budget s) s) as [v r| |] eqn:E.
  - right. destruct (skip_ws r) as [|c r'] eqn:E'; [discriminate|].
    now exists v, r, c, r'.
  - now left.
  - contradiction.
Qed.

(** ** The code-block pattern finds the first fenced block *)

Import ExtractSpec.

Lemma fence_units : fence = [96%N; 96%N; 96%N].
Proof. reflexivity. Qed.

Lemma lit_match_exact (p s : jstring) : lit_match false p s = strip_prefix p s.
Proof.
  revert s; induction p as [|x p IH]; intros [|y s]; simpl; auto.
Qed.

Lemma is_space_not_backquote (c : N) : is_space c = true -> c <> 96%N.
Proof. intros H ->. vm_compute in H. discriminate. Qed.

Lemma before_first_fence_cons (c : N) (s : jstring) :
  c <> 96%N -> before_first fence s = None -> before_first fence (c :: s) = None.
Proof.
  intros Hc Hs. rewrite fence_units in *. cbn [before_first strip_prefix].
  destruct (N.eqb_spec 96 c) as [E|_]; [congruence|].
  rewrite Hs. reflexivity.
Qed.

Lemma before_first_fence_app (pre s : jstring) :
  Forall (fun c => c <> 96%N) pre ->
  before_first fence s = None -> before_first fence (pre ++ s) = None.
Proof.
  induction 1 as [|c pre Hc _ IH]; intros Hs; simpl; [assumption|].
  apply before_first_fence_cons; auto.
Qed.

Lemma before_first_fence_trim (s : jstring) :
  before_first fence (trim_start s) = None -> before_first fence s = None.
Proof.
  induction s as [|c s IH]; simpl; [auto|].
  destruct (is_space c) eqn:E; [|auto].
  intros H. apply before_first_fence_cons; auto using is_space_not_backquote.
Qed.

Lemma before_first_tail (pat : jstring) (c : N) (s : jstring) :
  before_first pat (c :: s) = None -> before_first pat s = None.
Proof.
  cbn [before_first]. destruct (strip_prefix pat (c :: s)); [discriminate|].
  destruct (before_first pat s); [discriminate|reflexivity].
Qed.

Lemma before_first_trimmed (pat s : jstring) :
  before_first pat s = None -> before_first pat (trim_start s) = None.
Proof.
  induction s as [|c s IH]; [auto|]. intros H. simpl.
  destruct (is_space c); [|assumption].
  apply IH. eapply before_first_tail; eassumption.
Qed.

(** Giving whitespace back never rescues a continuation that fails
    once all of it is taken. *)
Lemma star_space_commit (A : Type) (k : jstring -> option A) (s : jstring) :
  (forall c y, is_space c = true -> k y = None -> k (c :: y) = None) ->
  star is_space s k = k (trim_start s).
Proof.
  intros Hk. induction s as [|c s IH]; simpl; [reflexivity|].
  destruct (is_space c) eqn:E; [|reflexivity].
  rewrite IH. destruct (k (trim_start s)) eqn:Ek; [reflexivity|].
  apply Hk; [assumption|].
  clear IH. induction s as [|d s IH]; simpl in *; [assumption|].
  destruct (is_space d) eqn:Ed; auto.
Qed.

Lemma lazy_star_ext (A : Type) (p : N -> bool) (k k' : jstring -> option A)
    (s : jstring) :
  (forall x, k x = k' x) -> lazy_star p s k = lazy_star p s k'.
Proof.
  intros H. induction s as [|c s IH]; simpl; rewrite H; [reflexivity|].
  now rewrite IH.
Qed.

(** The lazy capture in front of the closing fence. *)
Lemma lazy_capture (pre s : jstring) :
  lazy_star any s
    (fun s3 =>
       match strip_prefix fence s3 with
       | Some _ => Some [firstn (length (pre ++ s) - length s3) (pre ++ s)]
       | None => None
       end)
  = option_map (fun i => [pre ++ i]) (before_first fence s).
Proof.
  revert pre; induction s as [|c s IH]; intros pre.
  - rewrite fence_units. reflexivity.
  - cbn [lazy_star before_first].
    destruct (strip_prefix fence (c :: s)) eqn:E.
    + simpl option_map. rewrite app_nil_r. do 2 f_equal.
      rewrite length_app, Nat.add_sub.
      rewrite firstn_app, Nat.sub_diag, firstn_all. simpl. now rewrite app_nil_r.
    + unfold any at 1.
      specialize (IH (pre ++ [c])). rewrite <- app_assoc in IH. cbn [app] in IH.
      rewrite IH. destruct (before_first fence s); simpl; [|reflexivity].
      now rewrite <- app_assoc.
Qed.

Lemma run_codeBlockRe (s : jstring) :
  run false codeBlockRe s [] (fun _ caps => Some caps)
  = option_map (fun i => [i]) (block_at s).
Proof.
  unfold codeBlockRe, block_at. cbn [run]. rewrite lit_match_exact.
  destruct (strip_prefix fence s) as [r|]; [|reflexivity].
  set (K := fun s2 : jstring =>
     lazy_star any s2
       (fun s' => match lit_match false fence s' with
                  | Some s'0 => Some ([] ++ [firstn (length s2 - length s') s2])
                  | None => None
                  end)).
  assert (HK : forall s2, K s2 = option_map (fun i => [i]) (before_first fence s2)).
  { intros s2. unfold K.
    pose proof (lazy_capture [] s2) as L. cbn [app] in L.
    etransitivity; [|exact L].
    apply lazy_star_ext. intros x. now rewrite lit_match_exact. }
  assert (Hstar : forall x, star is_space x K
                            = option_map (fun i => [i]) (before_first fence (trim_start x))).
  { intros x. rewrite star_space_commit; [apply HK|].
    intros c y Hc. rewrite !HK.
    destruct (before_first fence y) eqn:Ey; [discriminate|]. intros _.
    rewrite before_first_fence_cons; auto using is_space_not_backquote. }
  change (match
      match lit_match false (lit "json") r with
      | Some s' => star is_space s' K
      | None => None
      end
    with
    | Some a => Some a
    | None => star is_space r K
    end = option_map (fun i => [i]) (before_first fence (trim_start (drop_tag r)))).
  rewrite lit_match_exact. unfold drop_tag.
  destruct (strip_prefix (lit "json") r) as [r'|] eqn:E; [|apply Hstar].
  rewrite !Hstar.
  destruct (before_first fence (trim_start r')) eqn:E'; [reflexivity|].
  simpl. apply before_first_fence_trim in E'.
  assert (Hr : r = lit "json" ++ r').
  { clear -E. revert E. generalize (lit "json"). intros p; revert r.
    induction p as [|x p IH]; intros [|y r]; simpl; try discriminate.
    - now intros [= ->].
    - now intros [= ->].
    - destruct (N.eqb_spec x y); [|discriminate]. subst.
      intros H. f_equal. auto. }
  rewrite before_first_trimmed; [reflexivity|]. rewrite Hr.
  apply before_first_fence_app; [|assumption].
  repeat constructor; discriminate.
Qed.

Lemma exec_codeBlockRe (s : jstring) :
  exec false codeBlockRe s = option_map (fun i => [i]) (fenced_block s).
Proof.
  induction s as [|c s IH]; cbn [exec fenced_block]; rewrite run_codeBlockRe.
  - destruct (block_at []); reflexivity.
  - destruct (block_at (c :: s)); [reflexivity|]. exact IH.
Qed.

(** The pattern of the source and the scan of the specification find
    the same interior. *)
Lemma codeBlockMatch_fenced_block (text : jstring) :
  codeBlockMatch text = fenced_block text.
Proof.
  unfold codeBlockMatch. rewrite exec_codeBlockRe.
  destruct (fenced_block text); reflexivity.
Qed.

(** ** The brace slice is the span from the first [{] to the last [}] *)

Lemma indexOf_from_first (c : N) (s : jstring) :
  match from_first c s with
  | None => indexOf c s = (-1)%Z
  | Some u => exists pre u', s = pre ++ u /\ u = c :: u'
                             /\ indexOf c s = Z.of_nat (length pre)
  end.
Proof.
  induction s as [|x s IH]; simpl; [reflexivity|].
  destruct (N.eqb_spec x c) as [->|Hx].
  - exists [], s. now repeat split.
  - destruct (from_first c s) as [u|].
    + destruct IH as (pre & u' & -> & -> & E). rewrite E.
      exists (x :: pre), u'. repeat split.
      destruct (Z.of_nat (length pre)) eqn:Z0; simpl length; lia.
    + now rewrite IH.
Qed.

Lemma lastIndexOf_range (c : N) (s : jstring) :
  (-1 <= lastIndexOf c s < Z.of_nat (length s))%Z.
Proof.
  induction s as [|x s IH]; simpl length; simpl lastIndexOf; [lia|].
  destruct (lastIndexOf c s) eqn:E; try lia.
  destruct (N.eqb x c); lia.
Qed.

Lemma lastIndexOf_app (c : N) (pre u : jstring) :
  lastIndexOf c (pre ++ u)
  = if (0 <=? lastIndexOf c u)%Z
    then (Z.of_nat (length pre) + lastIndexOf c u)%Z
    else lastIndexOf c pre.
Proof.
  induction pre as [|x pre IH]; simpl app; simpl length.
  - pose proof (lastIndexOf_range c u).
    destruct (Z.leb_spec 0 (lastIndexOf c u)); simpl; lia.
  - cbn [lastIndexOf]. rewrite IH. clear IH.
    pose proof (lastIndexOf_range c u). pose proof (lastIndexOf_range c pre).
    destruct (Z.leb_spec 0 (lastIndexOf c u)).
    + destruct (Z.of_nat (length pre) + lastIndexOf c u)%Z eqn:E; lia.
    + reflexivity.
Qed.

Lemma lastIndexOf_upto_last (c : N) (u : jstring) :
  match upto_last c u with
  | None => lastIndexOf c u = (-1)%Z
  | Some p => exists post, u = p ++ post
                           /\ lastIndexOf c u = (Z.of_nat (length p) - 1)%Z
                           /\ p <> []
  end.
Proof.
  induction u as [|x u IH]; simpl; [reflexivity|].
  destruct (upto_last c u) as [p|].
  - destruct IH as (post & -> & E & Hp). exists post. rewrite E.
    repeat split; [|discriminate].
    destruct p; [contradiction|]. simpl length in *.
    destruct (Z.of_nat (S (length p)) - 1)%Z eqn:Z0; lia.
  - rewrite IH. destruct (N.eqb x c); [|reflexivity].
    exists u. repeat split. discriminate.
Qed.

Lemma slice_middle (pre p post : jstring) :
  slice (pre ++ p ++ post) (Z.of_nat (length pre))
    (Z.of_nat (length pre) + Z.of_nat (length p)) = p.
Proof.
  unfold slice. rewrite !length_app.
  destruct (Z.ltb_spec (Z.of_nat (length pre)) 0); [lia|].
  destruct (Z.ltb_spec (Z.of_nat (length pre) + Z.of_nat (length p)) 0); [lia|].
  rewrite !Z.min_l by lia.
  replace (Z.to_nat _) with (length p) by lia.
  rewrite Nat2Z.id.
  rewrite skipn_app, skipn_all, Nat.sub_diag. simpl.
  rewrite firstn_app, Nat.sub_diag, firstn_all. simpl. apply app_nil_r.
Qed.

Lemma braceSlice_brace_span (text : jstring) :
  braceSlice text = brace_span text.
Proof.
  unfold braceSlice, brace_span.
  pose proof (indexOf_from_first 123 text) as F.
  destruct (from_first 123 text) as [u|].
  - destruct F as (pre & u' & -> & -> & Ei). rewrite Ei.
    rewrite lastIndexOf_app.
    pose proof (lastIndexOf_upto_last 125 (123%N :: u')) as L.
    pose proof (lastIndexOf_range 125 pre) as Rp.
    destruct (upto_last 125 (123%N :: u')) as [p|] eqn:Eu.
    + destruct L as (post & Hu & El & Hp). rewrite El.
      assert (2 <= length p) as Hlen.
      { cbn [upto_last] in Eu.
        destruct (upto_last 125 u') as [p'|] eqn:Eu'; [|discriminate].
        injection Eu as <-.
        pose proof (lastIndexOf_upto_last 125 u') as L'. rewrite Eu' in L'.
        destruct L' as (_ & _ & _ & Hp'). destruct p'; [contradiction|].
        simpl. lia. }
      destruct (Z.leb_spec 0 (Z.of_nat (length p) - 1)); [|lia].
      destruct (Z.eqb_spec (Z.of_nat (length pre)) (-1)); [lia|].
      destruct (Z.gtb_spec (Z.of_nat (length pre) + (Z.of_nat (length p) - 1))
                  (Z.of_nat (length pre))); [|lia].
      simpl. f_equal. rewrite Hu.
      replace (Z.of_nat (length pre) + (Z.of_nat (length p) - 1) + 1)%Z
        with (Z.of_nat (length pre) + Z.of_nat (length p))%Z by lia.
      apply slice_middle.
    + rewrite L. change (0 <=? -1)%Z with false. cbv iota.
      destruct (Z.gtb_spec (lastIndexOf 125 pre) (Z.of_nat (length pre))); [lia|].
      now rewrite andb_false_r.
  - rewrite F. reflexivity.
Qed.

(** ** Texts as the database layer stores them *)

Lemma sql_text_nil_iff (s : jstring) : sql_text s = [] <-> s = [].
Proof.
  split; [|intros ->; reflexivity].
  destruct s as [|c [|d s]]; [reflexivity| |]; simpl.
  - destruct (is_high_surrogate c); [discriminate|].
    destruct (is_low_surrogate c); discriminate.
  - destruct (is_high_surrogate c).
    + destruct (is_low_surrogate d); discriminate.
    + destruct (is_low_surrogate c); discriminate.
Qed.

Lemma sql_text_cons (c : N) (s : jstring) :
  sql_text (c :: s)
  = if is_high_surrogate c then
      match s with
      | d :: s' =>
          if is_low_surrogate d then c :: d :: sql_text s'
          else 65533%N :: sql_text s
      | [] => [65533%N]
      end
    else if is_low_surrogate c then 65533%N :: sql_text s
    else c :: sql_text s.
Proof. reflexivity. Qed.

Lemma well_formed_cons (c : N) (s : jstring) :
  well_formed (c :: s)
  = if is_high_surrogate c then
      match s with
      | d :: s' => is_low_surrogate d && well_formed s'
      | [] => false
      end
    else negb (is_low_surrogate c) && well_formed s.
Proof. reflexivity. Qed.

Lemma sql_text_well_formed (s : jstring) :
  well_formed s = true -> sql_text s = s.
Proof.
  assert (H : forall n s, length s <= n -> well_formed s = true -> sql_text s = s).
  { clear s. induction n as [|n IH]; intros s Hn.
    - destruct s; [reflexivity|simpl in Hn; lia].
    - destruct s as [|c s]; [reflexivity|].
      rewrite sql_text_cons, well_formed_cons. simpl in Hn.
      destruct (is_high_surrogate c).
      + destruct s as [|d s]; [discriminate|]. simpl in Hn.
        destruct (is_low_surrogate d); [|discriminate].
        cbn [andb]. intros Hw. rewrite (IH s) by (assumption || lia).
        reflexivity.
      + destruct (is_low_surrogate c); [discriminate|].
        cbn [andb negb]. intros Hw. rewrite (IH s) by (assumption || lia).
        reflexivity. }
  apply (H (length s)). lia.
Qed.

Lemma sql_text_length (s : jstring) : length (sql_text s) = length s.
Proof.
  assert (H : forall n s, length s <= n -> length (sql_text s) = length s).
  { clear s. induction n as [|n IH]; intros s Hn.
    - destruct s; [reflexivity|simpl in Hn; lia].
    - destruct s as [|c s]; [reflexivity|].
      rewrite sql_text_cons. simpl in Hn.
      assert (Hs : length (sql_text s) = length s) by (apply IH; lia).
      destruct (is_high_surrogate c).
      + destruct s as [|d s]; [reflexivity|]. simpl in Hn.
        destruct (is_low_surrogate d); cbn [length].
        * rewrite (IH s) by lia. reflexivity.
        * rewrite Hs. reflexivity.
      + destruct (is_low_surrogate c); cbn [length]; rewrite Hs; reflexivity. }
  apply (H (length s)). lia.
Qed.

End Facts.

(* ================================================================== *)
(** * Properties of the extractor *)
(* ================================================================== *)

Module ExtractorProps.

Import Facts ExtractSpec Statements.

(** The source's extractor is the specification's. *)
Lemma extractJSON_extract (text : jstring) : extractJSON text = extract text.
Proof.
  unfold extractJSON, extract, first_success, whole_text, fenced_interior,
    brace_to_brace.
  rewrite codeBlockMatch_fenced_block, braceSlice_brace_span.
  destruct (JSON_parse (trim text)); [reflexivity|].
  destruct (fenced_block text) as [i|].
  - destruct (JSON_parse (trim i)); [reflexivity|].
    destruct (brace_span text) as [c|]; [|reflexivity].
    destruct (JSON_parse c); reflexivity.
  - destruct (brace_span text) as [c|]; [|reflexivity].
    destruct (JSON_parse c); reflexivity.
Qed.

(** C6.  For every text, [extractJSON] returns the first success of
    three strategies tried in order: parsing the whole trimmed text;
    parsing the (trimmed) interior of the first fenced code block, whose
    opening fence may carry the tag json; parsing the span from the
    first opening brace to the last closing brace, inclusive.  A stage
    that fails falls through to the next, and when all three fail the
    result is the none value instead of an error.  On the three texts of
    the specification it returns the embedded object, the object of the
    fenced block, and none. *)
Theorem extractJSON_three_strategies :
  (forall text,
     extractJSON text =
     match whole_text text with
     | Some v => v
     | None =>
         match fenced_interior text with
         | Some v => v
         | None =>
             match brace_to_brace text with
             | Some v => v
             | None => JNull
             end
         end
     end)
  /\ extractJSON (litq "some prose {'question':'Q?','options':[]} trailing")
     = JObj [(lit "question", JStr (lit "Q?")); (lit "options", JArr [])]
  /\ extractJSON (lit "```json" ++ line_feed ++ litq "{'a':1}" ++ line_feed ++ lit "```")
     = JObj [(lit "a", JNum false 1 0)]
  /\ extractJSON (lit "not json at all") = JNull.
Proof.
  split; [|repeat split; vm_compute; reflexivity].
  intros text. rewrite extractJSON_extract. unfold extract, first_success.
  destruct (whole_text text); [reflexivity|].
  destruct (fenced_interior text); [reflexivity|].
  destruct (brace_to_brace text); reflexivity.
Qed.

(** Which strategy answers on each of the three texts. *)
Example embedded_object_by_third_strategy :
  let text := litq "some prose {'question':'Q?','options':[]} trailing" in
  whole_text text = None /\ fenced_interior text = None
  /\ brace_span text = Some (litq "{'question':'Q?','options':[]}").
Proof. vm_compute. repeat split. Qed.

Example fenced_object_by_second_strategy :
  let text := lit "```json" ++ line_feed ++ litq "{'a':1}" ++ line_feed ++ lit "```" in
  whole_text text = None
  /\ fenced_block text = Some (litq "{'a':1}" ++ line_feed).
Proof. vm_compute. repeat split. Qed.

(** C10, as stated, fails: the text null parses to the scalar null, and
    what comes back is the none value, the same as for a text that is
    not JSON at all. *)
Lemma scalar_null_is_none :
  (JSON_parse (trim (lit "null")) = Some JNull
   /\ is_scalar JNull = true
   /\ extractJSON (lit "null") = JNull
   /\ extractJSON (lit "not json at all") = JNull)
  /\ ~ scalar_never_none.
Proof.
  split; [vm_compute; repeat split; reflexivity|].
  intros H.
  destruct (H (lit "null") JNull) as [_ N]; try reflexivity.
  apply N. vm_compute. reflexivity.
Qed.

(** C10 (amended).  When the whole trimmed text parses as a bare scalar,
    the first strategy succeeds and that scalar is what [extractJSON]
    returns, although it is not an object; the result differs from the
    none value exactly when the scalar is not null. *)
Theorem extractJSON_scalar (text : jstring) (v : json) :
  JSON_parse (trim text) = Some v ->
  is_scalar v = true ->
  extractJSON text = v /\ (extractJSON text = JNull <-> v = JNull).
Proof.
  intros P _. unfold extractJSON. rewrite P. split; [reflexivity|tauto].
Qed.

Lemma extractJSON_scalar_witness :
  extractJSON (lit "42") = JNum false 42 0
  /\ (extractJSON (lit "42") = JNull <-> JNum false 42 0 = JNull).
Proof.
  apply (@extractJSON_scalar (lit "42") (JNum false 42 0)); reflexivity.
Defined.

Example extractJSON_true : extractJSON (lit "true") = JBool true.
Proof. vm_compute. reflexivity. Qed.

(** [JSON.parse] on a few texts. *)
Example parse_nested :
  JSON_parse (litq " {'a': [1, -2.50e3, true, null], 'b': {}, 'a': 'last'} ")
  = Some (JObj [(lit "a", JArr [JNum false 1 0; JNum true 250 1; JBool true; JNull]);
                (lit "b", JObj []);
                (lit "a", JStr (lit "last"))]).
Proof. vm_compute. reflexivity. Qed.

Example parse_rejects :
  map JSON_parse [lit "01"; lit "1."; lit "[1,]"; litq "{'a':1,}"; lit "";
                  lit "nul"; lit "+1"; litq "'open"; lit "1 2"]
  = repeat None 9.
Proof. vm_compute. reflexivity. Qed.

(** A literal as small as 1e-400 is the number zero, hence falsy. *)
Example underflow_is_falsy :
  option_map truthy (JSON_parse (lit "1e-400")) = Some false
  /\ option_map truthy (JSON_parse (lit "1e-300")) = Some true.
Proof. vm_compute. split; reflexivity. Qed.

End ExtractorProps.

(* ================================================================== *)
(** * Reasoning about handlers *)
(* ================================================================== *)

Module HandlerFacts.

Import Facts Statements.

#[local] Arguments sql_text : simpl never.

Section Stable.

Variable J : store -> Prop.

Lemma stable_ret A (a : A) : store_stable J (ret a).
Proof. intros w H. exact H. Qed.

Lemma stable_reply A (r : Response) : store_stable J (@reply A r).
Proof. intros w H. exact H. Qed.

Lemma stable_throw A (f : fault) : store_stable J (@throw A f).
Proof. intros w H. exact H. Qed.

Lemma stable_query A (q : store -> A) : store_stable J (query q).
Proof. intros w H. exact H. Qed.

Lemma stable_emit (e : effect) : store_stable J (emit e).
Proof. intros w H. exact H. Qed.

Lemma stable_fresh_uuid (env : Env) : store_stable J (fresh_uuid env).
Proof. intros w H. exact H. Qed.

Lemma stable_run_sql (f : store -> store) :
  (forall st, J st -> J (f st)) -> store_stable J (run_sql f).
Proof. intros Hf w H. simpl. auto. Qed.

Lemma stable_bind A B (m : M A) (k : A -> M B) :
  store_stable J m -> (forall a, store_stable J (k a)) ->
  store_stable J (bind m k).
Proof.
  intros Hm Hk w H. unfold bind. specialize (Hm w H).
  destruct (m w) as [[a|r|f] w']; simpl in *; auto.
  apply Hk. exact Hm.
Qed.

Lemma stable_catch A (m : M A) (h : fault -> M A) :
  store_stable J m -> (forall f, store_stable J (h f)) ->
  store_stable J (catch m h).
Proof.
  intros Hm Hh w H. unfold catch. specialize (Hm w H).
  destruct (m w) as [[a|r|f] w']; simpl in *; auto.
  apply Hh. exact Hm.
Qed.

Lemma stable_or_reply A (o : option A) (r : Response) :
  store_stable J (or_reply o r).
Proof. destruct o; [apply stable_ret | apply stable_reply]. Qed.

Lemma stable_read (v : json) (k : string) : store_stable J (read v k).
Proof. unfold read. destruct (prop v (lit k)); [apply stable_ret | apply stable_throw]. Qed.

Lemma stable_bind_param (rt : Runtime) (v : option json) :
  store_stable J (bind_param rt v).
Proof.
  unfold bind_param.
  destruct v as [[| | | | |]|]; try apply stable_ret;
    destruct (bind_other rt _); try apply stable_ret; apply stable_throw.
Qed.

Lemma stable_for_each A (f : A -> M unit) (l : list A) :
  (forall a, store_stable J (f a)) ->
  store_stable J (Completion.for_each f l).
Proof.
  intros Hf. induction l as [|x l IH]; simpl.
  - apply stable_ret.
  - apply stable_bind; auto.
Qed.

End Stable.

Create HintDb stable.
#[export] Hint Resolve stable_ret stable_reply stable_throw stable_query
  stable_emit stable_fresh_uuid stable_or_reply stable_read
  stable_bind_param : stable.

(** The signature check in terms of [signature_ok]. *)
Lemma check_signature_ok rt env signature rawBody :
  Completion.check_signature rt env signature rawBody
  = if signature_ok rt env signature rawBody then ret tt
    else reply (mkResponse 401 (error_body "Unauthorized")).
Proof.
  unfold Completion.check_signature, signature_ok.
  destruct (cell_truthy (WEBHOOK_SECRET env)); simpl; [|reflexivity].
  destruct (cell_truthy signature); simpl; [|reflexivity].
  destruct (Completion.verifyWebhookSignature _ _ _ _); reflexivity.
Qed.

(** Past the signature check the handler is [process]. *)
Lemma POST_accepted rt env signature rawBody w :
  signature_ok rt env signature rawBody = true ->
  Completion.POST rt env signature rawBody w
  = handle (fun _ => mkResponse 500 (error_body "Internal server error"))
      (Completion.process rt env rawBody) w.
Proof.
  intros H. unfold Completion.POST, Completion.POST_body, handle, bind.
  rewrite check_signature_ok, H. reflexivity.
Qed.

(** ** The store under the statements of the handlers *)

Lemma task_by_id_id (id : jstring) (st : store) (t : Task) :
  task_by_id id st = Some t -> t_id t = id.
Proof.
  unfold task_by_id. intros H. apply find_some in H as [_ H].
  now apply str_eqb_eq.
Qed.

Lemma task_by_id_update (status now id : jstring) (st : store) (t : Task) :
  task_by_id id st = Some t ->
  task_by_id id (update_task_status status now id st)
  = Some (mkTask (t_id t) (t_title t) (t_description t) status (t_priority t)
            (t_assigned_agent_id t) (t_workspace_id t) (t_due_date t)
            (t_planning_session_key t) (t_planning_messages t) now).
Proof.
  unfold task_by_id, update_task_status, set_tasks. simpl.
  induction (tasks st) as [|x l IH]; simpl; [discriminate|].
  destruct (str_eqb (t_id x) id) eqn:E; simpl.
  - rewrite E. now intros [= ->].
  - rewrite E. exact IH.
Qed.

Lemma task_by_id_tasks (id : jstring) (st st' : store) :
  tasks st = tasks st' -> task_by_id id st = task_by_id id st'.
Proof. unfold task_by_id. now intros ->. Qed.

(** The world a handler leaves is the one its body leaves. *)
Lemma snd_handled (on_error : Response) (x : outcome Response * world) :
  snd (let (o, w') := x in
       match o with
       | Ret r | Reply r => (r, w')
       | Throw _ => (on_error, w')
       end) = snd x.
Proof. destruct x as [[r|r|f] w']; reflexivity. Qed.

Lemma index_of_range (x : jstring) (l : list jstring) :
  (-1 <= index_of x l < Z.of_nat (length l))%Z.
Proof.
  induction l as [|y l IH]; simpl length; simpl index_of; [lia|].
  destruct (str_eqb y x); [lia|].
  destruct (index_of x l); lia.
Qed.

Lemma index_of_nth (x : jstring) (l : list jstring) :
  forall i, index_of x l = Z.of_nat i -> nth_error l i = Some x.
Proof.
  induction l as [|y l IH]; intros i; simpl index_of; [lia|].
  destruct (str_eqb y x) eqn:E.
  - apply str_eqb_eq in E. subst y. destruct i; [reflexivity|lia].
  - pose proof (index_of_range x l) as R.
    destruct (index_of x l) as [|p|p] eqn:Ei; try lia.
    + destruct i as [|i]; [lia|]. intros H. simpl. apply IH. lia.
    + destruct i as [|i]; [lia|]. intros H. simpl. apply IH. lia.
Qed.

Lemma index_of_first (x : jstring) (l : list jstring) :
  forall i, nth_error l i = Some x -> (0 <= index_of x l <= Z.of_nat i)%Z.
Proof.
  induction l as [|y l IH]; intros i; [destruct i; discriminate|].
  simpl index_of. destruct (str_eqb y x) eqn:E; [lia|].
  destruct i as [|i]; simpl.
  - intros [= ->]. now rewrite str_eqb_refl in E.
  - intros H. specialize (IH i H).
    destruct (index_of x l); lia.
Qed.

Lemma index_of_absent (x : jstring) (l : list jstring) :
  ~ In x l -> index_of x l = (-1)%Z.
Proof.
  intros H. pose proof (index_of_range x l) as R.
  destruct (Z.eq_dec (index_of x l) (-1)) as [E|E]; [exact E|].
  exfalso. apply H. apply (nth_error_In l (Z.to_nat (index_of x l))).
  apply index_of_nth. lia.
Qed.

Lemma index_of_NoDup (x : jstring) (l : list jstring) (i : nat) :
  NoDup l -> nth_error l i = Some x -> index_of x l = Z.of_nat i.
Proof.
  intros Hnd Hi.
  pose proof (@index_of_first x l i Hi) as R.
  assert (Hk : nth_error l (Z.to_nat (index_of x l)) = Some x)
    by (apply index_of_nth; lia).
  assert (Z.to_nat (index_of x l) = i); [|lia].
  apply (proj1 (NoDup_nth_error l) Hnd).
  - apply nth_error_Some. rewrite Hk. discriminate.
  - now rewrite Hk, Hi.
Qed.

Lemma existsb_str_eqb (s : jstring) (l : list jstring) :
  existsb (str_eqb s) l = true <-> In s l.
Proof.
  rewrite existsb_exists. split.
  - intros (x & Hin & E). apply str_eqb_eq in E. now subst.
  - intros H. exists s. split; [assumption|apply str_eqb_refl].
Qed.

Lemma targetStatus_allowed (s : jstring) :
  In s Completion.allowedStatuses ->
  Completion.targetStatus (Some (JStr s)) = s.
Proof.
  intros H. unfold Completion.targetStatus.
  apply existsb_str_eqb in H. now rewrite H.
Qed.

Lemma targetStatus_default (status : option json) :
  (forall s, status = Some (JStr s) -> ~ In s Completion.allowedStatuses) ->
  Completion.targetStatus status = lit "testing".
Proof.
  intros H. unfold Completion.targetStatus.
  destruct status as [[| | |s| |]|]; try reflexivity.
  destruct (existsb (str_eqb s) Completion.allowedStatuses) eqn:E; [|reflexivity].
  apply existsb_str_eqb in E. exfalso. eapply H; eauto.
Qed.

Ltac stable_steps :=
  repeat (first
    [ apply stable_bind; [|intros ?]
    | apply stable_for_each; intros ?; unfold Completion.register_deliverable
    | apply stable_run_sql; intros st Hst; exact Hst
    | solve [auto with stable]
    | match goal with
      | |- store_stable _ (Completion.deliverables_of ?v) =>
          unfold Completion.deliverables_of;
          destruct (or_default v (JArr [])); auto with stable
      | |- store_stable _ (match ?x with _ => _ end) => destruct x
      end ]).

(** Registering deliverables and logging the completion leave the
    table of tasks alone. *)
Lemma register_deliverables_tasks rt env body task (T : list Task) :
  store_stable (fun st => tasks st = T)
    (Completion.register_deliverables rt env body task).
Proof. unfold Completion.register_deliverables. stable_steps. Qed.

Lemma log_completion_tasks rt env body task name (T : list Task) :
  store_stable (fun st => tasks st = T)
    (Completion.log_completion rt env body task name).
Proof. unfold Completion.log_completion. stable_steps. Qed.

(** Logging the completion leaves the table of deliverables alone. *)
Lemma log_completion_deliverables rt env body task name (D : list Deliverable) :
  store_stable (fun st => deliverables st = D)
    (Completion.log_completion rt env body task name).
Proof. unfold Completion.log_completion. stable_steps. Qed.

(** ** The latest active task *)

Lemma str_ltb_irrefl (a : jstring) : str_ltb a a = false.
Proof.
  induction a as [|x a IH]; simpl; [reflexivity|].
  rewrite N.ltb_irrefl, N.eqb_refl. exact IH.
Qed.

Lemma str_ltb_asym (a b : jstring) : str_ltb a b = true -> str_ltb b a = false.
Proof.
  revert b; induction a as [|x a IH]; intros [|y b]; simpl; try congruence.
  destruct (N.ltb_spec x y), (N.ltb_spec y x), (N.eqb_spec x y), (N.eqb_spec y x);
    simpl; try lia; try congruence. apply IH.
Qed.

Lemma str_leb_trans (a b c : jstring) :
  str_ltb b a = false -> str_ltb c b = false -> str_ltb c a = false.
Proof.
  revert b c; induction a as [|x a IH]; intros [|y b] [|z c]; simpl;
    try congruence.
  destruct (N.ltb_spec y x), (N.ltb_spec z y), (N.ltb_spec z x),
    (N.eqb_spec y x), (N.eqb_spec z y), (N.eqb_spec z x);
    simpl; try lia; try congruence. apply IH.
Qed.

Lemma latest_None (l : list Task) : latest l = None -> l = [].
Proof.
  destruct l as [|t l]; [reflexivity|]. simpl.
  destruct (latest l); [|discriminate].
  destruct (str_ltb _ _); discriminate.
Qed.

Lemma latest_Some (l : list Task) (t : Task) :
  latest l = Some t ->
  In t l /\ forall u, In u l -> str_ltb (t_updated_at t) (t_updated_at u) = false.
Proof.
  revert t; induction l as [|x l IH]; intros t; simpl; [discriminate|].
  destruct (latest l) as [u|] eqn:E.
  - destruct (IH u eq_refl) as [Hin Hmax].
    destruct (str_ltb (t_updated_at x) (t_updated_at u)) eqn:L; intros [= <-].
    + split; [now right|]. intros v [<-|Hv]; [now apply str_ltb_asym|auto].
    + split; [now left|]. intros v [<-|Hv]; [apply str_ltb_irrefl|].
      eapply str_leb_trans; [|exact L]. auto.
  - apply latest_None in E. subst l. intros [= <-].
    split; [now left|]. intros v [<-|[]]. apply str_ltb_irrefl.
Qed.


Lemma active_task_of_Some (agent_id : jstring) (st : store) (t : Task) :
  active_task_of agent_id st = Some t ->
  In t (tasks st)
  /\ t_assigned_agent_id t = Some agent_id
  /\ (t_status t = lit "assigned" \/ t_status t = lit "in_progress")
  /\ forall u, In u (tasks st) -> is_active_task_of agent_id u = true ->
               str_ltb (t_updated_at t) (t_updated_at u) = false.
Proof.
  unfold active_task_of. intros H. apply latest_Some in H as [Hin Hmax].
  apply filter_In in Hin as [Hin Hact].
  split; [assumption|].
  unfold is_active_task_of in Hact. apply andb_true_iff in Hact as [Ha Hs].
  split; [|split].
  - destruct (t_assigned_agent_id t) as [a|]; [|discriminate].
    apply str_eqb_eq in Ha. now subst.
  - apply orb_true_iff in Hs as [Hs|Hs]; apply str_eqb_eq in Hs; auto.
  - intros u Hu Hact'. apply Hmax. apply filter_In. auto.
Qed.

End HandlerFacts.

(* ================================================================== *)
(** * Properties of the completion webhook *)
(* ================================================================== *)

Module CompletionProps.

Import Facts Statements HandlerFacts Samples.

#[local] Arguments sql_text : simpl never.

#[local] Arguments str_eqb : simpl never.
#[local] Arguments index_of : simpl never.
#[local] Arguments task_by_id : simpl never.
#[local] Arguments update_task_status : simpl never.
#[local] Arguments Completion.register_deliverables : simpl never.
#[local] Arguments Completion.log_completion : simpl never.
#[local] Arguments Completion.targetStatus : simpl never.
#[local] Arguments Completion.newStatus : simpl never.

(** C2.  With a non-empty secret configured, a request whose signature
    header is absent, or differs from the hex HMAC-SHA-256 of the raw
    body under that secret, is answered 401 and the world is left as it
    was, whatever the raw body is (so before any parsing of it).  With
    no secret configured (unset or empty) the header is not looked at:
    the answer is that of the handler proper on the raw body. *)
Theorem unsigned_request_rejected rt env (signature : cell) (rawBody : jstring) (w : world) :
  (forall secret,
     WEBHOOK_SECRET env = Some secret -> secret <> [] ->
     signature <> Some (hmac_sha256_hex rt secret rawBody) ->
     Completion.POST rt env signature rawBody w
     = (mkResponse 401 (error_body "Unauthorized"), w))
  /\ (WEBHOOK_SECRET env = None \/ WEBHOOK_SECRET env = Some [] ->
      Completion.POST rt env signature rawBody w
      = handle (fun _ => mkResponse 500 (error_body "Internal server error"))
          (Completion.process rt env rawBody) w).
Proof.
  split.
  - intros secret Hs Hne Hsig.
    unfold Completion.POST, Completion.POST_body, handle, bind.
    rewrite check_signature_ok.
    assert (signature_ok rt env signature rawBody = false) as ->; [|reflexivity].
    unfold signature_ok, Completion.verifyWebhookSignature. rewrite Hs.
    destruct secret as [|c k]; [contradiction|].
    destruct signature as [[|x sig]|]; try reflexivity.
    cbn [cell_truthy negb orb andb display_cell].
    apply str_eqb_neq. congruence.
  - intros H. apply POST_accepted. unfold signature_ok.
    destruct H as [-> | ->]; reflexivity.
Qed.

Lemma unsigned_request_rejected_witness :
  Completion.POST rt0 env_secret (Some (lit "forged")) raw_legacy (world_of st_working)
  = (mkResponse 401 (error_body "Unauthorized"), world_of st_working)
  /\ Completion.POST rt0 env_secret None (lit "not even JSON") (world_of st_working)
     = (mkResponse 401 (error_body "Unauthorized"), world_of st_working)
  /\ Completion.POST rt0 env0 (Some (lit "forged")) raw_legacy (world_of st_working)
     = handle (fun _ => mkResponse 500 (error_body "Internal server error"))
         (Completion.process rt0 env0 raw_legacy) (world_of st_working).
Proof.
  split; [|split].
  - apply (proj1 (unsigned_request_rejected rt0 env_secret (Some (lit "forged")) raw_legacy
                    (world_of st_working)) (lit "s3cret")).
    + reflexivity.
    + vm_compute. discriminate.
    + vm_compute. discriminate.
  - apply (proj1 (unsigned_request_rejected rt0 env_secret None (lit "not even JSON")
                    (world_of st_working)) (lit "s3cret")).
    + reflexivity.
    + vm_compute. discriminate.
    + discriminate.
  - apply (proj2 (unsigned_request_rejected rt0 env0 (Some (lit "forged")) raw_legacy
                    (world_of st_working))).
    left. reflexivity.
Defined.

Lemma status_ordering_NoDup : NoDup status_ordering.
Proof.
  unfold status_ordering.
  repeat (constructor;
          [intros H; cbv [In] in H;
           repeat (destruct H as [H|H]; [vm_compute in H; discriminate H|]);
           exact H|]).
  constructor.
Qed.

Lemma strictly_later_index (current target : jstring) :
  strictly_later current target <->
  (0 <= index_of current status_ordering < index_of target status_ordering)%Z.
Proof.
  split.
  - intros (i & j & Hi & Hj & Hlt).
    rewrite (@index_of_NoDup current status_ordering i status_ordering_NoDup Hi),
      (@index_of_NoDup target status_ordering j status_ordering_NoDup Hj).
    lia.
  - intros H.
    exists (Z.to_nat (index_of current status_ordering)),
      (Z.to_nat (index_of target status_ordering)).
    split; [apply index_of_nth; lia|]. split; [apply index_of_nth; lia|lia].
Qed.

Lemma newStatus_later (current target : jstring) :
  strictly_later current target ->
  Completion.newStatus current target = target /\ target <> current.
Proof.
  intros H. apply strictly_later_index in H.
  unfold Completion.newStatus. change Completion.statusOrder with status_ordering.
  destruct (Z.gtb_spec (index_of target status_ordering)
              (index_of current status_ordering)); [|lia].
  split; [reflexivity|]. intros E. rewrite E in H. lia.
Qed.

Lemma newStatus_not_later (current target : jstring) :
  In current status_ordering -> ~ strictly_later current target ->
  Completion.newStatus current target = current.
Proof.
  intros Hin Hn. rewrite strictly_later_index in Hn.
  apply In_nth_error in Hin as (i & Hi).
  pose proof (@index_of_first current status_ordering i Hi) as R.
  unfold Completion.newStatus. change Completion.statusOrder with status_ordering.
  destruct (Z.gtb_spec (index_of target status_ordering)
              (index_of current status_ordering)); [lia|reflexivity].
Qed.

Lemma targetStatus_is_target (status : option json) :
  In (Completion.targetStatus status) direct_targets.
Proof.
  unfold Completion.targetStatus.
  destruct status as [[| | |s| |]|]; try (left; reflexivity).
  destruct (existsb (str_eqb s) Completion.allowedStatuses) eqn:E;
    [|left; reflexivity].
  apply existsb_str_eqb in E. exact E.
Qed.

Lemma newStatus_outside (current target : jstring) :
  ~ In current status_ordering -> In target direct_targets ->
  Completion.newStatus current target = target /\ target <> current.
Proof.
  intros Hout Hin.
  assert (Ht : In target status_ordering).
  { destruct Hin as [<-|[<-|[<-|[]]]];
      [apply (nth_error_In _ 4)|apply (nth_error_In _ 5)|apply (nth_error_In _ 6)];
      reflexivity. }
  split; [|intros E; rewrite E in Ht; contradiction].
  apply In_nth_error in Ht as (j & Hj).
  pose proof (@index_of_first target status_ordering j Hj) as R.
  unfold Completion.newStatus. change Completion.statusOrder with status_ordering.
  rewrite (@index_of_absent current status_ordering Hout).
  destruct (Z.gtb_spec (index_of target status_ordering) (-1)); [reflexivity|lia].
Qed.

(** C3.  A direct payload is an object whose [task_id] names a task.
    Its target status is the payload's [status] when that is one of
    testing, review, done, and testing otherwise.  The task is updated
    to the target when the target stands strictly later than the task's
    status in the order planning, inbox, assigned, in_progress, testing,
    review, done, and only then: for a status of that order and a
    target that is not strictly later, no row of tasks changes.  (A
    status outside the order counts as earlier than every target.)  So
    a task that was done is left as it was, whatever the payload asked
    for: done again, or review afterward. *)
Theorem direct_completion_forward_only rt env signature rawBody w members tid task :
  signature_ok rt env signature rawBody = true ->
  JSON_parse rawBody = Some (JObj members) ->
  last_member (lit "task_id") members = Some (JStr tid) ->
  tid <> [] ->
  task_by_id (sql_text tid) (w_store w) = Some task ->
  let status := last_member (lit "status") members in
  let target := Completion.targetStatus status in
  let w' := snd (Completion.POST rt env signature rawBody w) in
  (forall s, status = Some (JStr s) -> In s direct_targets -> target = s)
  /\ ((forall s, status = Some (JStr s) -> ~ In s direct_targets) ->
      target = lit "testing")
  /\ (strictly_later (t_status task) target ->
      task_by_id (sql_text tid) (w_store w') = Some (moved_to target (now env) task)
      /\ target <> t_status task)
  /\ (In (t_status task) status_ordering ->
      ~ strictly_later (t_status task) target ->
      tasks (w_store w') = tasks (w_store w))
  /\ (~ In (t_status task) status_ordering ->
      task_by_id (sql_text tid) (w_store w') = Some (moved_to target (now env) task))
  /\ (t_status task = lit "done" -> tasks (w_store w') = tasks (w_store w)).
Proof.
  intros Hsig Hparse Htid Hne Htask status target w'.
  assert (Hcore : tasks (w_store w')
    = tasks (if str_eqb (Completion.newStatus (t_status task) target) (t_status task)
             then w_store w
             else update_task_status (Completion.newStatus (t_status task) target)
                    (now env) (t_id task) (w_store w))).
  { subst w'. rewrite POST_accepted by assumption.
    unfold Completion.process. rewrite Hparse.
    unfold handle. simpl. rewrite Htid.
    destruct tid as [|c tid]; [contradiction|].
    simpl. unfold Completion.direct. simpl.
    rewrite Htask. simpl.
    fold status. fold target.
    set (new := Completion.newStatus (t_status task) target).
    set (name := assigned_agent_name task (w_store w)).
    assert (Htail : forall w1,
      tasks (w_store
        (snd (let (o, w') :=
                let (o, w') :=
                  Completion.register_deliverables rt env (JObj members) task w1 in
                match o with
                | Ret a =>
                    let (o0, w'0) :=
                      Completion.log_completion rt env (JObj members) task name w' in
                    match o0 with
                    | Ret _ =>
                        (Ret (mkResponse 200
                           (JObj [field "success" (JBool true);
                                  field "task_id" (JStr (t_id task));
                                  field "new_status" (JStr new);
                                  field "deliverables_registered" (num_of_nat a);
                                  field "message" (JStr (lit "Task moved to " ++ new))])),
                         w'0)
                    | Reply r => (Reply r, w'0)
                    | Throw f => (Throw f, w'0)
                    end
                | Reply r => (Reply r, w')
                | Throw f => (Throw f, w')
                end in
              match o with
              | Ret r | Reply r => (r, w')
              | Throw _ =>
                  (mkResponse 500 (error_body "Internal server error"), w')
              end))) = tasks (w_store w1)).
    { intros w1. rewrite snd_handled.
      pose proof (@register_deliverables_tasks rt env (JObj members) task
                    (tasks (w_store w1)) w1 eq_refl) as H1.
      destruct (Completion.register_deliverables rt env (JObj members) task w1)
        as [[a|r|f] w2]; simpl in *; try exact H1.
      pose proof (@log_completion_tasks rt env (JObj members) task name
                    (tasks (w_store w1)) w2 H1) as H2.
      destruct (Completion.log_completion rt env (JObj members) task name w2)
        as [[u|r|f] w3]; simpl in *; exact H2. }
    destruct (str_eqb new (t_status task)) eqn:E; simpl; apply Htail. }
  pose proof (task_by_id_id _ _ Htask) as Hid.
  assert (Hmoved : Completion.newStatus (t_status task) target = target ->
                   target <> t_status task ->
                   task_by_id (sql_text tid) (w_store w')
                   = Some (moved_to target (now env) task)).
  { intros Hn Hd. rewrite Hn in Hcore.
    apply str_eqb_neq in Hd. rewrite Hd in Hcore.
    rewrite (@task_by_id_tasks (sql_text tid) _ _ Hcore), Hid.
    apply task_by_id_update. exact Htask. }
  assert (Hkept : Completion.newStatus (t_status task) target = t_status task ->
                  tasks (w_store w') = tasks (w_store w)).
  { intros Hn. rewrite Hn, str_eqb_refl in Hcore. exact Hcore. }
  split; [|split; [|split; [|split; [|split]]]].
  - intros s Hs Hin. unfold target. rewrite Hs. now apply targetStatus_allowed.
  - intros Hs. unfold target. apply targetStatus_default. exact Hs.
  - intros Hl. destruct (newStatus_later Hl) as [Hn Hd]. auto.
  - intros Hin Hn. apply Hkept. now apply newStatus_not_later.
  - intros Hout.
    destruct (@newStatus_outside (t_status task) target Hout
                (targetStatus_is_target status)) as [Hn Hd].
    auto.
  - intros Hd. apply Hkept. apply newStatus_not_later.
    + rewrite Hd. apply (nth_error_In _ 6). reflexivity.
    + rewrite strictly_later_index, Hd.
      pose proof (index_of_range target status_ordering) as R.
      change (Z.of_nat (length status_ordering)) with 7%Z in R.
      change (index_of (lit "done") status_ordering) with 6%Z.
      lia.
Qed.

Lemma direct_completion_forward_only_witness :
  task_by_id (lit "T1")
    (w_store (snd (Completion.POST rt0 env0 None raw_review_after_done
                     (world_of st_working))))
  = Some (moved_to (lit "review") clock
            (task_of "T1" "in_progress" "A" "2026-02-02T00:00:00.000Z"))
  /\ tasks (w_store (snd (Completion.POST rt0 env0 None raw_review_after_done
                            (world_of st_done))))
     = tasks st_done.
Proof.
  split.
  - destruct (@direct_completion_forward_only rt0 env0 None raw_review_after_done
                (world_of st_working)
                [(lit "task_id", JStr (lit "T1"));
                 (lit "status", JStr (lit "review"));
                 (lit "summary", JStr (lit "late retry"))]
                (lit "T1") (task_of "T1" "in_progress" "A" "2026-02-02T00:00:00.000Z"))
      as (_ & _ & Hmove & _).
    + reflexivity.
    + vm_compute. reflexivity.
    + reflexivity.
    + vm_compute. discriminate.
    + reflexivity.
    + apply Hmove. exists 3, 5. split; [reflexivity|]. split; [reflexivity|lia].
  - destruct (@direct_completion_forward_only rt0 env0 None raw_review_after_done
                (world_of st_done)
                [(lit "task_id", JStr (lit "T1"));
                 (lit "status", JStr (lit "review"));
                 (lit "summary", JStr (lit "late retry"))]
                (lit "T1") (task_of "T1" "done" "A" "2026-02-02T00:00:00.000Z"))
      as (_ & _ & _ & _ & _ & Hdone).
    + reflexivity.
    + vm_compute. reflexivity.
    + reflexivity.
    + vm_compute. discriminate.
    + reflexivity.
    + apply Hdone. reflexivity.
Defined.

Lemma register_deliverable_well_typed rt env task d w :
  well_typed_entry d = true ->
  Completion.register_deliverable rt env task d w
  = (Ret tt,
     mkWorld (insert_deliverable (row_of env task d (w_uuids w)) (w_store w))
       (S (w_uuids w)) (w_trace w)).
Proof.
  destruct d as [| | | | |ms]; try discriminate.
  unfold well_typed_entry, Completion.register_deliverable, row_of, entry_type.
  simpl.
  destruct (last_member (lit "title") ms) as [[| | |title| |]|]; try discriminate.
  destruct (last_member (lit "type") ms) as [[| | |[|c ty]| |]|];
    destruct (last_member (lit "path") ms) as [[| | |[|c1 path]| |]|];
    destruct (last_member (lit "description") ms) as [[| | |[|c2 descr]| |]|];
    try discriminate; intros _; reflexivity.
Qed.

Lemma for_each_well_typed rt env task items :
  forall w,
    forallb well_typed_entry items = true ->
    Completion.for_each (Completion.register_deliverable rt env task) items w
    = (Ret tt,
       mkWorld
         (mkStore (tasks (w_store w)) (agents (w_store w)) (sessions (w_store w))
            (events (w_store w)) (activities (w_store w))
            (deliverables (w_store w) ++ rows_of env task items (w_uuids w)))
         (length items + w_uuids w) (w_trace w)).
Proof.
  induction items as [|d items IH]; intros w H.
  - simpl. rewrite app_nil_r. destruct w as [[] ? ?]; reflexivity.
  - simpl in H. apply andb_true_iff in H as [Hd Hl].
    cbn [Completion.for_each]. unfold bind.
    rewrite register_deliverable_well_typed by assumption.
    rewrite IH by assumption. simpl.
    rewrite <- app_assoc, Nat.add_succ_r. reflexivity.
Qed.

Lemma rows_of_types env task items n :
  Forall2 (fun d row =>
             d_type row = Some (sql_text (entry_type d))
             /\ (well_formed (entry_type d) = true ->
                 d_type row = Some (entry_type d))
             /\ d_task_id row = t_id task)
    items (rows_of env task items n).
Proof.
  revert n; induction items as [|d items IH]; intros n; simpl; constructor; auto.
  assert (H : d_type (row_of env task d n) = Some (sql_text (entry_type d))
              /\ d_task_id (row_of env task d n) = t_id task)
    by (destruct d; simpl; auto).
  destruct H as [Ht Hid]. split; [exact Ht|]. split; [|exact Hid].
  intros Hw. rewrite Ht. now rewrite sql_text_well_formed.
Qed.

(** C9, as stated, fails: a type that is a high surrogate alone, which
    JSON can carry as an escape, is not the type stored; the row holds
    U+FFFD in its place. *)
Lemma lone_surrogate_type_replaced :
  (let w' := snd (Completion.POST rt0 env0 None raw_lone_surrogate
                    (world_of st_done)) in
   JSON_parse raw_lone_surrogate
   = Some (JObj [(lit "task_id", JStr (lit "T1"));
                 (lit "deliverables",
                  JArr [JObj [(lit "type", JStr [55357%N]);
                              (lit "title", JStr (lit "x"))]])])
   /\ map d_type (deliverables (w_store w')) = [Some [65533%N]])
  /\ ~ type_stored_verbatim.
Proof.
  split; [vm_compute; split; reflexivity|].
  intros H.
  destruct (H rt0 env0 None raw_lone_surrogate (world_of st_done)
              [(lit "task_id", JStr (lit "T1"));
               (lit "deliverables",
                JArr [JObj [(lit "type", JStr [55357%N]);
                            (lit "title", JStr (lit "x"))]])]
              (lit "T1") (task_of "T1" "done" "A" "2026-02-02T00:00:00.000Z")
              [JObj [(lit "type", JStr [55357%N]); (lit "title", JStr (lit "x"))]])
    as (rows & Hrows & Hall).
  - reflexivity.
  - vm_compute. reflexivity.
  - reflexivity.
  - vm_compute. discriminate.
  - reflexivity.
  - reflexivity.
  - reflexivity.
  - vm_compute in Hrows. subst rows.
    inversion Hall as [|d row ds rs Hty _]; subst.
    vm_compute in Hty. discriminate Hty.
Qed.

(** C9 (amended).  In the direct branch, for a payload whose
    [deliverables] is an array of well-typed entries, the handler
    appends one row per entry, in order; each row carries, as the
    database layer stores text, the entry's [type] when that is a
    non-empty string and file otherwise.  No check against file, url,
    artifact takes place: a string without an unpaired surrogate is the
    type stored, whatever it is. *)
Theorem deliverable_type_not_validated
    rt env signature rawBody w members tid task items :
  signature_ok rt env signature rawBody = true ->
  JSON_parse rawBody = Some (JObj members) ->
  last_member (lit "task_id") members = Some (JStr tid) ->
  tid <> [] ->
  task_by_id (sql_text tid) (w_store w) = Some task ->
  last_member (lit "deliverables") members = Some (JArr items) ->
  forallb well_typed_entry items = true ->
  let w' := snd (Completion.POST rt env signature rawBody w) in
  (exists rows,
     deliverables (w_store w') = deliverables (w_store w) ++ rows
     /\ Forall2 (fun d row =>
                   d_type row = Some (sql_text (entry_type d))
                   /\ (well_formed (entry_type d) = true ->
                       d_type row = Some (entry_type d))
                   /\ d_task_id row = t_id task) items rows)
  /\ (forall ms s,
        last_member (lit "type") ms = Some (JStr s) -> s <> [] ->
        entry_type (JObj ms) = s)
  /\ (forall ms,
        last_member (lit "type") ms = None
        \/ last_member (lit "type") ms = Some (JStr []) ->
        entry_type (JObj ms) = lit "file").
Proof.
  intros Hsig Hparse Htid Hne Htask Hlist Hwt w'.
  split; [|split].
  - exists (rows_of env task items (w_uuids w)).
    split; [|apply rows_of_types].
    subst w'. rewrite POST_accepted by assumption.
    unfold Completion.process. rewrite Hparse.
    unfold handle. simpl. rewrite Htid.
    destruct tid as [|c tid]; [contradiction|].
    simpl. unfold Completion.direct. simpl.
    rewrite Htask. simpl.
    set (new := Completion.newStatus _ _).
    set (name := assigned_agent_name task (w_store w)).
    rewrite snd_handled.
    assert (Hreg : forall w1,
      Completion.register_deliverables rt env (JObj members) task w1
      = (Ret (length items),
         mkWorld
           (mkStore (tasks (w_store w1)) (agents (w_store w1))
              (sessions (w_store w1)) (events (w_store w1))
              (activities (w_store w1))
              (deliverables (w_store w1) ++ rows_of env task items (w_uuids w1)))
           (length items + w_uuids w1) (w_trace w1))).
    { intros w1. unfold Completion.register_deliverables. simpl.
      rewrite Hlist. simpl.
      rewrite for_each_well_typed by assumption. reflexivity. }
    destruct (str_eqb new (t_status task)); simpl; rewrite Hreg;
      match goal with
      | |- context [Completion.log_completion ?a ?b ?c ?d ?e ?W] =>
          pose proof (@log_completion_deliverables a b c d e
                        (deliverables (w_store w)
                         ++ rows_of env task items (w_uuids w)) W eq_refl) as H2;
          destruct (Completion.log_completion a b c d e W) as [[u|r|f] w3];
          simpl in *; exact H2
      end.
  - intros ms s Hs Hn. unfold entry_type, prop. rewrite Hs.
    destruct s; [contradiction|reflexivity].
  - intros ms [H|H]; unfold entry_type, prop; rewrite H; reflexivity.
Qed.

Lemma deliverable_type_not_validated_witness :
  exists rows,
    deliverables
      (w_store (snd (Completion.POST rt0 env0 None raw_with_deliverables
                       (world_of st_done)))) = [] ++ rows
    /\ Forall2 (fun d row =>
                  d_type row = Some (sql_text (entry_type d))
                  /\ (well_formed (entry_type d) = true ->
                      d_type row = Some (entry_type d))
                  /\ d_task_id row = lit "T1")
         [JObj [(lit "type", JStr (lit "file")); (lit "title", JStr (lit "x.txt"))];
          JObj [(lit "type", JStr (lit "banana")); (lit "title", JStr (lit "y"))];
          JObj [(lit "title", JStr (lit "z")); (lit "type", JStr [])]]
         rows.
Proof.
  refine (proj1 (@deliverable_type_not_validated rt0 env0 None
                   raw_with_deliverables (world_of st_done)
                   [(lit "task_id", JStr (lit "T1"));
                    (lit "deliverables",
                     JArr [JObj [(lit "type", JStr (lit "file"));
                                 (lit "title", JStr (lit "x.txt"))];
                           JObj [(lit "type", JStr (lit "banana"));
                                 (lit "title", JStr (lit "y"))];
                           JObj [(lit "title", JStr (lit "z"));
                                 (lit "type", JStr [])]])]
                   (lit "T1") (task_of "T1" "done" "A" "2026-02-02T00:00:00.000Z")
                   _ _ _ _ _ _ _ _)).
  - reflexivity.
  - vm_compute. reflexivity.
  - reflexivity.
  - vm_compute. discriminate.
  - reflexivity.
  - reflexivity.
  - reflexivity.
Defined.

(** The rows of that request: a type outside file, url, artifact is
    stored as given. *)
Example banana_is_stored :
  map d_type
    (deliverables
       (w_store (snd (Completion.POST rt0 env0 None raw_with_deliverables
                        (world_of st_done)))))
  = [Some (lit "file"); Some (lit "banana"); Some (lit "file")].
Proof. vm_compute. reflexivity. Qed.


(** The completion pattern on a few messages. *)
Example completion_marker :
  Completion.completionMatch (lit "TASK_COMPLETE: Built the auth system")
  = Some (lit "Built the auth system")
  /\ Completion.completionMatch (lit "done. task_complete:x" ++ line_feed ++ lit "y")
     = Some (lit "x")
  /\ Completion.completionMatch (lit "TASK_COMPLETE:   ") = Some (lit " ")
  /\ Completion.completionMatch (lit "TASK_COMPLETE:" ++ line_feed) = None
  /\ Completion.completionMatch (lit "I finished the task successfully!") = None.
Proof. vm_compute. repeat split; reflexivity. Qed.


End CompletionProps.

(* ================================================================== *)
(** * Properties of the dispatch route *)
(* ================================================================== *)

Module DispatchProps.

Import Facts Statements HandlerFacts Samples.

#[local] Arguments sql_text : simpl never.

#[local] Arguments str_eqb : simpl never.
#[local] Arguments task_by_id : simpl never.
#[local] Arguments agent_by_id : simpl never.
#[local] Arguments active_session_of : simpl never.
#[local] Arguments session_by_id : simpl never.
#[local] Arguments other_orchestrators : simpl never.
#[local] Arguments update_task_status : simpl never.
#[local] Arguments update_agent_status : simpl never.
#[local] Arguments Dispatch.conflict_body : simpl never.
#[local] Arguments derived_session_id : simpl never.

(** C4, as stated, fails when the workspace meant is that of the
    assigned agent: a task of the default workspace assigned to an
    orchestrator of another workspace, where a second orchestrator is on
    standby, is dispatched with answer 200 and one message sent. *)
Lemma conflict_check_reads_task_workspace :
  (let w := world_of st_elsewhere in
   let r := Dispatch.POST rt0 env0 (lit "T1") w in
   option_map t_workspace_id (task_by_id (lit "T1") (w_store w))
   = Some (lit "default")
   /\ map a_workspace_id (agents (w_store w)) = [lit "ops"; lit "ops"]
   /\ status (fst r) = 200
   /\ length (filter Invariants.is_send (w_trace (snd r))) = 1
   /\ option_map a_status (agent_by_id (lit "M4") (w_store (snd r)))
      = Some (lit "working"))
  /\ ~ conflict_in_agents_workspace.
Proof.
  split; [vm_compute; repeat split; reflexivity|].
  intros H.
  destruct (H rt0 env0 (lit "T1") (world_of st_elsewhere)
              (task_of "T1" "assigned" "M4" "2026-02-02T00:00:00.000Z") finn gale)
    as (Hstatus & _).
  - reflexivity.
  - reflexivity.
  - vm_compute. discriminate.
  - reflexivity.
  - reflexivity.
  - right. left. reflexivity.
  - reflexivity.
  - vm_compute. discriminate.
  - reflexivity.
  - vm_compute. discriminate.
  - vm_compute in Hstatus. discriminate Hstatus.
Qed.

(** C4 (amended).  When the task's agent is an orchestrator and the
    workspace of the task holds at least one other orchestrator that is
    not offline, the dispatch answers 409 with exactly those agents
    listed, and the world is left as it was: no gateway call is made
    and no table changes.  The workspace compared is the one the task
    row carries; that of the assigned agent is not looked at. *)
Theorem orchestrator_conflict rt env id w task assigned agent :
  task_by_id id (w_store w) = Some task ->
  t_assigned_agent_id task = Some assigned -> assigned <> [] ->
  agent_by_id assigned (w_store w) = Some agent ->
  a_is_master agent = true ->
  let others := other_orchestrators (a_id agent) (t_workspace_id task) (w_store w) in
  others <> [] ->
  Dispatch.POST rt env id w = (mkResponse 409 (Dispatch.conflict_body others), w)
  /\ prop (Dispatch.conflict_body others) (lit "otherOrchestrators")
     = Fine (Some (JArr (map Dispatch.orchestrator_json others)))
  /\ (forall a,
        In a others <->
        In a (agents (w_store w))
        /\ a_is_master a = true
        /\ a_id a <> a_id agent
        /\ a_workspace_id a = t_workspace_id task
        /\ a_status a <> lit "offline").
Proof.
  intros Htask Hassigned Hne Hagent Hmaster others Hothers.
  split; [|split].
  - unfold Dispatch.POST, Dispatch.POST_body, handle. simpl.
    rewrite Htask. simpl. rewrite Hassigned.
    destruct assigned as [|c r]; [contradiction|]. simpl.
    rewrite Hagent. simpl. rewrite Hmaster. simpl.
    fold others. destruct others; [contradiction|]. reflexivity.
  - reflexivity.
  - intros a. unfold others, other_orchestrators, is_other_orchestrator.
    rewrite filter_In, !andb_true_iff, !negb_true_iff, !str_eqb_neq, !str_eqb_eq.
    tauto.
Qed.

(** C1, as stated, fails: a done task of a linked agent is dispatched
    with answer 200, and its status is in_progress afterwards. *)
Lemma dispatch_regresses_done :
  (let w := world_of st_done in
   let r := Dispatch.POST rt0 env0 (lit "T1") w in
   option_map t_status (task_by_id (lit "T1") (w_store w)) = Some (lit "done")
   /\ status (fst r) = 200
   /\ option_map t_status (task_by_id (lit "T1") (w_store (snd r)))
      = Some (lit "in_progress"))
  /\ ~ dispatch_keeps_later_status.
Proof.
  split; [vm_compute; repeat split; reflexivity|].
  intros H.
  destruct (H rt0 env0 (lit "T1") (world_of st_done)
              (task_of "T1" "done" "A" "2026-02-02T00:00:00.000Z"))
    as (task' & Hfind & Hstatus).
  - reflexivity.
  - simpl. auto.
  - reflexivity.
  - vm_compute in Hfind. injection Hfind as <-.
    vm_compute in Hstatus. discriminate.
Qed.

(** C1 (amended).  Every successful dispatch leaves the task with
    status in_progress, whatever its status was: the write is
    unconditional. *)
Theorem dispatch_sets_in_progress rt env id w :
  status (fst (Dispatch.POST rt env id w)) = 200 ->
  exists task',
    task_by_id id (w_store (snd (Dispatch.POST rt env id w))) = Some task'
    /\ t_status task' = lit "in_progress".
Proof.
  unfold Dispatch.POST, Dispatch.POST_body, handle. simpl.
  destruct (task_by_id id (w_store w)) as [task|] eqn:Htask; simpl;
    [|discriminate].
  destruct (t_assigned_agent_id task) as [[|c r]|]; simpl; try discriminate.
  destruct (agent_by_id (c :: r) (w_store w)) as [agent|]; simpl;
    [|discriminate].
  assert (Hfinal : forall st' st,
    tasks st' = tasks (update_task_status (lit "in_progress") (now env) id st) ->
    tasks st = tasks (w_store w) ->
    exists task', task_by_id id st' = Some task'
                  /\ t_status task' = lit "in_progress").
  { intros st' st H1 H2. eexists. split.
    - rewrite (task_by_id_tasks id _ _ H1). apply task_by_id_update.
      rewrite (task_by_id_tasks id _ _ H2). exact Htask.
    - reflexivity. }
  unfold ensure_connected.
  destruct (a_is_master agent); simpl;
    [destruct (other_orchestrators (a_id agent) (t_workspace_id task) (w_store w));
       simpl; [|discriminate]|];
    (destruct (isConnected env); simpl;
       [|destruct (connect_ok env); simpl; [|discriminate]]);
    (destruct (active_session_of (a_id agent) (w_store w)) as [session|]; simpl;
       [|match goal with
         | |- context [session_by_id ?i ?st] =>
             destruct (session_by_id i st) as [session|]; simpl; [|discriminate]
         end]);
    (destruct (send_ok env); simpl; [|discriminate]);
    match goal with
    | |- context [task_by_id id (update_task_status ?s ?n id ?st)] =>
        destruct (task_by_id id (update_task_status s n id st)); simpl;
        intros _; apply (Hfinal _ st); reflexivity
    end.
Qed.

Lemma dispatch_sets_in_progress_witness :
  exists task',
    task_by_id (lit "T1")
      (w_store (snd (Dispatch.POST rt0 env0 (lit "T1") (world_of st_done))))
    = Some task'
    /\ t_status task' = lit "in_progress".
Proof.
  apply (@dispatch_sets_in_progress rt0 env0 (lit "T1") (world_of st_done)).
  vm_compute. reflexivity.
Defined.

(** The text of the warning for one and for two alternatives. *)
Example conflict_message :
  prop (Dispatch.conflict_body [dana]) (lit "message")
  = Fine (Some (jtext
      "There is 1 other orchestrator available in this workspace: Dana. Consider assigning this task to them instead."))
  /\ prop (Dispatch.conflict_body [dana; erin]) (lit "message")
     = Fine (Some (jtext
      "There are 2 other orchestrators available in this workspace: Dana, Erin. Consider assigning this task to them instead.")).
Proof. vm_compute. split; reflexivity. Qed.

Lemma orchestrator_conflict_witness :
  Dispatch.POST rt0 env0 (lit "T1") (world_of st_orchestrators)
  = (mkResponse 409 (Dispatch.conflict_body [dana]), world_of st_orchestrators).
Proof.
  refine (proj1 (@orchestrator_conflict rt0 env0 (lit "T1")
                   (world_of st_orchestrators)
                   (task_of "T1" "assigned" "M1" "2026-02-02T00:00:00.000Z")
                   (lit "M1") charlie _ _ _ _ _ _)).
  - reflexivity.
  - reflexivity.
  - vm_compute. discriminate.
  - reflexivity.
  - reflexivity.
  - vm_compute. discriminate.
Defined.

End DispatchProps.

(* ================================================================== *)
(** * Properties of the agent link route *)
(* ================================================================== *)

Module LinkProps.

Import Facts Statements HandlerFacts Samples.

#[local] Arguments sql_text : simpl never.

#[local] Arguments str_eqb : simpl never.
#[local] Arguments agent_by_id : simpl never.
#[local] Arguments active_session_of : simpl never.
#[local] Arguments update_session_status : simpl never.

Lemma active_session_of_In (id : jstring) (st : store) (s : Session) :
  active_session_of id st = Some s ->
  In s (sessions st) /\ s_agent_id s = id /\ s_status s = lit "active".
Proof.
  unfold active_session_of. intros H. apply find_some in H as [Hin H].
  apply andb_true_iff in H as [H1 H2].
  apply str_eqb_eq in H1, H2. auto.
Qed.

Lemma update_session_status_rows (now id : jstring) (st : store) :
  Forall2 (fun old new =>
             (s_id old <> id /\ new = old)
             \/ (s_id old = id /\ new = deactivated now old))
    (sessions st)
    (sessions (update_session_status (lit "inactive") now id st)).
Proof.
  unfold update_session_status, set_sessions. simpl.
  induction (sessions st) as [|x l IH]; simpl; constructor; [|exact IH].
  destruct (str_eqb (s_id x) id) eqn:E.
  - right. apply str_eqb_eq in E. auto.
  - left. apply str_eqb_neq in E. auto.
Qed.

Lemma deactivated_In (now : jstring) (s : Session) (l l' : list Session) :
  Forall2 (fun old new =>
             (s_id old <> s_id s /\ new = old)
             \/ (s_id old = s_id s /\ new = deactivated now old)) l l' ->
  In s l -> In (deactivated now s) l'.
Proof.
  induction 1 as [|x y l l' Hxy _ IH]; [contradiction|].
  intros [->|Hin].
  - left. destruct Hxy as [[Hne _]|[_ ->]]; [congruence|reflexivity].
  - right. now apply IH.
Qed.

(** C7.  For an agent of the store: while it has an active session,
    linking answers 409 with that session in the body and changes
    nothing; without one, unlinking answers 404 and changes nothing; a
    successful unlink answers 200, marks the rows of that session's id
    inactive with the current time, keeps every other row as it was and
    the number of rows the same, and appends one event. *)
Theorem link_and_unlink rt env id requestText w agent :
  agent_by_id id (w_store w) = Some agent ->
  match active_session_of id (w_store w) with
  | Some s =>
      OpenClawLink.POST rt env id requestText w
      = (mkResponse 409
           (JObj [field "error" (jtext "Agent is already linked to an OpenClaw session");
                  field "session" (session_json s)]), w)
      /\ let r := OpenClawLink.DELETE env id w in
         fst r = mkResponse 200
                   (JObj [field "linked" (JBool false); field "success" (JBool true)])
         /\ w_store (snd r)
            = insert_event
                (mkEvent (uuid env (w_uuids w)) (lit "agent_status_changed")
                   (Some id) None
                   (a_name agent ++ lit " disconnected from OpenClaw Gateway")
                   (now env))
                (update_session_status (lit "inactive") (now env) (s_id s) (w_store w))
         /\ Forall2 (fun old new =>
                       (s_id old <> s_id s /\ new = old)
                       \/ (s_id old = s_id s /\ new = deactivated (now env) old))
              (sessions (w_store w)) (sessions (w_store (snd r)))
         /\ length (sessions (w_store (snd r))) = length (sessions (w_store w))
         /\ In (deactivated (now env) s) (sessions (w_store (snd r)))
  | None =>
      OpenClawLink.DELETE env id w
      = (mkResponse 404 (error_body "Agent is not linked to an OpenClaw session"), w)
  end.
Proof.
  intros Hagent.
  destruct (active_session_of id (w_store w)) as [s|] eqn:Hs.
  - split.
    + unfold OpenClawLink.POST, OpenClawLink.POST_body, OpenClawLink.POST_check,
    OpenClawLink.POST_gateway, OpenClawLink.POST_store, handle. simpl.
      rewrite Hagent. simpl. rewrite Hs. reflexivity.
    + unfold OpenClawLink.DELETE, OpenClawLink.DELETE_body, handle. simpl.
      rewrite Hagent. simpl. rewrite Hs. simpl.
      pose proof (update_session_status_rows (now env) (s_id s) (w_store w)) as R.
      repeat split; try exact R.
      * symmetry. eapply Forall2_length. exact R.
      * apply active_session_of_In in Hs as (Hin & _).
        eapply deactivated_In; eassumption.
  - unfold OpenClawLink.DELETE, OpenClawLink.DELETE_body, handle. simpl.
    rewrite Hagent. simpl. rewrite Hs. reflexivity.
Qed.

Lemma link_and_unlink_witness :
  (OpenClawLink.POST rt0 env0 (lit "A") [] (world_of st_done)
   = (mkResponse 409
        (JObj [field "error" (jtext "Agent is already linked to an OpenClaw session");
               field "session" (session_json engineer_session)]),
      world_of st_done)
   /\ sessions (w_store (snd (OpenClawLink.DELETE env0 (lit "A") (world_of st_done))))
      = [deactivated clock engineer_session])
  /\ OpenClawLink.DELETE env0 (lit "A") (world_of st_unlinked)
     = (mkResponse 404 (error_body "Agent is not linked to an OpenClaw session"),
        world_of st_unlinked).
Proof.
  split.
  - pose proof (@link_and_unlink rt0 env0 (lit "A") [] (world_of st_done) engineer
                  eq_refl) as H.
    change (active_session_of (lit "A") (w_store (world_of st_done)))
      with (Some engineer_session) in H.
    cbv iota zeta in H.
    destruct H as (Hpost & _ & Hstore & _).
    split; [exact Hpost|]. rewrite Hstore. reflexivity.
  - exact (@link_and_unlink rt0 env0 (lit "A") [] (world_of st_unlinked) engineer
             eq_refl).
Defined.

End LinkProps.

(* ================================================================== *)
(** * Properties of the planning route *)
(* ================================================================== *)

Module PlanningProps.

Import Facts Statements HandlerFacts Samples.

#[local] Arguments sql_text : simpl never.

Lemma rounds_S (key : jstring) (n : nat) :
  rounds key (S n) = Sleep Planning.poll_interval :: ChatHistory key :: rounds key n.
Proof. reflexivity. Qed.

(** The poll always returns, after at most [attempts] rounds, and does
    nothing but its rounds. *)
Lemma poll_returns env key attempts :
  forall i w,
    exists o m,
      m <= attempts
      /\ Planning.poll env key attempts i w
         = (Ret o, mkWorld (w_store w) (w_uuids w) (w_trace w ++ rounds key m)).
Proof.
  induction attempts as [|n IH]; intros i w.
  - exists None, 0. split; [lia|]. simpl. rewrite app_nil_r.
    destruct w; reflexivity.
  - cbn [Planning.poll]. unfold Planning.getMessagesFromOpenClaw. simpl.
    set (w2 := mkWorld (w_store w) (w_uuids w)
                 ((w_trace w ++ [Sleep Planning.poll_interval]) ++ [ChatHistory key])).
    assert (Htr : forall m, w_trace w2 ++ rounds key m = w_trace w ++ rounds key (S m)).
    { intros m. unfold w2. simpl. rewrite rounds_S, <- !app_assoc. reflexivity. }
    assert (Hstop : forall text : jstring,
      exists o m, m <= S n
        /\ (Ret (Some text), w2)
           = (Ret o, mkWorld (w_store w) (w_uuids w) (w_trace w ++ rounds key m))).
    { intros text. exists (Some text), 1. split; [lia|].
      rewrite <- (Htr 0). unfold rounds. simpl. rewrite app_nil_r. reflexivity. }
    assert (Hgo :
      exists o m, m <= S n
        /\ Planning.poll env key n (S i) w2
           = (Ret o, mkWorld (w_store w) (w_uuids w) (w_trace w ++ rounds key m))).
    { destruct (IH (S i) w2) as (o & m & Hm & E).
      exists o, (S m). split; [lia|]. rewrite E, Htr. reflexivity. }
    destruct (history env i) as [messages|]; simpl; fold w2.
    + destruct (Planning.last_assistant (Planning.assistant_messages messages))
        as [lastAssistant|]; [apply Hstop | apply Hgo].
    + apply Hgo.
Qed.

(** When no round shows an assistant message the poll runs all its
    rounds and finds nothing. *)
Lemma poll_unseen env key attempts :
  forall i w,
    (forall j, j < attempts -> seen env (i + j) = None) ->
    Planning.poll env key attempts i w
    = (Ret None,
       mkWorld (w_store w) (w_uuids w) (w_trace w ++ rounds key attempts)).
Proof.
  induction attempts as [|n IH]; intros i w H.
  - simpl. rewrite app_nil_r. destruct w; reflexivity.
  - cbn [Planning.poll]. unfold Planning.getMessagesFromOpenClaw. simpl.
    pose proof (H 0 ltac:(lia)) as H0. rewrite Nat.add_0_r in H0.
    unfold seen in H0.
    assert (Hrest : forall j, j < n -> seen env (S i + j) = None).
    { intros j Hj. specialize (H (S j) ltac:(lia)).
      now rewrite Nat.add_succ_r in H. }
    destruct (history env i) as [messages|]; simpl; rewrite ?H0;
      rewrite (IH (S i)) by assumption; simpl;
      rewrite rounds_S, <- !app_assoc; reflexivity.
Qed.

#[local] Arguments Planning.poll : simpl never.
#[local] Opaque extractJSON.
#[local] Arguments truthy : simpl never.
#[local] Arguments has_prop : simpl never.
#[local] Arguments task_by_id : simpl never.
#[local] Arguments start_task_planning : simpl never.
#[local] Arguments update_planning_messages : simpl never.
#[local] Arguments rounds : simpl never.
#[local] Arguments Planning.messages_json : simpl never.

Ltac close_with pre m :=
  exists pre, m; split;
  [ change (rounds ?k 0) with (@nil effect); simpl;
    rewrite <- ?app_assoc; simpl; rewrite ?app_nil_r; reflexivity
  | split; [unfold Planning.poll_attempts; lia | reflexivity] ].

(** C8.  Starting a planning session always returns: the wait for a
    reply is at most [poll_attempts] rounds, each a pause of
    [poll_interval] milliseconds followed by one transcript request, and
    the handler makes no other pause or transcript request.  When the
    task exists, planning has not started, the gateway accepts the
    prompt and none of the rounds shows an assistant message, all rounds
    are run and the answer is a 200 that carries the still-waiting note
    and no error. *)
Theorem planning_wait_bounded rt env taskId w :
  let key := Planning.PLANNING_SESSION_PREFIX ++ taskId in
  let result := Planning.POST rt env taskId w in
  (exists pre m,
     w_trace (snd result) = w_trace w ++ pre ++ rounds key m
     /\ m <= Planning.poll_attempts
     /\ forallb (fun e => negb (is_poll_effect e)) pre = true)
  /\ (forall task,
        task_by_id taskId (w_store w) = Some task ->
        cell_truthy (t_planning_session_key task) = false ->
        isConnected env = true \/ connect_ok env = true ->
        send_ok env = true ->
        (forall i, i < Planning.poll_attempts -> seen env i = None) ->
        let prompt := planningPrompt rt task in
        let messages := [mkPlanningMessage (lit "user") prompt (date_now env 1)] in
        result
        = (mkResponse 200
             (JObj [field "success" (JBool true);
                    field "sessionKey" (JStr key);
                    field "messages" (Planning.messages_json messages);
                    field "note" (jtext
                      "Planning started, waiting for response. Poll GET endpoint for updates.")]),
           mkWorld (start_task_planning key messages taskId (w_store w))
             (w_uuids w)
             (w_trace w
              ++ (if isConnected env then [] else [Connect])
              ++ [ChatSend key prompt
                    (lit "planning-start-" ++ taskId ++ lit "-"
                     ++ decimal (date_now env 0))]
              ++ rounds key Planning.poll_attempts))).
Proof.
  intros key result. split.
  - subst result. unfold Planning.POST, Planning.POST_body, handle. simpl.
    fold key.
    destruct (task_by_id taskId (w_store w)) as [task|]; simpl;
      [|close_with (@nil effect) 0].
    destruct (cell_truthy (t_planning_session_key task)); simpl;
      [close_with (@nil effect) 0|].
    unfold ensure_connected.
    destruct (isConnected env); simpl;
      [|destruct (connect_ok env); simpl; [|close_with [Connect] 0]];
      (destruct (send_ok env); simpl;
       [|first [ close_with [Connect; ChatSend key (planningPrompt rt task)
                               (lit "planning-start-" ++ taskId ++ lit "-"
                                ++ decimal (date_now env 0))] 0
               | close_with [ChatSend key (planningPrompt rt task)
                               (lit "planning-start-" ++ taskId ++ lit "-"
                                ++ decimal (date_now env 0))] 0 ]]);
      match goal with
      | |- context [Planning.poll env ?k ?n ?i ?w1] =>
          destruct (poll_returns env k n i w1) as (o & m & Hm & E);
          rewrite E; simpl
      end;
      (destruct o as [[|c r]|]; simpl;
       [ | destruct (truthy (extractJSON (c :: r))); simpl;
           [destruct (has_prop (lit "question") (extractJSON (c :: r)))
              as [[|]|]; simpl|] | ]);
      first [ exists [Connect; ChatSend key (planningPrompt rt task)
                               (lit "planning-start-" ++ taskId ++ lit "-"
                                ++ decimal (date_now env 0))], m;
              (split; [rewrite <- ?app_assoc; reflexivity
                      | split; [exact Hm | reflexivity]])
            | exists [ChatSend key (planningPrompt rt task)
                               (lit "planning-start-" ++ taskId ++ lit "-"
                                ++ decimal (date_now env 0))], m;
              (split; [rewrite <- ?app_assoc; reflexivity
                      | split; [exact Hm | reflexivity]]) ].
  - intros task Htask Hkey Hconn Hsend Hseen prompt messages.
    subst result. unfold Planning.POST, Planning.POST_body, handle. simpl.
    rewrite Htask. simpl. rewrite Hkey. simpl.
    unfold ensure_connected.
    assert (Hpoll : forall w1,
      Planning.poll env key Planning.poll_attempts 0 w1
      = (Ret None,
         mkWorld (w_store w1) (w_uuids w1)
           (w_trace w1 ++ rounds key Planning.poll_attempts))).
    { intros w1. apply poll_unseen. intros j Hj. now apply Hseen. }
    destruct (isConnected env); simpl.
    + rewrite Hsend. simpl.
      match goal with
      | |- context [Planning.poll env ?k ?n ?i ?w1] =>
          change (Planning.poll env k n i w1)
            with (Planning.poll env key Planning.poll_attempts 0 w1)
      end.
      rewrite Hpoll. simpl. rewrite <- !app_assoc. reflexivity.
    + destruct Hconn as [Hc|Hc]; [discriminate|]. rewrite Hc. simpl.
      rewrite Hsend. simpl.
      match goal with
      | |- context [Planning.poll env ?k ?n ?i ?w1] =>
          change (Planning.poll env k n i w1)
            with (Planning.poll env key Planning.poll_attempts 0 w1)
      end.
      rewrite Hpoll. simpl. rewrite <- !app_assoc. reflexivity.
Qed.

Lemma planning_wait_bounded_witness :
  exists w',
    Planning.POST rt0 env0 (lit "T1") (world_of st_unlinked)
    = (mkResponse 200
         (JObj [field "success" (JBool true);
                field "sessionKey" (JStr (lit "agent:main:planning:T1"));
                field "messages"
                  (Planning.messages_json
                     [mkPlanningMessage (lit "user")
                        (lit "PLANNING REQUEST: Build auth") 1001]);
                field "note" (jtext
                  "Planning started, waiting for response. Poll GET endpoint for updates.")]),
       w')
    /\ length (filter is_poll_effect (w_trace w')) = 2 * Planning.poll_attempts.
Proof.
  eexists. split.
  - refine (proj2 (planning_wait_bounded rt0 env0 (lit "T1") (world_of st_unlinked))
              (task_of "T1" "inbox" "A" "2026-02-02T00:00:00.000Z") _ _ _ _ _).
    + reflexivity.
    + reflexivity.
    + right. reflexivity.
    + reflexivity.
    + intros i _. reflexivity.
  - vm_compute. reflexivity.
Defined.

End PlanningProps.

(* ================================================================== *)
(** * What every handler keeps *)
(* ================================================================== *)

Module Frames.

Import Facts Statements HandlerFacts Invariants.

#[local] Arguments sql_text : simpl never.

Section WorldStable.

Variable I : world -> Prop.

Lemma ws_ret A (a : A) : world_stable I (ret a).
Proof. intros w H. exact H. Qed.

Lemma ws_reply A (r : Response) : world_stable I (@reply A r).
Proof. intros w H. exact H. Qed.

Lemma ws_throw A (f : fault) : world_stable I (@throw A f).
Proof. intros w H. exact H. Qed.

Lemma ws_query A (q : store -> A) : world_stable I (query q).
Proof. intros w H. exact H. Qed.

Lemma ws_bind A B (m : M A) (k : A -> M B) :
  world_stable I m -> (forall a, world_stable I (k a)) ->
  world_stable I (bind m k).
Proof.
  intros Hm Hk w H. unfold bind. specialize (Hm w H).
  destruct (m w) as [[a|r|f] w']; simpl in *; auto.
  apply Hk. exact Hm.
Qed.

Lemma ws_catch A (m : M A) (h : fault -> M A) :
  world_stable I m -> (forall f, world_stable I (h f)) ->
  world_stable I (catch m h).
Proof.
  intros Hm Hh w H. unfold catch. specialize (Hm w H).
  destruct (m w) as [[a|r|f] w']; simpl in *; auto.
  apply Hh. exact Hm.
Qed.

Lemma ws_or_reply A (o : option A) (r : Response) : world_stable I (or_reply o r).
Proof. destruct o; [apply ws_ret | apply ws_reply]. Qed.

Lemma ws_read (v : json) (k : string) : world_stable I (read v k).
Proof. unfold read. destruct (prop v (lit k)); [apply ws_ret | apply ws_throw]. Qed.

Lemma ws_bind_param (rt : Runtime) (v : option json) :
  world_stable I (bind_param rt v).
Proof.
  unfold bind_param.
  destruct v as [[| | | | |]|]; try apply ws_ret;
    destruct (bind_other rt _); try apply ws_ret; apply ws_throw.
Qed.

Lemma ws_for_each A (f : A -> M unit) (l : list A) :
  (forall a, world_stable I (f a)) ->
  world_stable I (Completion.for_each f l).
Proof.
  intros Hf. induction l as [|x l IH]; simpl.
  - apply ws_ret.
  - apply ws_bind; auto.
Qed.

Lemma ws_run_sql (f : store -> store) :
  (forall w, I w -> I (mkWorld (f (w_store w)) (w_uuids w) (w_trace w))) ->
  world_stable I (run_sql f).
Proof. intros Hf w H. simpl. auto. Qed.

Lemma ws_emit (e : effect) :
  (forall w, I w -> I (mkWorld (w_store w) (w_uuids w) (w_trace w ++ [e]))) ->
  world_stable I (emit e).
Proof. intros He w H. simpl. auto. Qed.

Lemma ws_fresh_uuid (env : Env) :
  (forall w, I w -> I (mkWorld (w_store w) (S (w_uuids w)) (w_trace w))) ->
  world_stable I (fresh_uuid env).
Proof. intros Hu w H. simpl. auto. Qed.

Lemma ws_handle (on_error : fault -> Response) (m : M Response) :
  world_stable I m -> forall w, I w -> I (snd (handle on_error m w)).
Proof.
  intros Hm w H. unfold handle. specialize (Hm w H).
  destruct (m w) as [[r|r|f] w']; exact Hm.
Qed.

End WorldStable.

(** Walks through a handler; [close] settles what a statement, an
    effect or a drawn identifier does to the property. *)
Ltac ws_walk close :=
  repeat (first
    [ apply ws_bind; [|intros ?]
    | apply ws_catch; [|intros ?]
    | apply ws_for_each; intros ?
    | apply ws_ret | apply ws_reply | apply ws_throw | apply ws_query
    | apply ws_or_reply | apply ws_read | apply ws_bind_param
    | apply ws_run_sql; close
    | apply ws_emit; close
    | apply ws_fresh_uuid; close
    | match goal with
      | |- world_stable _ (if ?b then _ else _) => destruct b
      | |- world_stable _ (match ?x with _ => _ end) => destruct x
      | |- world_stable _ (let _ := _ in _) => cbv zeta
      end ]).

Lemma extends_refl A (l : list A) : extends l l.
Proof. exists []. now rewrite app_nil_r. Qed.

Lemma extends_snoc A (l l' : list A) (x : A) : extends l l' -> extends l (l' ++ [x]).
Proof. intros [more ->]. exists (more ++ [x]). now rewrite app_assoc. Qed.

Lemma logs_extend_refl (st : store) : logs_extend st st.
Proof. repeat split; apply extends_refl. Qed.

Ltac close_logs :=
  let w := fresh "w" in
  let E := fresh "E" in let A := fresh "A" in let D := fresh "D" in
  intros w (E & A & D);
  repeat split;
  first [ assumption
        | apply extends_snoc; assumption ].

Section Logs.

Variable st0 : store.

Let I := fun w : world => logs_extend st0 (w_store w).

Lemma poll_logs env key attempts i :
  world_stable I (Planning.poll env key attempts i).
Proof.
  revert i. induction attempts as [|n IH]; intros i; cbn [Planning.poll].
  - apply ws_ret.
  - unfold Planning.getMessagesFromOpenClaw. ws_walk close_logs. apply IH.
Qed.

Lemma dispatch_logs rt env id : world_stable I (Dispatch.POST_body rt env id).
Proof.
  unfold Dispatch.POST_body, ensure_connected. ws_walk close_logs.
Qed.

Lemma link_logs rt env id text : world_stable I (OpenClawLink.POST_body rt env id text).
Proof.
  unfold OpenClawLink.POST_body, OpenClawLink.POST_check,
    OpenClawLink.POST_gateway, OpenClawLink.POST_store, ensure_connected. ws_walk close_logs.
Qed.

Lemma unlink_logs env id : world_stable I (OpenClawLink.DELETE_body env id).
Proof. unfold OpenClawLink.DELETE_body. ws_walk close_logs. Qed.

Lemma planning_logs rt env id : world_stable I (Planning.POST_body rt env id).
Proof.
  unfold Planning.POST_body, ensure_connected.
  ws_walk close_logs; try apply poll_logs; ws_walk close_logs.
Qed.

Lemma completion_logs rt env signature raw :
  world_stable I (Completion.POST_body rt env signature raw).
Proof.
  unfold Completion.POST_body, Completion.check_signature, Completion.process,
    Completion.direct, Completion.legacy, Completion.register_deliverables,
    Completion.log_completion, Completion.deliverables_of,
    Completion.register_deliverable.
  ws_walk close_logs.
Qed.

Lemma planning_get_logs env columns id :
  world_stable I (PlanningGet.GET_body env columns id).
Proof.
  unfold PlanningGet.GET_body, PlanningGet.question_of, PlanningGet.parse_column,
    Planning.getMessagesFromOpenClaw.
  ws_walk close_logs.
Qed.

Lemma link_get_logs id : world_stable I (OpenClawLinkGet.GET_body id).
Proof. unfold OpenClawLinkGet.GET_body. ws_walk close_logs. Qed.

End Logs.

(** X1.  The three logs are append-only under every handler: whatever
    the request and however the handler ends, the events, activities
    and deliverables it leaves are those it found, with rows added at
    the end. *)
Theorem logs_are_append_only rt env columns id text signature raw w :
  logs_extend (w_store w) (w_store (snd (Dispatch.POST rt env id w)))
  /\ logs_extend (w_store w) (w_store (snd (OpenClawLink.POST rt env id text w)))
  /\ logs_extend (w_store w) (w_store (snd (OpenClawLink.DELETE env id w)))
  /\ logs_extend (w_store w) (w_store (snd (Planning.POST rt env id w)))
  /\ logs_extend (w_store w) (w_store (snd (Completion.POST rt env signature raw w)))
  /\ logs_extend (w_store w) (w_store (snd (PlanningGet.GET env columns id w)))
  /\ logs_extend (w_store w) (w_store (snd (OpenClawLinkGet.GET id w))).
Proof.
  pose proof (logs_extend_refl (w_store w)) as H.
  unfold Dispatch.POST, OpenClawLink.POST, OpenClawLink.DELETE, Planning.POST,
    Completion.POST, PlanningGet.GET, OpenClawLinkGet.GET.
  split; [|split; [|split; [|split; [|split; [|split]]]]];
    (apply (@ws_handle (fun w1 => logs_extend (w_store w) (w_store w1)));
     [|exact H]).
  - apply dispatch_logs.
  - apply link_logs.
  - apply unlink_logs.
  - apply planning_logs.
  - apply completion_logs.
  - apply planning_get_logs.
  - apply link_get_logs.
Qed.

Ltac close_same := let w := fresh "w" in let H := fresh "H" in intros w H; exact H.

Lemma poll_store env key attempts i (st : store) :
  world_stable (fun w => w_store w = st) (Planning.poll env key attempts i).
Proof.
  revert i. induction attempts as [|n IH]; intros i; cbn [Planning.poll].
  - apply ws_ret.
  - unfold Planning.getMessagesFromOpenClaw. ws_walk close_same. apply IH.
Qed.

Lemma completion_frame rt env signature raw w :
  let w' := snd (Completion.POST rt env signature raw w) in
  sessions (w_store w') = sessions (w_store w) /\ w_trace w' = w_trace w.
Proof.
  unfold Completion.POST.
  apply (@ws_handle (fun w1 => sessions (w_store w1) = sessions (w_store w)
                               /\ w_trace w1 = w_trace w));
    [|split; reflexivity].
  unfold Completion.POST_body, Completion.check_signature, Completion.process,
    Completion.direct, Completion.legacy, Completion.register_deliverables,
    Completion.log_completion, Completion.deliverables_of,
    Completion.register_deliverable.
  ws_walk close_same.
Qed.

Lemma link_post_frame rt env id text w :
  let w' := snd (OpenClawLink.POST rt env id text w) in
  tasks (w_store w') = tasks (w_store w) /\ agents (w_store w') = agents (w_store w)
  /\ activities (w_store w') = activities (w_store w)
  /\ deliverables (w_store w') = deliverables (w_store w).
Proof.
  unfold OpenClawLink.POST.
  apply (@ws_handle (fun w1 => tasks (w_store w1) = tasks (w_store w)
                               /\ agents (w_store w1) = agents (w_store w)
                               /\ activities (w_store w1) = activities (w_store w)
                               /\ deliverables (w_store w1) = deliverables (w_store w)));
    [|repeat split].
  unfold OpenClawLink.POST_body, OpenClawLink.POST_check,
    OpenClawLink.POST_gateway, OpenClawLink.POST_store, ensure_connected. ws_walk close_same.
Qed.

Lemma link_delete_frame env id w :
  let w' := snd (OpenClawLink.DELETE env id w) in
  tasks (w_store w') = tasks (w_store w) /\ agents (w_store w') = agents (w_store w)
  /\ activities (w_store w') = activities (w_store w)
  /\ deliverables (w_store w') = deliverables (w_store w).
Proof.
  unfold OpenClawLink.DELETE.
  apply (@ws_handle (fun w1 => tasks (w_store w1) = tasks (w_store w)
                               /\ agents (w_store w1) = agents (w_store w)
                               /\ activities (w_store w1) = activities (w_store w)
                               /\ deliverables (w_store w1) = deliverables (w_store w)));
    [|repeat split].
  unfold OpenClawLink.DELETE_body. ws_walk close_same.
Qed.

Lemma planning_frame rt env id w :
  let w' := snd (Planning.POST rt env id w) in
  agents (w_store w') = agents (w_store w)
  /\ sessions (w_store w') = sessions (w_store w)
  /\ events (w_store w') = events (w_store w)
  /\ activities (w_store w') = activities (w_store w)
  /\ deliverables (w_store w') = deliverables (w_store w).
Proof.
  unfold Planning.POST.
  apply (@ws_handle (fun w1 => agents (w_store w1) = agents (w_store w)
                               /\ sessions (w_store w1) = sessions (w_store w)
                               /\ events (w_store w1) = events (w_store w)
                               /\ activities (w_store w1) = activities (w_store w)
                               /\ deliverables (w_store w1) = deliverables (w_store w)));
    [|repeat split].
  unfold Planning.POST_body, ensure_connected.
  ws_walk close_same;
    try (intros w0 H0;
         pose proof (@poll_store env _ Planning.poll_attempts 0 (w_store w0) w0 eq_refl)
           as P;
         cbv beta in P; rewrite P; exact H0);
    ws_walk close_same.
Qed.

Lemma dispatch_frame rt env id w :
  deliverables (w_store (snd (Dispatch.POST rt env id w))) = deliverables (w_store w).
Proof.
  unfold Dispatch.POST.
  apply (@ws_handle (fun w1 => deliverables (w_store w1) = deliverables (w_store w)));
    [|reflexivity].
  unfold Dispatch.POST_body, ensure_connected. ws_walk close_same.
Qed.

Lemma link_get_frame id w : snd (OpenClawLinkGet.GET id w) = w.
Proof.
  unfold OpenClawLinkGet.GET, OpenClawLinkGet.GET_body, handle. simpl.
  destruct (agent_by_id id (w_store w)); simpl; [|reflexivity].
  destruct (active_session_of id (w_store w)); reflexivity.
Qed.

Lemma planning_get_frame env columns id w :
  let w' := snd (PlanningGet.GET env columns id w) in
  agents (w_store w') = agents (w_store w)
  /\ sessions (w_store w') = sessions (w_store w)
  /\ events (w_store w') = events (w_store w)
  /\ activities (w_store w') = activities (w_store w)
  /\ deliverables (w_store w') = deliverables (w_store w).
Proof.
  unfold PlanningGet.GET.
  apply (@ws_handle (fun w1 => agents (w_store w1) = agents (w_store w)
                               /\ sessions (w_store w1) = sessions (w_store w)
                               /\ events (w_store w1) = events (w_store w)
                               /\ activities (w_store w1) = activities (w_store w)
                               /\ deliverables (w_store w1) = deliverables (w_store w)));
    [|repeat split].
  unfold PlanningGet.GET_body, PlanningGet.question_of, PlanningGet.parse_column,
    Planning.getMessagesFromOpenClaw.
  ws_walk close_same.
Qed.

(** X2.  What each handler never writes.  The completion webhook leaves
    the sessions alone and does nothing outside the store (no gateway
    call, pause or broadcast); the link routes leave tasks, agents,
    activities and deliverables alone; starting a planning session
    leaves agents, sessions and the three logs alone; a dispatch writes
    no deliverable; reading the link changes nothing at all, and
    reading the planning state leaves everything but the tasks alone. *)
Theorem handlers_write_only_their_tables rt env columns id text signature raw w :
  let st := w_store w in
  (let w' := snd (Completion.POST rt env signature raw w) in
   sessions (w_store w') = sessions st /\ w_trace w' = w_trace w)
  /\ (let w' := snd (OpenClawLink.POST rt env id text w) in
      tasks (w_store w') = tasks st /\ agents (w_store w') = agents st
      /\ activities (w_store w') = activities st
      /\ deliverables (w_store w') = deliverables st)
  /\ (let w' := snd (OpenClawLink.DELETE env id w) in
      tasks (w_store w') = tasks st /\ agents (w_store w') = agents st
      /\ activities (w_store w') = activities st
      /\ deliverables (w_store w') = deliverables st)
  /\ (let w' := snd (Planning.POST rt env id w) in
      agents (w_store w') = agents st /\ sessions (w_store w') = sessions st
      /\ events (w_store w') = events st
      /\ activities (w_store w') = activities st
      /\ deliverables (w_store w') = deliverables st)
  /\ deliverables (w_store (snd (Dispatch.POST rt env id w))) = deliverables st
  /\ snd (OpenClawLinkGet.GET id w) = w
  /\ (let w' := snd (PlanningGet.GET env columns id w) in
      agents (w_store w') = agents st /\ sessions (w_store w') = sessions st
      /\ events (w_store w') = events st
      /\ activities (w_store w') = activities st
      /\ deliverables (w_store w') = deliverables st).
Proof.
  intros st. subst st.
  split; [apply completion_frame|].
  split; [apply link_post_frame|].
  split; [apply link_delete_frame|].
  split; [apply planning_frame|].
  split; [apply dispatch_frame|].
  split; [apply link_get_frame|apply planning_get_frame].
Qed.

(** ** At most one active session per agent *)

Lemma find_none_filter A (p : A -> bool) (l : list A) :
  find p l = None -> filter p l = [].
Proof.
  induction l as [|x l IH]; simpl; [reflexivity|].
  destruct (p x); [discriminate|exact IH].
Qed.

Lemma active_session_of_filter (id : jstring) (st : store) :
  active_session_of id st
  = hd_error (filter (is_active_session_of id) (sessions st)).
Proof.
  unfold active_session_of, is_active_session_of.
  induction (sessions st) as [|x l IH]; simpl; [reflexivity|].
  destruct (_ && _); [reflexivity|exact IH].
Qed.

Lemma one_active_insert (st : store) (s : Session) :
  at_most_one_active st ->
  active_session_of (s_agent_id s) st = None ->
  forall st', sessions st' = sessions st ++ [s] -> at_most_one_active st'.
Proof.
  intros H Hnone st' E agent. rewrite E, filter_app, length_app. simpl.
  destruct (is_active_session_of agent s) eqn:Es; simpl; [|specialize (H agent); lia].
  unfold is_active_session_of in Es. apply andb_true_iff in Es as [Ea _].
  apply str_eqb_eq in Ea. subst agent.
  rewrite active_session_of_filter in Hnone.
  destruct (filter (is_active_session_of (s_agent_id s)) (sessions st));
    [simpl; lia|discriminate].
Qed.

Lemma one_active_deactivate (st : store) (now id : jstring) :
  at_most_one_active st ->
  at_most_one_active (update_session_status (lit "inactive") now id st).
Proof.
  intros H agent. specialize (H agent).
  unfold update_session_status, set_sessions. simpl.
  eapply Nat.le_trans; [|exact H]. clear H.
  induction (sessions st) as [|x l IH]; simpl; [lia|].
  destruct (str_eqb (s_id x) id).
  - assert (is_active_session_of agent
              (mkSession (s_id x) (s_agent_id x) (s_openclaw_session_id x)
                 (s_channel x) (lit "inactive") (s_created_at x) now) = false) as ->.
    { unfold is_active_session_of. simpl. apply andb_false_r. }
    destruct (is_active_session_of agent x); simpl; lia.
  - destruct (is_active_session_of agent x); simpl; lia.
Qed.

Lemma one_active_same (st st' : store) :
  sessions st' = sessions st -> at_most_one_active st -> at_most_one_active st'.
Proof. intros E H agent. rewrite E. apply H. Qed.

(** Case analysis on the innermost test of the goal. *)
Ltac split_case :=
  match goal with
  | |- context [match ?x with _ => _ end] =>
      lazymatch x with
      | context [match _ with _ => _ end] => fail
      | _ => destruct x eqn:?
      end
  end.

#[local] Arguments str_eqb : simpl never.
#[local] Arguments task_by_id : simpl never.
#[local] Arguments agent_by_id : simpl never.
#[local] Arguments active_session_of : simpl never.
#[local] Arguments session_by_id : simpl never.
#[local] Arguments other_orchestrators : simpl never.
#[local] Arguments update_task_status : simpl never.
#[local] Arguments update_agent_status : simpl never.
#[local] Arguments update_session_status : simpl never.
#[local] Arguments Dispatch.conflict_body : simpl never.
#[local] Arguments derived_session_id : simpl never.
#[local] Opaque JSON_parse.

Lemma agent_by_id_id (id : jstring) (st : store) (a : Agent) :
  agent_by_id id st = Some a -> a_id a = id.
Proof.
  unfold agent_by_id. intros H. apply find_some in H as [_ H].
  now apply str_eqb_eq.
Qed.

(** A dispatch leaves the sessions as they were, or adds one active
    session for an agent that had none. *)
Lemma dispatch_sessions rt env id w :
  let st := w_store w in
  let st' := w_store (snd (Dispatch.POST rt env id w)) in
  sessions st' = sessions st
  \/ exists s, active_session_of (s_agent_id s) st = None
               /\ sessions st' = sessions st ++ [s].
Proof.
  unfold Dispatch.POST, Dispatch.POST_body, handle, ensure_connected, or_reply.
  simpl.
  repeat (split_case; simpl); try (left; reflexivity);
    right; eexists; (split; [|reflexivity]); simpl; assumption.
Qed.

(** Linking does the same. *)
Lemma link_sessions rt env id text w :
  let st := w_store w in
  let st' := w_store (snd (OpenClawLink.POST rt env id text w)) in
  sessions st' = sessions st
  \/ exists s, active_session_of (s_agent_id s) st = None
               /\ sessions st' = sessions st ++ [s].
Proof.
  unfold OpenClawLink.POST, OpenClawLink.POST_body, OpenClawLink.POST_check,
    OpenClawLink.POST_gateway, OpenClawLink.POST_store, handle, ensure_connected,
    read, bind_param, or_reply. simpl.
  repeat (split_case; simpl); try (left; reflexivity);
    right; eexists; (split; [|reflexivity]); simpl; assumption.
Qed.

(** Unlinking leaves the sessions as they were or deactivates by id. *)
Lemma unlink_sessions env id w :
  let st := w_store w in
  let st' := w_store (snd (OpenClawLink.DELETE env id w)) in
  sessions st' = sessions st
  \/ exists sid, sessions st'
                 = sessions (update_session_status (lit "inactive") (now env) sid st).
Proof.
  unfold OpenClawLink.DELETE, OpenClawLink.DELETE_body, handle, or_reply. simpl.
  repeat (split_case; simpl); try (left; reflexivity).
  right. eexists. reflexivity.
Qed.

End Frames.

(* ================================================================== *)
(** * What a dispatch does *)
(* ================================================================== *)

Module DispatchEffects.

Import Facts Statements HandlerFacts Invariants Frames Samples.

#[local] Arguments sql_text : simpl never.

#[local] Arguments str_eqb : simpl never.
#[local] Arguments task_by_id : simpl never.
#[local] Arguments agent_by_id : simpl never.
#[local] Arguments active_session_of : simpl never.
#[local] Arguments session_by_id : simpl never.
#[local] Arguments other_orchestrators : simpl never.
#[local] Arguments update_task_status : simpl never.
#[local] Arguments update_agent_status : simpl never.
#[local] Arguments Dispatch.conflict_body : simpl never.
#[local] Arguments derived_session_id : simpl never.

Lemma agent_by_id_update (status now id : jstring) (st : store) (a : Agent) :
  agent_by_id id st = Some a ->
  agent_by_id id (update_agent_status status now id st)
  = Some (mkAgent (a_id a) (a_name a) (a_role a) (a_is_master a) status
            (a_workspace_id a) now).
Proof.
  unfold agent_by_id, update_agent_status, set_agents. simpl.
  induction (agents st) as [|x l IH]; simpl; [discriminate|].
  destruct (str_eqb (a_id x) id) eqn:E; simpl.
  - rewrite E. now intros [= ->].
  - rewrite E. exact IH.
Qed.

Lemma agent_by_id_agents (id : jstring) (st st' : store) :
  agents st = agents st' -> agent_by_id id st = agent_by_id id st'.
Proof. unfold agent_by_id. now intros ->. Qed.

Lemma active_session_of_sessions (id : jstring) (st st' : store) :
  sessions st = sessions st' -> active_session_of id st = active_session_of id st'.
Proof. unfold active_session_of. now intros ->. Qed.

Lemma session_by_id_inserted (s : Session) (st : store) :
  exists s', session_by_id (s_id s) (insert_session s st) = Some s'
             /\ In s' (sessions st ++ [s]) /\ s_id s' = s_id s.
Proof.
  unfold session_by_id, insert_session, set_sessions. simpl.
  destruct (find (fun x => str_eqb (s_id x) (s_id s)) (sessions st ++ [s]))
    as [s'|] eqn:E.
  - exists s'. split; [reflexivity|]. apply find_some in E as [Hin E].
    split; [assumption|now apply str_eqb_eq].
  - exfalso. eapply find_none with (x := s) in E.
    + now rewrite str_eqb_refl in E.
    + apply in_or_app. right. now left.
Qed.

Lemma active_session_inserted (s : Session) (st : store) :
  s_status s = lit "active" ->
  active_session_of (s_agent_id s) (insert_session s st) <> None.
Proof.
  intros Hs E. unfold active_session_of, insert_session, set_sessions in E.
  simpl in E. eapply find_none with (x := s) in E.
  - now rewrite Hs, !str_eqb_refl in E.
  - apply in_or_app. right. now left.
Qed.

(** Steps a dispatchable task through the checks of the handler. *)
Ltac past_checks H w task agent :=
  let Htask := fresh "Htask" in let Hassigned := fresh "Hassigned" in
  let Hne := fresh "Hne" in let Hagent := fresh "Hagent" in
  let Hsolo := fresh "Hsolo" in let Hpass := fresh "Hpass" in
  let c := fresh "c" in let r := fresh "r" in let Eid := fresh "Eid" in
  destruct H as (Htask & Hassigned & Hne & Hagent & Hsolo);
  unfold Dispatch.POST, Dispatch.POST_body, handle, ensure_connected; simpl;
  rewrite Htask; simpl; rewrite Hassigned;
  destruct (a_id agent) as [|c r] eqn:Eid; [contradiction|]; simpl;
  rewrite Hagent; simpl; rewrite ?Eid;
  assert (Hpass :
    (if a_is_master agent
     then match other_orchestrators (c :: r) (t_workspace_id task) (w_store w) with
          | [] => true | _ :: _ => false end
     else true) = true)
    by (destruct Hsolo as [->|Hsolo]; [|rewrite Hsolo; destruct (a_is_master agent)];
        reflexivity);
  clear Hsolo;
  destruct (a_is_master agent) eqn:?; simpl;
    [destruct (other_orchestrators (c :: r) (t_workspace_id task) (w_store w));
       [|discriminate]|]; simpl; clear Hpass.

(** X5.  When the gateway is not connected and refuses the connection,
    a dispatch that passed its checks answers 503, and the connection
    attempt is all it did: no table changed, no identifier was drawn,
    nothing was sent. *)
Theorem dispatch_gateway_down rt env id w task agent :
  dispatchable id (w_store w) task agent ->
  isConnected env = false -> connect_ok env = false ->
  Dispatch.POST rt env id w
  = (mkResponse 503 (error_body "Failed to connect to OpenClaw Gateway"),
     mkWorld (w_store w) (w_uuids w) (w_trace w ++ [Connect])).
Proof.
  intros H Hc Hk. past_checks H w task agent; rewrite Hc, Hk; reflexivity.
Qed.

(** X6.  When the gateway rejects the message, the dispatch answers
    500 and the task, the agent and the activities are as before.  With
    a session that existed the whole store is unchanged; a session
    created for this dispatch stays, with its creation event: what was
    written before the send is not undone. *)
Theorem dispatch_send_failure rt env id w task agent :
  dispatchable id (w_store w) task agent ->
  reachable env -> send_ok env = false ->
  let st := w_store w in
  let r := Dispatch.POST rt env id w in
  let st' := w_store (snd r) in
  fst r = Dispatch.internal_error
  /\ tasks st' = tasks st /\ agents st' = agents st
  /\ activities st' = activities st
  /\ (forall s, active_session_of (a_id agent) st = Some s -> st' = st)
  /\ (active_session_of (a_id agent) st = None ->
      exists s e, sessions st' = sessions st ++ [s]
                  /\ s_agent_id s = a_id agent /\ s_status s = lit "active"
                  /\ s_openclaw_session_id s
                     = Some (derived_session_id rt (a_name agent))
                  /\ events st' = events st ++ [e]).
Proof.
  intros H Hreach Hsend. past_checks H w task agent.
  all: destruct Hreach as [Hc|Hk];
    [rewrite Hc|destruct (isConnected env); simpl; [|rewrite Hk]]; simpl.
  all: destruct (active_session_of (c :: r) (w_store w)) as [s0|] eqn:Es; simpl;
    [|match goal with
      | |- context [session_by_id _ (insert_session ?s ?st)] =>
          let E := fresh "E" in
          destruct (session_by_id_inserted s st) as (s' & E & _);
          simpl in E; rewrite E
      end; simpl];
    rewrite Hsend; simpl.
  all: repeat split; try reflexivity; try discriminate.
  all: intros _; do 2 eexists; repeat split; reflexivity.
Qed.

(** X7.  What a dispatch that goes through does.  The answer is 200;
    the agent is working; it has an active session, the one it had or a
    new one whose key is derived from its name; exactly one message is
    sent, to that session's key, after the connection attempt if one
    was needed, and the task as stored afterwards is broadcast; one
    dispatch event and one activity are appended, after the creation
    event of a new session. *)
Theorem dispatch_success rt env id w task agent :
  dispatchable id (w_store w) task agent ->
  reachable env -> send_ok env = true ->
  let st := w_store w in
  let r := Dispatch.POST rt env id w in
  let st' := w_store (snd r) in
  status (fst r) = 200
  /\ agent_by_id (a_id agent) st'
     = Some (mkAgent (a_id agent) (a_name agent) (a_role agent)
               (a_is_master agent) (lit "working") (a_workspace_id agent)
               (now env))
  /\ active_session_of (a_id agent) st' <> None
  /\ (exists session task' eventId activityId created,
        In session (sessions st')
        /\ task_by_id id st' = Some task'
        /\ w_trace (snd r)
           = w_trace w ++ connecting env
             ++ [ChatSend
                   (lit "agent:main:" ++ display_cell (s_openclaw_session_id session))
                   (taskMessage rt task)
                   (lit "dispatch-" ++ t_id task ++ lit "-"
                    ++ decimal (date_now env 0));
                 Broadcast (lit "task_updated") task']
        /\ events st'
           = events st ++ created
             ++ [mkEvent eventId (lit "task_dispatched") (Some (a_id agent))
                   (Some (t_id task))
                   (lit "Task " ++ [34%N] ++ t_title task ++ [34%N]
                    ++ lit " dispatched to " ++ a_name agent)
                   (now env)]
        /\ activities st'
           = activities st
             ++ [mkActivity activityId (t_id task) (Some (a_id agent))
                   (lit "status_changed")
                   (Some (lit "Task dispatched to " ++ a_name agent
                          ++ lit " - Agent is now working on this task"))
                   (now env)]
        /\ (forall s, active_session_of (a_id agent) st = Some s ->
              session = s /\ created = [] /\ sessions st' = sessions st)
        /\ (active_session_of (a_id agent) st = None ->
              s_id session = uuid env (w_uuids w)
              /\ length created = 1
              /\ sessions st'
                 = sessions st
                   ++ [mkSession (uuid env (w_uuids w)) (a_id agent)
                         (Some (derived_session_id rt (a_name agent)))
                         (lit "mission-control") (lit "active") (now env)
                         (now env)])).
Proof.
  intros H Hreach Hsend. past_checks H w task agent.
  all: unfold connecting; destruct Hreach as [Hc|Hk];
    [rewrite Hc|destruct (isConnected env); simpl; [|rewrite Hk]]; simpl.
  all: destruct (active_session_of (c :: r) (w_store w)) as [s0|] eqn:Es; simpl;
    [|match goal with
      | |- context [session_by_id _ (insert_session ?s ?st)] =>
          let E := fresh "E" in
          destruct (session_by_id_inserted s st) as (s' & E & Hin & Hid);
          simpl in E; rewrite E
      end; simpl];
    rewrite Hsend; simpl.
  all: match goal with
       | |- context [task_by_id ?i (update_task_status ?s ?n ?i ?st)] =>
           let T := fresh "T" in
           assert (T : task_by_id i st = Some task);
             [rewrite <- Htask; apply task_by_id_tasks; reflexivity|];
           rewrite (@task_by_id_update s n i st task T); clear T
       end; simpl.
  all: split; [reflexivity|].
  all: split;
    [rewrite (@agent_by_id_agents (c :: r) _
                (update_agent_status (lit "working") (now env) (c :: r) (w_store w)))
       by reflexivity;
     rewrite (@agent_by_id_update _ _ _ _ _ Hagent), Eid;
     match goal with Em : a_is_master _ = _ |- _ => rewrite Em end;
     reflexivity|].
  all: lazymatch goal with
       | Es : active_session_of ?a ?st = Some ?s0 |- _ =>
           split;
           [rewrite (@active_session_of_sessions a _ st) by reflexivity;
            rewrite Es; discriminate|];
           exists s0; do 3 eexists; exists []
       | Es : active_session_of ?a ?st = None |- _ =>
           split;
           [match goal with
            | |- context [insert_session ?s st] =>
                rewrite (@active_session_of_sessions a _ (insert_session s st))
                  by reflexivity;
                apply (@active_session_inserted s st); reflexivity
            end|];
           match goal with
           | E : session_by_id _ _ = Some ?s' |- _ => exists s'
           end;
           do 3 eexists; refine (ex_intro _ [_] _)
       end.
  all: repeat match goal with |- _ /\ _ => split end.
  all: try solve [rewrite <- ?app_assoc; reflexivity].
  all: try solve [intros; congruence].
  all: try solve [unfold active_session_of in Es; now apply find_some in Es].
  all: try match goal with
       | |- task_by_id ?i ?big = _ =>
           match big with
           | context [update_task_status ?s ?n i ?st] =>
               rewrite (@task_by_id_tasks i big (update_task_status s n i st))
                 by reflexivity;
               apply task_by_id_update; rewrite <- Htask;
               apply task_by_id_tasks; reflexivity
           end
       end.
  all: try solve [intros ? [= <-]; repeat split].
  all: intros _; repeat split; exact Hid.
Qed.

(** The task and the agent after a dispatch that went through. *)
Lemma dispatch_done rt env id w task agent :
  dispatchable id (w_store w) task agent ->
  reachable env -> send_ok env = true ->
  let r := Dispatch.POST rt env id w in
  let st' := w_store (snd r) in
  status (fst r) = 200
  /\ task_by_id id st'
     = Some (mkTask (t_id task) (t_title task) (t_description task)
               (lit "in_progress") (t_priority task) (t_assigned_agent_id task)
               (t_workspace_id task) (t_due_date task)
               (t_planning_session_key task) (t_planning_messages task)
               (now env))
  /\ agent_by_id (a_id agent) st'
     = Some (mkAgent (a_id agent) (a_name agent) (a_role agent)
               (a_is_master agent) (lit "working") (a_workspace_id agent)
               (now env)).
Proof.
  intros H Hreach Hsend. past_checks H w task agent.
  all: destruct Hreach as [Hc|Hk];
    [rewrite Hc|destruct (isConnected env); simpl; [|rewrite Hk]]; simpl.
  all: destruct (active_session_of (c :: r) (w_store w)) as [s0|] eqn:Es; simpl;
    [|match goal with
      | |- context [session_by_id _ (insert_session ?s ?st)] =>
          let E := fresh "E" in
          destruct (session_by_id_inserted s st) as (s' & E & Hin & Hid);
          simpl in E; rewrite E
      end; simpl];
    rewrite Hsend; simpl.
  all: match goal with
       | |- context [task_by_id ?i (update_task_status ?s ?n ?i ?st)] =>
           let T := fresh "T" in
           assert (T : task_by_id i st = Some task);
             [rewrite <- Htask; apply task_by_id_tasks; reflexivity|];
           pose proof (@task_by_id_update s n i st task T) as Hupdated;
           rewrite Hupdated; clear T
       end; simpl.
  all: split; [reflexivity|].
  all: split;
    [match goal with
     | |- task_by_id ?i ?big = _ =>
         rewrite (@task_by_id_tasks i big
                    (update_task_status (lit "in_progress") (now env) i (w_store w)))
           by reflexivity
     end;
     rewrite (@task_by_id_update _ _ _ _ _ Htask), ?Hassigned; reflexivity
    |rewrite (@agent_by_id_agents (c :: r) _
                (update_agent_status (lit "working") (now env) (c :: r) (w_store w)))
       by reflexivity;
     rewrite (@agent_by_id_update _ _ _ _ _ Hagent), Eid;
     match goal with Em : a_is_master _ = _ |- _ => rewrite Em end;
     reflexivity].
Qed.

(** X4.  The refusals of a dispatch.  The answer is 404 exactly when
    the task is missing or its assigned agent is; 400 exactly when the
    task has no assigned agent (none, or the empty text); 409 exactly
    when the agent is an orchestrator and the task's workspace holds
    another orchestrator that is not offline.  Each of these answers
    leaves the world as it was. *)
Theorem dispatch_client_errors rt env id w :
  let st := w_store w in
  let r := Dispatch.POST rt env id w in
  (status (fst r) = 404 <->
     task_by_id id st = None
     \/ exists task assigned,
          task_by_id id st = Some task
          /\ t_assigned_agent_id task = Some assigned /\ assigned <> []
          /\ agent_by_id assigned st = None)
  /\ (status (fst r) = 400 <->
        exists task,
          task_by_id id st = Some task
          /\ cell_truthy (t_assigned_agent_id task) = false)
  /\ (status (fst r) = 409 <->
        exists task agent,
          task_by_id id st = Some task
          /\ t_assigned_agent_id task = Some (a_id agent) /\ a_id agent <> []
          /\ agent_by_id (a_id agent) st = Some agent
          /\ a_is_master agent = true
          /\ other_orchestrators (a_id agent) (t_workspace_id task) st <> [])
  /\ (In (status (fst r)) [400; 404; 409] -> snd r = w).
Proof.
  unfold Dispatch.POST, Dispatch.POST_body, handle, ensure_connected, or_reply.
  simpl.
  repeat (split_case; simpl).
  all: try match goal with
       | H : agent_by_id _ _ = Some _ |- _ =>
           let Hid := fresh "Hid" in pose proof (agent_by_id_id _ _ H) as Hid
       end.
  all: repeat match goal with |- _ /\ _ => split end.
  all: try solve [intros [E|[E|[E|[]]]]; first [discriminate E | reflexivity]].
  all: split; intros H; try discriminate H.
  all: try solve [
    repeat match goal with
      | H : _ \/ _ |- _ => destruct H
      | H : exists _, _ |- _ => destruct H
      | H : _ /\ _ |- _ => destruct H
      end;
    repeat match goal with
      | H : Some _ = Some _ |- _ => injection H as <-
      end;
    try congruence;
    match goal with
    | H : cell_truthy _ = _, E : t_assigned_agent_id _ = _ |- _ =>
        rewrite E in H; simpl in H; congruence
    end ].
  all: try solve [left; reflexivity].
  all: try solve [eexists; split; [reflexivity|];
                  match goal with E : t_assigned_agent_id _ = _ |- _ => now rewrite E end].
  all: try solve [right; do 2 eexists; repeat split; try eassumption; discriminate].
  do 2 eexists. rewrite Hid.
  repeat split; try eassumption; try discriminate.
  rewrite <- Hid, Heql. discriminate.
Qed.

End DispatchEffects.

(* ================================================================== *)
(** * What linking does *)
(* ================================================================== *)

Module LinkEffects.

Import Facts Statements HandlerFacts Invariants Frames Samples.

#[local] Arguments sql_text : simpl never.

#[local] Arguments str_eqb : simpl never.
#[local] Arguments agent_by_id : simpl never.
#[local] Arguments active_session_of : simpl never.
#[local] Arguments session_by_id : simpl never.
#[local] Arguments update_session_status : simpl never.
#[local] Arguments derived_session_id : simpl never.
#[local] Opaque JSON_parse.

(** X9.  Linking is all or nothing.  The answer is 404 exactly when
    the agent is missing, 409 exactly when it has an active session, and
    503 exactly when it has none and the gateway cannot be reached or
    fails to list its sessions.  Unless the answer is 201 the store is
    as before (so also for 500); with 201 the agent had no active
    session, and one active session row of the agent and one event were
    appended. *)
Theorem link_refusals rt env id text w :
  let st := w_store w in
  let r := OpenClawLink.POST rt env id text w in
  (status (fst r) = 404 <-> agent_by_id id st = None)
  /\ (status (fst r) = 409 <->
        agent_by_id id st <> None /\ active_session_of id st <> None)
  /\ (status (fst r) = 503 <->
        agent_by_id id st <> None /\ active_session_of id st = None
        /\ (~ reachable env \/ listSessions_ok env = false))
  /\ (status (fst r) <> 201 -> w_store (snd r) = st)
  /\ (status (fst r) = 201 ->
        active_session_of id st = None
        /\ exists s e,
             w_store (snd r) = insert_event e (insert_session s st)
             /\ s_agent_id s = id /\ s_status s = lit "active"
             /\ e_type e = lit "agent_status_changed").
Proof.
  unfold OpenClawLink.POST, OpenClawLink.POST_body, OpenClawLink.POST_check,
    OpenClawLink.POST_gateway, OpenClawLink.POST_store, handle, ensure_connected,
    read, bind_param, or_reply, reachable.
  simpl.
  repeat (split_case; simpl).
  all: repeat match goal with |- _ /\ _ => split end.
  all: try solve [intuition (try discriminate; try congruence)].
  all: try solve [intros _; split; [reflexivity|]; do 2 eexists;
                  repeat split; reflexivity].
Qed.

Lemma active_session_of_insert (s : Session) (st : store) :
  active_session_of (s_agent_id s) st = None ->
  s_status s = lit "active" ->
  active_session_of (s_agent_id s) (insert_session s st) = Some s.
Proof.
  unfold active_session_of, insert_session, set_sessions. simpl.
  intros Hnone Hs.
  induction (sessions st) as [|x l IH]; simpl in *.
  - now rewrite Hs, !str_eqb_refl.
  - destruct (str_eqb (s_agent_id x) (s_agent_id s)
              && str_eqb (s_status x) (lit "active")); [discriminate|].
    now apply IH.
Qed.

Lemma no_active_after_unlink (s : Session) (st : store) (now : jstring) :
  active_session_of (s_agent_id s) st = None ->
  active_session_of (s_agent_id s)
    (update_session_status (lit "inactive") now (s_id s) (insert_session s st))
  = None.
Proof.
  unfold active_session_of, update_session_status, insert_session, set_sessions.
  simpl. intros Hnone. rewrite map_app. simpl. rewrite str_eqb_refl.
  induction (sessions st) as [|x l IH]; simpl in *.
  - now rewrite andb_false_r.
  - destruct (str_eqb (s_agent_id x) (s_agent_id s)
              && str_eqb (s_status x) (lit "active")) eqn:E; [discriminate|].
    destruct (str_eqb (s_id x) (s_id s)); simpl.
    + rewrite andb_false_r. now apply IH.
    + rewrite E. now apply IH.
Qed.

(** What a link that answers 201 found and left. *)
Lemma link_created rt env id text w :
  let r := OpenClawLink.POST rt env id text w in
  status (fst r) = 201 ->
  exists agent s e n tr,
    agent_by_id id (w_store w) = Some agent
    /\ active_session_of id (w_store w) = None
    /\ snd r = mkWorld (insert_event e (insert_session s (w_store w))) n tr
    /\ s_agent_id s = id /\ s_status s = lit "active".
Proof.
  unfold OpenClawLink.POST, OpenClawLink.POST_body, OpenClawLink.POST_check,
    OpenClawLink.POST_gateway, OpenClawLink.POST_store, handle, ensure_connected,
    read, bind_param, or_reply.
  simpl.
  repeat (split_case; simpl); try discriminate.
  all: intros _; do 5 eexists; repeat split; eassumption || reflexivity.
Qed.

(** X11.  Link, read, link again, unlink, read.  After a link that
    answered 201 the agent has an active session; reading the link
    reports it and changes nothing; a second link answers 409 with that
    session and changes nothing; unlinking answers 200, after which the
    agent has no active session and reading reports it unlinked. *)
Theorem link_round_trip rt env id text text' w :
  status (fst (OpenClawLink.POST rt env id text w)) = 201 ->
  let w1 := snd (OpenClawLink.POST rt env id text w) in
  let w2 := snd (OpenClawLink.DELETE env id w1) in
  exists s,
    active_session_of id (w_store w1) = Some s
    /\ OpenClawLinkGet.GET id w1
       = (mkResponse 200
            (JObj [field "linked" (JBool true); field "session" (session_json s)]),
          w1)
    /\ OpenClawLink.POST rt env id text' w1
       = (mkResponse 409
            (JObj [field "error" (jtext "Agent is already linked to an OpenClaw session");
                   field "session" (session_json s)]), w1)
    /\ status (fst (OpenClawLink.DELETE env id w1)) = 200
    /\ active_session_of id (w_store w2) = None
    /\ OpenClawLinkGet.GET id w2
       = (mkResponse 200
            (JObj [field "linked" (JBool false); field "session" JNull]), w2).
Proof.
  intros H w1 w2.
  destruct (link_created rt env id text w H)
    as (agent & s & e & n & tr & Hagent & Hnone & Hw1 & Hid & Hactive).
  fold w1 in Hw1. subst id.
  assert (Ha1 : agent_by_id (s_agent_id s) (w_store w1) = Some agent)
    by (rewrite Hw1; exact Hagent).
  assert (Hs1 : active_session_of (s_agent_id s) (w_store w1) = Some s)
    by (rewrite Hw1; now apply active_session_of_insert).
  exists s. split; [exact Hs1|].
  split.
  { unfold OpenClawLinkGet.GET, OpenClawLinkGet.GET_body, handle. simpl.
    rewrite Ha1. simpl. rewrite Hs1. reflexivity. }
  split.
  { unfold OpenClawLink.POST, OpenClawLink.POST_body, OpenClawLink.POST_check,
    OpenClawLink.POST_gateway, OpenClawLink.POST_store, handle. simpl.
    rewrite Ha1. simpl. rewrite Hs1. reflexivity. }
  assert (Hdel : OpenClawLink.DELETE env (s_agent_id s) w1
                 = (mkResponse 200
                      (JObj [field "linked" (JBool false); field "success" (JBool true)]),
                    mkWorld
                      (insert_event
                         (mkEvent (uuid env (w_uuids w1)) (lit "agent_status_changed")
                            (Some (s_agent_id s)) None
                            (a_name agent ++ lit " disconnected from OpenClaw Gateway")
                            (now env))
                         (update_session_status (lit "inactive") (now env) (s_id s)
                            (w_store w1)))
                      (S (w_uuids w1)) (w_trace w1))).
  { unfold OpenClawLink.DELETE, OpenClawLink.DELETE_body, handle. simpl.
    rewrite Ha1. simpl. rewrite Hs1. reflexivity. }
  assert (Hs2 : active_session_of (s_agent_id s) (w_store w2) = None).
  { unfold w2. rewrite Hdel, Hw1. simpl.
    now apply (no_active_after_unlink s (w_store w) (now env)). }
  split; [now rewrite Hdel|]. split; [exact Hs2|].
  assert (Ha2 : agent_by_id (s_agent_id s) (w_store w2) = Some agent).
  { unfold w2. rewrite Hdel. exact Ha1. }
  unfold OpenClawLinkGet.GET, OpenClawLinkGet.GET_body, handle. simpl.
  rewrite Ha2. simpl. rewrite Hs2. reflexivity.
Qed.

(** X10.  A link that goes through stores, as the database layer
    stores text, the session key the request asked for when its body is
    a JSON object whose openclaw_session_id is a non-empty string, and
    the key derived from the agent's name otherwise (no JSON, no such
    member, or a falsy one).  The session row
    is the agent's active session afterwards, one event is appended, and
    the gateway saw the connection attempt, if needed, and one listing
    of sessions. *)
Theorem link_session_key rt env id text w agent requested :
  agent_by_id id (w_store w) = Some agent ->
  active_session_of id (w_store w) = None ->
  reachable env -> listSessions_ok env = true ->
  link_request text requested ->
  let st := w_store w in
  let s := mkSession (uuid env (w_uuids w)) id
             (Some (sql_text (link_key rt agent requested)))
             (lit "mission-control") (lit "active") (now env) (now env) in
  let r := OpenClawLink.POST rt env id text w in
  status (fst r) = 201
  /\ w_store (snd r)
     = insert_event
         (mkEvent (uuid env (S (w_uuids w))) (lit "agent_status_changed")
            (Some id) None (a_name agent ++ lit " connected to OpenClaw Gateway")
            (now env))
         (insert_session s st)
  /\ w_trace (snd r) = w_trace w ++ connecting env ++ [ListSessions]
  /\ active_session_of id (w_store (snd r)) = Some s.
Proof.
  intros Hagent Hnone Hreach Hlist Hreq st s r.
  assert (E : status (fst r) = 201
              /\ snd r
                 = mkWorld
                     (insert_event
                        (mkEvent (uuid env (S (w_uuids w))) (lit "agent_status_changed")
                           (Some id) None
                           (a_name agent ++ lit " connected to OpenClaw Gateway")
                           (now env))
                        (insert_session s st))
                     (S (S (w_uuids w)))
                     (w_trace w ++ connecting env ++ [ListSessions])).
  { subst r s st.
    unfold OpenClawLink.POST, OpenClawLink.POST_body, OpenClawLink.POST_check,
    OpenClawLink.POST_gateway, OpenClawLink.POST_store, handle, ensure_connected,
      read, bind_param, connecting, link_request, link_key in *.
    simpl. rewrite Hagent. simpl. rewrite Hnone. simpl.
    destruct Hreach as [Hc|Hk];
      [rewrite Hc|destruct (isConnected env); simpl; [|rewrite Hk]]; simpl;
      rewrite Hlist; simpl.
    all: destruct (JSON_parse text) as [[| | | | |members]|];
      try contradiction; simpl; try (subst requested; simpl);
      rewrite <- ?app_assoc; try (split; reflexivity).
    all: destruct (last_member (lit "openclaw_session_id") members)
           as [[|b|neg m e|k| |]|]; simpl in *;
      try match goal with H : _ /\ _ |- _ => destruct H as [Hf Hreq] end;
      subst requested; simpl; try discriminate; try (split; reflexivity).
    all: try (destruct k; simpl; split; reflexivity).
    all: try (subst b; simpl; split; reflexivity).
    all: apply negb_false_iff in Hf; rewrite Hf; simpl; split; reflexivity. }
  destruct E as [E1 E2]. split; [exact E1|]. rewrite E2.
  split; [reflexivity|]. split; [reflexivity|].
  apply (active_session_of_insert s st); [exact Hnone|reflexivity].
Qed.

End LinkEffects.

(* ================================================================== *)
(** * One active session per agent, and overlapping link requests *)
(* ================================================================== *)

Module Overlap.

Import Facts Statements HandlerFacts Invariants Frames Samples Interleaving.

#[local] Arguments sql_text : simpl never.
#[local] Arguments str_eqb : simpl never.
#[local] Arguments agent_by_id : simpl never.
#[local] Arguments active_session_of : simpl never.
#[local] Arguments session_by_id : simpl never.
#[local] Arguments derived_session_id : simpl never.
#[local] Opaque JSON_parse.

Lemma link_check_passes (id : jstring) (w : world) (agent : Agent) :
  agent_by_id id (w_store w) = Some agent ->
  active_session_of id (w_store w) = None ->
  OpenClawLink.POST_check id w = (Ret agent, w).
Proof.
  intros Ha Hn. unfold OpenClawLink.POST_check. simpl.
  rewrite Ha. simpl. rewrite Hn. reflexivity.
Qed.

Lemma link_gateway_passes (env : Env) (w : world) :
  reachable env -> listSessions_ok env = true ->
  OpenClawLink.POST_gateway env w
  = (Ret tt,
     mkWorld (w_store w) (w_uuids w)
       (w_trace w ++ connecting env ++ [ListSessions])).
Proof.
  intros Hreach Hlist.
  unfold OpenClawLink.POST_gateway, ensure_connected, connecting.
  destruct Hreach as [Hc|Hk];
    [rewrite Hc|destruct (isConnected env); simpl; [|rewrite Hk]]; simpl;
    rewrite Hlist; simpl; rewrite <- ?app_assoc; reflexivity.
Qed.

Lemma link_store_inserts rt env id text agent requested w :
  link_request text requested ->
  exists r e,
    OpenClawLink.POST_store rt env id text agent w
    = (Ret r,
       mkWorld
         (insert_event e
            (insert_session
               (mkSession (uuid env (w_uuids w)) id
                  (Some (sql_text (link_key rt agent requested)))
                  (lit "mission-control") (lit "active") (now env) (now env))
               (w_store w)))
         (S (S (w_uuids w))) (w_trace w))
    /\ status r = 201.
Proof.
  intros Hreq.
  unfold OpenClawLink.POST_store, read, bind_param, link_request, link_key in *.
  simpl.
  destruct (JSON_parse text) as [[| | | | |members]|];
    try contradiction; simpl; try (subst requested; simpl);
    try (do 2 eexists; split; reflexivity).
  destruct (last_member (lit "openclaw_session_id") members)
    as [[|b|neg m e|k| |]|]; simpl in *;
    try match goal with H : _ /\ _ |- _ => destruct H as [Hf Hreq] end;
    subst requested; simpl; try discriminate;
    try (do 2 eexists; split; reflexivity).
  - subst b. simpl. do 2 eexists; split; reflexivity.
  - apply negb_false_iff in Hf. rewrite Hf. simpl.
    do 2 eexists; split; reflexivity.
  - destruct k; simpl; do 2 eexists; split; reflexivity.
Qed.

#[local] Arguments OpenClawLink.POST_check : simpl never.
#[local] Arguments OpenClawLink.POST_gateway : simpl never.
#[local] Arguments OpenClawLink.POST_store : simpl never.

Lemma POST_alone_is_POST rt env id text w :
  POST_alone rt env id text w = OpenClawLink.POST rt env id text w.
Proof.
  unfold POST_alone, OpenClawLink.POST, OpenClawLink.POST_body, handle, resume,
    link_answer, bind.
  destruct (OpenClawLink.POST_check id w) as [[agent|r|f] w1]; simpl;
    try reflexivity.
  destruct (OpenClawLink.POST_gateway env w1) as [[u|r|f] w2]; simpl;
    try reflexivity.
  destruct (OpenClawLink.POST_store rt env id text agent w2) as [[r|r|f] w3];
    reflexivity.
Qed.

(** Two link requests that both ran their check on a store where the
    agent has no active session both insert one. *)
Lemma overlapping_links rt envA envB id textA textB w agent requestedA requestedB :
  agent_by_id id (w_store w) = Some agent ->
  active_session_of id (w_store w) = None ->
  reachable envA -> listSessions_ok envA = true ->
  reachable envB -> listSessions_ok envB = true ->
  link_request textA requestedA -> link_request textB requestedB ->
  let r := POST_overlapping rt envA envB id textA textB w in
  status (fst (fst r)) = 201 /\ status (snd (fst r)) = 201
  /\ exists sA sB,
       sessions (w_store (snd r)) = (sessions (w_store w) ++ [sA]) ++ [sB]
       /\ is_active_session_of id sA = true
       /\ is_active_session_of id sB = true.
Proof.
  intros Ha Hn HrA HlA HrB HlB HqA HqB r. subst r.
  unfold POST_overlapping.
  rewrite (@link_check_passes id w agent Ha Hn). simpl.
  rewrite (@link_check_passes id w agent Ha Hn). simpl.
  rewrite (@link_gateway_passes envA _ HrA HlA). simpl.
  rewrite (@link_gateway_passes envB _ HrB HlB). simpl.
  match goal with
  | |- context [OpenClawLink.POST_store rt envA id textA agent ?W] =>
      destruct (@link_store_inserts rt envA id textA agent requestedA W HqA)
        as (rA & eA & EA & HsA)
  end.
  rewrite EA. simpl.
  match goal with
  | |- context [OpenClawLink.POST_store rt envB id textB agent ?W] =>
      destruct (@link_store_inserts rt envB id textB agent requestedB W HqB)
        as (rB & eB & EB & HsB)
  end.
  rewrite EB. simpl.
  split; [exact HsA|]. split; [exact HsB|].
  do 2 eexists. split; [reflexivity|].
  unfold is_active_session_of. cbn [s_agent_id s_status].
  rewrite !str_eqb_refl. split; reflexivity.
Qed.

(** X3.  Served one at a time, every handler keeps the rule that no
    agent has two active sessions.  The rule does not survive link
    requests that overlap: the link route checks for an active session
    before it waits for the gateway and for the request's body, and
    inserts after; served alone it is these stretches in a row, but when
    a second link request for the same unlinked agent runs its check
    while the first one waits, both are answered 201 and the agent is
    left with two active sessions. *)
Theorem one_active_session_unless_overlapping
    rt env columns id text signature raw w :
  at_most_one_active (w_store w) ->
  (at_most_one_active (w_store (snd (Dispatch.POST rt env id w)))
   /\ at_most_one_active (w_store (snd (OpenClawLink.POST rt env id text w)))
   /\ at_most_one_active (w_store (snd (OpenClawLink.DELETE env id w)))
   /\ at_most_one_active (w_store (snd (Planning.POST rt env id w)))
   /\ at_most_one_active (w_store (snd (Completion.POST rt env signature raw w)))
   /\ at_most_one_active (w_store (snd (PlanningGet.GET env columns id w)))
   /\ at_most_one_active (w_store (snd (OpenClawLinkGet.GET id w))))
  /\ POST_alone rt env id text w = OpenClawLink.POST rt env id text w
  /\ (forall envB textB agent requested requestedB,
        agent_by_id id (w_store w) = Some agent ->
        active_session_of id (w_store w) = None ->
        reachable env -> listSessions_ok env = true ->
        reachable envB -> listSessions_ok envB = true ->
        link_request text requested -> link_request textB requestedB ->
        let r := POST_overlapping rt env envB id text textB w in
        status (fst (fst r)) = 201 /\ status (snd (fst r)) = 201
        /\ length (filter (is_active_session_of id) (sessions (w_store (snd r))))
           = 2
        /\ ~ at_most_one_active (w_store (snd r))).
Proof.
  intros H.
  split; [|split; [apply POST_alone_is_POST|]].
  - split; [|split; [|split; [|split; [|split; [|split]]]]].
    + destruct (dispatch_sessions rt env id w) as [E|(s & Hn & E)].
      * eapply one_active_same; eassumption.
      * eapply one_active_insert; eassumption.
    + destruct (link_sessions rt env id text w) as [E|(s & Hn & E)].
      * eapply one_active_same; eassumption.
      * eapply one_active_insert; eassumption.
    + destruct (unlink_sessions env id w) as [E|(sid & E)].
      * eapply one_active_same; eassumption.
      * eapply one_active_same; [exact E|]. now apply one_active_deactivate.
    + eapply one_active_same; [apply planning_frame|assumption].
    + eapply one_active_same; [apply completion_frame|assumption].
    + eapply one_active_same; [apply planning_get_frame|assumption].
    + rewrite link_get_frame. assumption.
  - intros envB textB agent requested requestedB Ha Hn HrA HlA HrB HlB HqA HqB r.
    destruct (@overlapping_links rt env envB id text textB w agent requested
                requestedB Ha Hn HrA HlA HrB HlB HqA HqB)
      as (HsA & HsB & sA & sB & Es & HaA & HaB).
    fold r in HsA, HsB, Es.
    split; [exact HsA|]. split; [exact HsB|].
    assert (Hcount : length (filter (is_active_session_of id)
                               (sessions (w_store (snd r)))) = 2).
    { rewrite Es, !filter_app. cbn [filter]. rewrite HaA, HaB.
      rewrite active_session_of_filter in Hn.
      destruct (filter (is_active_session_of id) (sessions (w_store w)));
        [reflexivity|discriminate]. }
    split; [exact Hcount|].
    intros Hone. specialize (Hone id). lia.
Qed.

End Overlap.

(* ================================================================== *)
(** * What a planning start does *)
(* ================================================================== *)

Module PlanningEffects.

Import Facts Statements HandlerFacts Invariants Frames PlanningProps Samples.

#[local] Arguments sql_text : simpl never.

(** Every text [assistant_messages] yields is a non-empty text of an
    assistant message. *)
Lemma assistant_text_nonempty (msg : GwMessage) (text : jstring) :
  Planning.assistant_text msg = Some text ->
  g_role msg = lit "assistant" /\ text <> []
  /\ exists blocks b,
       g_content msg = Some blocks
       /\ find (fun c => str_eqb (b_type c) (lit "text")) blocks = Some b
       /\ b_text b = Some text.
Proof.
  unfold Planning.assistant_text.
  destruct (str_eqb (g_role msg) (lit "assistant")) eqn:R; [|discriminate].
  apply str_eqb_eq in R.
  destruct (g_content msg) as [blocks|]; [|discriminate].
  destruct (find _ blocks) as [b|] eqn:F; [|discriminate].
  destruct (b_text b) as [[|c r]|] eqn:T; try discriminate.
  intros [= <-]. split; [assumption|]. split; [discriminate|].
  exists blocks, b. auto.
Qed.

Lemma assistant_messages_In (l : list GwMessage) (m : jstring * jstring) :
  In m (Planning.assistant_messages l) <->
  exists msg, In msg l /\ Planning.assistant_text msg = Some (snd m)
              /\ fst m = lit "assistant".
Proof.
  induction l as [|x l IH]; simpl.
  - split; [contradiction|]. now intros (msg & [] & _).
  - destruct (Planning.assistant_text x) as [text|] eqn:E; simpl.
    + rewrite IH. split.
      * intros [<-|(msg & Hin & Ht & Hr)].
        -- exists x. auto.
        -- exists msg. auto.
      * intros (msg & [<-|Hin] & Ht & Hr).
        -- left. destruct m as [role content]. simpl in *. congruence.
        -- right. exists msg. auto.
    + rewrite IH. split.
      * intros (msg & Hin & Ht & Hr). exists msg. auto.
      * intros (msg & [<-|Hin] & Ht & Hr); [congruence|].
        exists msg. auto.
Qed.

Lemma last_assistant_last (l : list (jstring * jstring)) :
  Forall (fun m => fst m = lit "assistant") l ->
  Planning.last_assistant l = last (map Some l) None.
Proof.
  unfold Planning.last_assistant. intros H.
  induction l as [|x l IH] using rev_ind; [reflexivity|].
  rewrite rev_app_distr. simpl.
  apply Forall_app in H as [Hl Hx]. inversion Hx as [|? ? Hr _]; subst.
  rewrite Hr, str_eqb_refl, map_app. simpl.
  now rewrite last_last.
Qed.

Lemma assistant_text_found (msg : GwMessage) (blocks : list Block) (b : Block)
    (text : jstring) :
  g_role msg = lit "assistant" -> g_content msg = Some blocks ->
  find (fun c => str_eqb (b_type c) (lit "text")) blocks = Some b ->
  b_text b = Some text -> text <> [] ->
  Planning.assistant_text msg = Some text.
Proof.
  intros Hr Hc Hf Ht Hne. unfold Planning.assistant_text.
  rewrite Hr, str_eqb_refl, Hc, Hf, Ht.
  destruct text; [contradiction|reflexivity].
Qed.

Lemma assistant_messages_length (l : list GwMessage) :
  length (Planning.assistant_messages l) <= length l.
Proof.
  induction l as [|x l IH]; simpl; [lia|].
  destruct (Planning.assistant_text x); simpl; lia.
Qed.

(** X16.  Reading a transcript never fails.  A client that is not
    connected connects first; when that connection is refused the result
    is empty and no transcript request is made.  Otherwise exactly one
    transcript request is made; a failed request gives no message, and
    an answered one gives, for the transcript's assistant messages and
    only for them, the text of the first block of type text, when that
    text is not empty.  The result is no longer than the transcript, and
    the message the handlers take as the last assistant message is its
    last element. *)
Theorem transcript_reading env connected key n w :
  let joined := connected || connect_ok env in
  exists l,
    Planning.getMessagesFromOpenClaw env connected key n w
    = (Ret l,
       mkWorld (w_store w) (w_uuids w)
         (w_trace w ++ (if connected then [] else [Connect])
          ++ (if joined then [ChatHistory key] else [])))
    /\ (joined = false \/ history env n = None -> l = [])
    /\ (forall msgs,
          joined = true -> history env n = Some msgs ->
          length l <= length msgs
          /\ forall role text,
               In (role, text) l <->
               role = lit "assistant" /\ text <> []
               /\ exists msg blocks b,
                    In msg msgs /\ g_role msg = lit "assistant"
                    /\ g_content msg = Some blocks
                    /\ find (fun c => str_eqb (b_type c) (lit "text")) blocks
                       = Some b
                    /\ b_text b = Some text)
    /\ Planning.last_assistant l = last (map Some l) None.
Proof.
  intros joined.
  assert (Hlast : forall msgs,
    Planning.last_assistant (Planning.assistant_messages msgs)
    = last (map Some (Planning.assistant_messages msgs)) None).
  { intros msgs. apply last_assistant_last. apply Forall_forall. intros m Hm.
    apply assistant_messages_In in Hm as (_ & _ & _ & Hr). exact Hr. }
  assert (Hshape : forall msgs,
    length (Planning.assistant_messages msgs) <= length msgs
    /\ forall role text,
         In (role, text) (Planning.assistant_messages msgs) <->
         role = lit "assistant" /\ text <> []
         /\ exists msg blocks b,
              In msg msgs /\ g_role msg = lit "assistant"
              /\ g_content msg = Some blocks
              /\ find (fun c => str_eqb (b_type c) (lit "text")) blocks = Some b
              /\ b_text b = Some text).
  { intros msgs. split; [apply assistant_messages_length|].
    intros role text. rewrite assistant_messages_In. simpl. split.
    - intros (msg & Hin & Ht & ->).
      apply assistant_text_nonempty in Ht as (Hr & Hne & blocks & b & Hc & Hf & Hb).
      split; [reflexivity|]. split; [assumption|].
      exists msg, blocks, b. auto.
    - intros (-> & Hne & msg & blocks & b & Hin & Hr & Hc & Hf & Hb).
      exists msg. split; [assumption|]. split; [|reflexivity].
      eapply assistant_text_found; eassumption. }
  subst joined. unfold Planning.getMessagesFromOpenClaw.
  destruct connected; [|destruct (connect_ok env)]; simpl;
    try (destruct (history env n) as [msgs|]; simpl);
    rewrite <- ?app_assoc, ?app_nil_r; simpl;
    try (exists (Planning.assistant_messages msgs);
         split; [reflexivity|]; split; [intros [H|H]; discriminate H|];
         split; [intros ? _ [= <-]; apply Hshape|apply Hlast]);
    exists []; (split; [reflexivity|]); (split; [reflexivity|]);
    (split; [intros ? H1 H2; discriminate|reflexivity]).
Qed.

Lemma seen_nonempty env n m : seen env n = Some m -> snd m <> [] /\ fst m = lit "assistant".
Proof.
  unfold seen, Planning.last_assistant. intros H.
  apply find_some in H as [Hin _]. apply in_rev in Hin.
  destruct (history env n) as [messages|]; [|contradiction].
  apply assistant_messages_In in Hin as (msg & _ & Ht & Hr).
  apply assistant_text_nonempty in Ht as (_ & Hne & _). auto.
Qed.

(** The poll stops at the first round that shows an assistant message. *)
Lemma poll_found env key :
  forall k attempts i w m,
    k < attempts ->
    (forall j, j < k -> seen env (i + j) = None) ->
    seen env (i + k) = Some m ->
    Planning.poll env key attempts i w
    = (Ret (Some (snd m)),
       mkWorld (w_store w) (w_uuids w) (w_trace w ++ rounds key (S k))).
Proof.
  induction k as [|k IH]; intros attempts i w m Hk Hnone Hsome;
    (destruct attempts as [|n]; [lia|]);
    cbn [Planning.poll]; unfold Planning.getMessagesFromOpenClaw; simpl.
  - rewrite Nat.add_0_r in Hsome. unfold seen in Hsome.
    destruct (history env i) as [messages|]; [|discriminate].
    simpl. rewrite Hsome. simpl. rewrite <- app_assoc. reflexivity.
  - pose proof (Hnone 0 ltac:(lia)) as H0. rewrite Nat.add_0_r in H0.
    unfold seen in H0.
    assert (Hrest : forall j, j < k -> seen env (S i + j) = None).
    { intros j Hj. specialize (Hnone (S j) ltac:(lia)).
      now rewrite Nat.add_succ_r in Hnone. }
    rewrite Nat.add_succ_r in Hsome.
    destruct (history env i) as [messages|]; simpl; rewrite ?H0;
      rewrite (IH n (S i) _ m) by (assumption || lia); simpl;
      rewrite (rounds_S key (S k)), <- !app_assoc; reflexivity.
Qed.

Lemma extractJSON_whole (text : jstring) (v : json) :
  JSON_parse (trim text) = Some v -> extractJSON text = v.
Proof. intros H. unfold extractJSON. now rewrite H. Qed.

#[local] Arguments Planning.poll : simpl never.
#[local] Opaque extractJSON.
#[local] Arguments truthy : simpl never.
#[local] Arguments has_prop : simpl never.
#[local] Arguments task_by_id : simpl never.
#[local] Arguments start_task_planning : simpl never.
#[local] Arguments update_planning_messages : simpl never.
#[local] Arguments rounds : simpl never.
#[local] Arguments Planning.messages_json : simpl never.

(** The handler on a task whose prompt goes out and whose reply shows
    in round [k]. *)
Lemma planning_reply rt env taskId w task k text :
  plannable taskId (w_store w) task ->
  reachable env -> send_ok env = true ->
  first_reply env k text ->
  let key := planning_key taskId in
  let messages := planning_exchange rt env task text in
  let parsed := extractJSON text in
  Planning.POST rt env taskId w
  = (match (if truthy parsed then has_prop (lit "question") parsed
            else Fine false) with
     | Fine true =>
         mkResponse 200
           (JObj [field "success" (JBool true);
                  field "sessionKey" (JStr key);
                  field "currentQuestion" parsed;
                  field "messages" (Planning.messages_json messages)])
     | Fine false =>
         mkResponse 200
           (JObj [field "success" (JBool true);
                  field "sessionKey" (JStr key);
                  field "rawResponse" (JStr text);
                  field "messages" (Planning.messages_json messages)])
     | TypeError =>
         mkResponse 500
           (JObj [field "error"
                    (JStr (lit "Failed to start planning: "
                           ++ fault_message rt TypeFault))])
     end,
     mkWorld
       (update_planning_messages messages taskId
          (start_task_planning key
             [mkPlanningMessage (lit "user") (planningPrompt rt task)
                (date_now env 1)] taskId (w_store w)))
       (w_uuids w)
       (w_trace w ++ planning_prompt_sent rt env taskId task
        ++ rounds key (S k))).
Proof.
  intros [Htask Hkey] Hreach Hsend (Hk & Hnone & Hsome) key messages parsed.
  destruct (seen_nonempty _ _ Hsome) as [Hne _]. simpl in Hne.
  destruct text as [|c r]; [contradiction|]. clear Hne.
  unfold Planning.POST, Planning.POST_body, handle, ensure_connected,
    planning_prompt_sent, connecting. simpl.
  rewrite Htask. simpl. rewrite Hkey. simpl.
  assert (Hpoll : forall w1,
    Planning.poll env key Planning.poll_attempts 0 w1
    = (Ret (Some (c :: r)),
       mkWorld (w_store w1) (w_uuids w1) (w_trace w1 ++ rounds key (S k)))).
  { intros w1.
    apply (@poll_found env key k _ 0 w1 (lit "assistant", c :: r) Hk Hnone Hsome). }
  destruct Hreach as [Hc|Hc];
    [rewrite Hc|destruct (isConnected env); simpl; [|rewrite Hc]]; simpl;
    rewrite Hsend; simpl;
    match goal with
    | |- context [Planning.poll env ?k0 ?n ?i ?w1] =>
        change (Planning.poll env k0 n i w1)
          with (Planning.poll env key Planning.poll_attempts 0 w1)
    end;
    rewrite Hpoll; simpl; fold parsed;
    (destruct (truthy parsed); simpl;
     [destruct (has_prop (lit "question") parsed) as [[|]|]; simpl|]);
    rewrite <- ?app_assoc; reflexivity.
Qed.

Lemma task_by_id_start (key : jstring) (msgs : list PlanningMessage)
    (id : jstring) (st : store) (t : Task) :
  task_by_id id st = Some t ->
  task_by_id id (start_task_planning key msgs id st)
  = Some (mkTask (t_id t) (t_title t) (t_description t) (lit "planning")
            (t_priority t) (t_assigned_agent_id t) (t_workspace_id t)
            (t_due_date t) (Some key) (Some msgs) (t_updated_at t)).
Proof.
  unfold task_by_id, start_task_planning, set_tasks. simpl.
  induction (tasks st) as [|x l IH]; simpl; [discriminate|].
  destruct (str_eqb (t_id x) id) eqn:E; simpl.
  - rewrite E. now intros [= ->].
  - rewrite E. exact IH.
Qed.

Lemma task_by_id_messages (msgs : list PlanningMessage)
    (id : jstring) (st : store) (t : Task) :
  task_by_id id st = Some t ->
  task_by_id id (update_planning_messages msgs id st)
  = Some (mkTask (t_id t) (t_title t) (t_description t) (t_status t)
            (t_priority t) (t_assigned_agent_id t) (t_workspace_id t)
            (t_due_date t) (t_planning_session_key t) (Some msgs)
            (t_updated_at t)).
Proof.
  unfold task_by_id, update_planning_messages, set_tasks. simpl.
  induction (tasks st) as [|x l IH]; simpl; [discriminate|].
  destruct (str_eqb (t_id x) id) eqn:E; simpl.
  - rewrite E. now intros [= ->].
  - rewrite E. exact IH.
Qed.

(** X13.  When the prompt goes out and round [k] of the poll is the
    first to show an assistant message, the handler stops after [k + 1]
    rounds and stores the task in status planning, with its session key
    and the two messages, prompt and reply.  The answer carries the
    reply as currentQuestion when [extractJSON] finds in it an object
    with a member question, and as rawResponse when it finds nothing, an
    array, or an object without that member. *)
Theorem planning_reply_stored rt env taskId w task k text :
  plannable taskId (w_store w) task ->
  reachable env -> send_ok env = true ->
  first_reply env k text ->
  let key := planning_key taskId in
  let messages := planning_exchange rt env task text in
  let parsed := extractJSON text in
  let r := Planning.POST rt env taskId w in
  w_trace (snd r)
  = w_trace w ++ planning_prompt_sent rt env taskId task ++ rounds key (S k)
  /\ task_by_id taskId (w_store (snd r))
     = Some (mkTask (t_id task) (t_title task) (t_description task)
               (lit "planning") (t_priority task) (t_assigned_agent_id task)
               (t_workspace_id task) (t_due_date task) (Some key)
               (Some messages) (t_updated_at task))
  /\ (forall members,
        parsed = JObj members ->
        last_member (lit "question") members <> None ->
        fst r = mkResponse 200
                  (JObj [field "success" (JBool true);
                         field "sessionKey" (JStr key);
                         field "currentQuestion" parsed;
                         field "messages" (Planning.messages_json messages)]))
  /\ (parsed = JNull
      \/ (exists members,
            parsed = JObj members
            /\ last_member (lit "question") members = None)
      \/ (exists items, parsed = JArr items) ->
      fst r = mkResponse 200
                (JObj [field "success" (JBool true);
                       field "sessionKey" (JStr key);
                       field "rawResponse" (JStr text);
                       field "messages" (Planning.messages_json messages)])).
Proof.
  intros Hp Hreach Hsend Hfirst key messages parsed r.
  subst r. rewrite (planning_reply rt w Hp Hreach Hsend Hfirst).
  fold key messages parsed. cbn [fst snd w_trace w_store].
  destruct Hp as [Htask _].
  split; [reflexivity|]. split.
  { rewrite (task_by_id_messages _ _ _ (task_by_id_start _ _ _ _ Htask)).
    reflexivity. }
  split.
  - intros members E Hq. rewrite E. unfold truthy, has_prop.
    destruct (last_member (lit "question") members); [reflexivity|contradiction].
  - intros [E|[(members & E & Hq)|(items & E)]]; rewrite E;
      unfold truthy, has_prop; rewrite ?Hq; reflexivity.
Qed.

(** The second request of a started planning session. *)
Lemma planning_already_started rt env taskId w task key :
  task_by_id taskId (w_store w) = Some task ->
  t_planning_session_key task = Some key -> key <> [] ->
  Planning.POST rt env taskId w
  = (mkResponse 400
       (JObj [field "error" (jtext "Planning already started");
              field "sessionKey" (JStr key)]), w).
Proof.
  intros Htask Hkey Hne.
  unfold Planning.POST, Planning.POST_body, handle. simpl.
  rewrite Htask. simpl. rewrite Hkey.
  destruct key; [contradiction|]. reflexivity.
Qed.

Lemma planning_key_nonempty (taskId : jstring) : planning_key taskId <> [].
Proof. discriminate. Qed.

(** X14.  A reply that is, as a whole, a truthy JSON scalar (a number
    other than zero, true, a non-empty string literal) makes the planning
    start answer 500: the membership test for question throws on a value
    that is not an object.  The task is nevertheless left in status
    planning with its session key and both messages stored, so that a
    second start is answered 400. *)
Theorem planning_scalar_reply_fails rt env env' taskId w task k text v :
  plannable taskId (w_store w) task ->
  reachable env -> send_ok env = true ->
  first_reply env k text ->
  JSON_parse (trim text) = Some v -> is_scalar v = true -> truthy v = true ->
  let r := Planning.POST rt env taskId w in
  fst r = mkResponse 500
            (JObj [field "error"
                     (JStr (lit "Failed to start planning: "
                            ++ fault_message rt TypeFault))])
  /\ (exists task',
        task_by_id taskId (w_store (snd r)) = Some task'
        /\ t_status task' = lit "planning"
        /\ t_planning_session_key task' = Some (planning_key taskId)
        /\ t_planning_messages task' = Some (planning_exchange rt env task text))
  /\ Planning.POST rt env' taskId (snd r)
     = (mkResponse 400
          (JObj [field "error" (jtext "Planning already started");
                 field "sessionKey" (JStr (planning_key taskId))]), snd r).
Proof.
  intros Hp Hreach Hsend Hfirst Hparse Hscalar Htruthy r.
  subst r. rewrite (planning_reply rt w Hp Hreach Hsend Hfirst).
  cbn [fst snd w_store].
  destruct Hp as [Htask _].
  pose proof (task_by_id_messages (planning_exchange rt env task text) _ _
                (task_by_id_start (planning_key taskId)
                   [mkPlanningMessage (lit "user") (planningPrompt rt task)
                      (date_now env 1)] _ _ Htask)) as Hstored.
  split; [|split].
  - rewrite (extractJSON_whole _ Hparse), Htruthy.
    destruct v; try discriminate; reflexivity.
  - eexists. split; [exact Hstored|]. repeat split.
  - match goal with
    | |- Planning.POST _ _ _ ?w1 = _ =>
        apply (@planning_already_started rt env' taskId w1 _ _ Hstored eq_refl)
    end.
    apply planning_key_nonempty.
Qed.

(** X15.  Once the prompt has gone out, whatever the poll brought and
    whatever the answer was, the task is in status planning with its
    session key, and a second start is answered 400 with that key and
    changes nothing. *)
Theorem planning_starts_once rt env env' taskId w task :
  plannable taskId (w_store w) task ->
  reachable env -> send_ok env = true ->
  let w1 := snd (Planning.POST rt env taskId w) in
  (exists task1,
     task_by_id taskId (w_store w1) = Some task1
     /\ t_status task1 = lit "planning"
     /\ t_planning_session_key task1 = Some (planning_key taskId))
  /\ Planning.POST rt env' taskId w1
     = (mkResponse 400
          (JObj [field "error" (jtext "Planning already started");
                 field "sessionKey" (JStr (planning_key taskId))]), w1).
Proof.
  intros [Htask Hkey] Hreach Hsend w1.
  assert (H : exists task1,
     task_by_id taskId (w_store w1) = Some task1
     /\ t_status task1 = lit "planning"
     /\ t_planning_session_key task1 = Some (planning_key taskId)).
  { subst w1.
    unfold Planning.POST, Planning.POST_body, handle, ensure_connected. simpl.
    rewrite Htask. simpl. rewrite Hkey. simpl.
    pose proof (task_by_id_start (planning_key taskId)
                  [mkPlanningMessage (lit "user") (planningPrompt rt task)
                     (date_now env 1)] _ _ Htask) as Hstart.
    destruct Hreach as [Hc|Hc];
      [rewrite Hc|destruct (isConnected env); simpl; [|rewrite Hc]]; simpl;
      rewrite Hsend; simpl;
      match goal with
      | |- context [Planning.poll env ?k0 ?n ?i ?w1] =>
          destruct (poll_returns env k0 n i w1) as (o & m & _ & E);
          rewrite E; simpl
      end;
      (destruct o as [[|c r]|]; simpl;
       [ | destruct (truthy (extractJSON (c :: r))); simpl;
           [destruct (has_prop (lit "question") (extractJSON (c :: r)))
              as [[|]|]; simpl|] | ]);
      eexists;
      (split; [first [exact Hstart
                     | exact (task_by_id_messages _ _ _ Hstart)]
              | split; reflexivity]). }
  split; [exact H|].
  destruct H as (task1 & H1 & _ & H2).
  apply (@planning_already_started rt env' _ _ _ _ H1 H2), planning_key_nonempty.
Qed.

(** X12.  The refusals of a planning start.  The answer is 404 exactly
    when the task is missing and 400 exactly when planning has started
    (the task has a session key); both leave the world as it was.  When
    the gateway cannot be reached or rejects the prompt, the answer is
    500 with the gateway fault's message, the store is unchanged and no
    poll round was run. *)
Theorem planning_refusals rt env taskId w :
  let st := w_store w in
  let r := Planning.POST rt env taskId w in
  (status (fst r) = 404 <-> task_by_id taskId st = None)
  /\ (status (fst r) = 400 <->
        exists task,
          task_by_id taskId st = Some task
          /\ cell_truthy (t_planning_session_key task) = true)
  /\ (In (status (fst r)) [400; 404] -> snd r = w)
  /\ (forall task,
        plannable taskId st task ->
        ~ reachable env \/ send_ok env = false ->
        fst r = mkResponse 500
                  (JObj [field "error"
                           (JStr (lit "Failed to start planning: "
                                  ++ fault_message rt GatewayFault))])
        /\ w_store (snd r) = st
        /\ filter is_poll_effect (w_trace (snd r))
           = filter is_poll_effect (w_trace w)).
Proof.
  unfold Planning.POST, Planning.POST_body, handle, ensure_connected, plannable,
    reachable.
  simpl.
  destruct (task_by_id taskId (w_store w)) as [task|] eqn:Htask; simpl;
    [destruct (cell_truthy (t_planning_session_key task)) eqn:Hkey; simpl;
     [|destruct (isConnected env) eqn:Hc; simpl;
       [|destruct (connect_ok env) eqn:Hk; simpl];
       try (destruct (send_ok env) eqn:Hsend; simpl;
            [match goal with
             | |- context [Planning.poll env ?k0 ?n ?i ?w1] =>
                 destruct (poll_returns env k0 n i w1) as (o & m & _ & E);
                 rewrite E; simpl
             end;
             (destruct o as [[|c r]|]; simpl;
              [ | destruct (truthy (extractJSON (c :: r))); simpl;
                  [destruct (has_prop (lit "question") (extractJSON (c :: r)))
                     as [[|]|]; simpl|] | ])|])]|].
  all: repeat match goal with |- _ /\ _ => split end.
  all: try solve [split; intros H; try discriminate H; try congruence;
                  try (exists task; auto);
                  destruct H as (t & H1 & H2); congruence].
  all: try solve [intros [E'|[E'|[]]]; first [discriminate E' | reflexivity]].
  all: intros t [H1 H2] [H3|H3]; try congruence;
    try (exfalso; apply H3; auto; fail).
  all: injection H1 as <-; repeat split; rewrite ?filter_app; simpl;
    rewrite ?app_nil_r; reflexivity.
Qed.

End PlanningEffects.

(* ================================================================== *)
(** * Reading the planning state *)
(* ================================================================== *)

Module PlanningGetProps.

Import Facts Statements HandlerFacts Invariants Frames PlanningProps Samples.

#[local] Arguments sql_text : simpl never.

#[local] Opaque extractJSON.
#[local] Opaque JSON_parse.
#[local] Arguments truthy : simpl never.
#[local] Arguments has_prop : simpl never.
#[local] Arguments task_by_id : simpl never.
#[local] Arguments update_planning_messages : simpl never.
#[local] Arguments Planning.messages_json : simpl never.
#[local] Arguments PlanningGet.last_stored_assistant : simpl never.
#[local] Arguments Planning.last_assistant : simpl never.

Lemma get_quiet env columns taskId w :
  let st := w_store w in
  let r := PlanningGet.GET env columns taskId w in
  (status (fst r) = 404 <-> task_by_id taskId st = None)
  /\ (forall task,
        task_by_id taskId st = Some task ->
        stored_messages task = []
        \/ PlanningGet.last_stored_assistant (stored_messages task) <> None
        \/ cell_truthy (t_planning_session_key task) = false ->
        snd r = w).
Proof.
  unfold PlanningGet.GET, PlanningGet.GET_body, handle, stored_messages,
    Planning.getMessagesFromOpenClaw,
    PlanningGet.question_of, PlanningGet.parse_column, or_reply.
  simpl.
  destruct (task_by_id taskId (w_store w)) as [task|] eqn:Htask; simpl.
  2:{ split; [split; reflexivity|]. intros t H. discriminate. }
  split.
  - repeat (split_case; simpl); split; discriminate.
  - intros t [= <-] H.
    destruct (t_planning_messages task) as [[|m l]|] eqn:Hm; simpl;
      [| destruct (PlanningGet.last_stored_assistant (m :: l)) eqn:Hl; simpl;
         [|destruct (t_planning_session_key task) as [[|c k]|] eqn:Hk; simpl;
           [| destruct H as [H|[H|H]]; [discriminate|contradiction|discriminate]
            |]]
       |];
      repeat (split_case; simpl); reflexivity.
Qed.

Lemma get_syncs env columns taskId w task messages key :
  task_by_id taskId (w_store w) = Some task ->
  t_planning_messages task = Some messages -> messages <> [] ->
  PlanningGet.last_stored_assistant messages = None ->
  t_planning_session_key task = Some key -> key <> [] ->
  let st := w_store w in
  let r := PlanningGet.GET env columns taskId w in
  (forall text,
     reachable env -> seen env 0 = Some (lit "assistant", text) ->
     w_store (snd r)
     = update_planning_messages
         (messages ++ [mkPlanningMessage (lit "assistant") text (date_now env 0)])
         taskId st
     /\ w_trace (snd r) = w_trace w ++ connecting env ++ [ChatHistory key])
  /\ (~ reachable env \/ seen env 0 = None -> w_store (snd r) = st).
Proof.
  intros Htask Hm Hne Hl Hk Hkne.
  unfold PlanningGet.GET, PlanningGet.GET_body, handle,
    Planning.getMessagesFromOpenClaw,
    PlanningGet.question_of, PlanningGet.parse_column, or_reply, reachable,
    connecting, seen.
  simpl. rewrite Htask. simpl. rewrite Hm, Hl, Hk. simpl.
  destruct key as [|c k]; [contradiction|].
  destruct messages as [|m l]; [contradiction|]. simpl.
  destruct (isConnected env) eqn:Hc; simpl;
    [|destruct (connect_ok env) eqn:Hok; simpl];
    try (destruct (history env 0) as [msgs|]; simpl;
         [destruct (Planning.last_assistant (Planning.assistant_messages msgs))
            as [[role text0]|] eqn:Hla; simpl|
          change (Planning.last_assistant []) with (@None (jstring * jstring))]).
  all: repeat (split_case; simpl).
  all: split;
    [intros text Hr Hs;
     first [discriminate Hs
           | destruct Hr; discriminate
           | injection Hs as -> ->; split; rewrite <- ?app_assoc; reflexivity]
    |intros [Hr|Hs];
     first [reflexivity | discriminate Hs | exfalso; apply Hr; auto]].
Qed.

(** X17.  Reading the planning state answers 404 exactly when the task
    is missing.  It leaves the world as it was, without a gateway call,
    whenever the task has no stored message, or a stored assistant
    message, or no session key. *)
Theorem planning_get_quiet env columns taskId w :
  let st := w_store w in
  let r := PlanningGet.GET env columns taskId w in
  (status (fst r) = 404 <-> task_by_id taskId st = None)
  /\ (forall task,
        task_by_id taskId st = Some task ->
        stored_messages task = []
        \/ PlanningGet.last_stored_assistant (stored_messages task) <> None
        \/ cell_truthy (t_planning_session_key task) = false ->
        snd r = w).
Proof. exact (get_quiet env columns taskId w). Qed.

(** X18.  For a task with a session key whose stored messages hold no
    assistant message: when the gateway can be reached and the
    transcript shows an assistant message, reading the planning state
    appends that message to the stored ones, after the connection
    attempt, if needed, and one transcript request; when the gateway
    cannot be reached or the transcript shows none, the store is left
    as it was. *)
Theorem planning_get_syncs env columns taskId w task messages key :
  task_by_id taskId (w_store w) = Some task ->
  t_planning_messages task = Some messages -> messages <> [] ->
  PlanningGet.last_stored_assistant messages = None ->
  t_planning_session_key task = Some key -> key <> [] ->
  let st := w_store w in
  let r := PlanningGet.GET env columns taskId w in
  (forall text,
     reachable env -> seen env 0 = Some (lit "assistant", text) ->
     w_store (snd r)
     = update_planning_messages
         (messages ++ [mkPlanningMessage (lit "assistant") text (date_now env 0)])
         taskId st
     /\ w_trace (snd r) = w_trace w ++ connecting env ++ [ChatHistory key])
  /\ (~ reachable env \/ seen env 0 = None -> w_store (snd r) = st).
Proof. exact (@get_syncs env columns taskId w task messages key). Qed.

#[local] Arguments Planning.poll : simpl never.
#[local] Arguments start_task_planning : simpl never.
#[local] Arguments rounds : simpl never.

(** The world a start leaves when no round shows a reply. *)
Lemma planning_waiting rt env taskId w task :
  plannable taskId (w_store w) task ->
  reachable env -> send_ok env = true ->
  (forall i, i < Planning.poll_attempts -> seen env i = None) ->
  snd (Planning.POST rt env taskId w)
  = mkWorld
      (start_task_planning (planning_key taskId)
         [mkPlanningMessage (lit "user") (planningPrompt rt task) (date_now env 1)]
         taskId (w_store w))
      (w_uuids w)
      (w_trace w ++ planning_prompt_sent rt env taskId task
       ++ rounds (planning_key taskId) Planning.poll_attempts).
Proof.
  intros [Htask Hkey] Hreach Hsend Hseen.
  unfold Planning.POST, Planning.POST_body, handle, ensure_connected,
    planning_prompt_sent, connecting. simpl.
  rewrite Htask. simpl. rewrite Hkey. simpl.
  assert (Hpoll : forall w1,
    Planning.poll env (planning_key taskId) Planning.poll_attempts 0 w1
    = (Ret None,
       mkWorld (w_store w1) (w_uuids w1)
         (w_trace w1 ++ rounds (planning_key taskId) Planning.poll_attempts))).
  { intros w1. apply poll_unseen. intros j Hj. now apply Hseen. }
  destruct Hreach as [Hc|Hc];
    [rewrite Hc|destruct (isConnected env); simpl; [|rewrite Hc]]; simpl;
    rewrite Hsend; simpl;
    match goal with
    | |- context [Planning.poll env ?k0 ?n ?i ?w1] =>
        change (Planning.poll env k0 n i w1)
          with (Planning.poll env (planning_key taskId) Planning.poll_attempts 0 w1)
    end;
    rewrite Hpoll; simpl; rewrite <- ?app_assoc; reflexivity.
Qed.

(** X19.  A start whose poll ran out, then two reads.  If no round of
    the start showed a reply and the transcript shows one at the first
    read, the task has afterwards exactly the prompt and that reply
    stored, the read having made one transcript request, and the second
    read leaves the world as it is: it asks the gateway nothing. *)
Theorem planning_start_then_get rt env env' env'' columns taskId w task text :
  plannable taskId (w_store w) task ->
  reachable env -> send_ok env = true ->
  (forall i, i < Planning.poll_attempts -> seen env i = None) ->
  reachable env' -> seen env' 0 = Some (lit "assistant", text) ->
  let w1 := snd (Planning.POST rt env taskId w) in
  let w2 := snd (PlanningGet.GET env' columns taskId w1) in
  task_by_id taskId (w_store w2)
  = Some (mkTask (t_id task) (t_title task) (t_description task)
            (lit "planning") (t_priority task) (t_assigned_agent_id task)
            (t_workspace_id task) (t_due_date task)
            (Some (planning_key taskId))
            (Some [mkPlanningMessage (lit "user") (planningPrompt rt task)
                     (date_now env 1);
                   mkPlanningMessage (lit "assistant") text (date_now env' 0)])
            (t_updated_at task))
  /\ w_trace w2
     = w_trace w1 ++ connecting env' ++ [ChatHistory (planning_key taskId)]
  /\ snd (PlanningGet.GET env'' columns taskId w2) = w2.
Proof.
  intros Hp Hreach Hsend Hseen Hreach' Hseen' w1 w2.
  pose proof (planning_waiting rt w Hp Hreach Hsend Hseen) as E1. fold w1 in E1.
  destruct Hp as [Htask _].
  pose proof (PlanningEffects.task_by_id_start (planning_key taskId)
                [mkPlanningMessage (lit "user") (planningPrompt rt task)
                   (date_now env 1)] _ _ Htask) as Hstart.
  assert (H1 : task_by_id taskId (w_store w1) = Some _)
    by (rewrite E1; exact Hstart).
  destruct (@get_syncs env' columns taskId w1 _ _ (planning_key taskId) H1
              eq_refl ltac:(discriminate) eq_refl eq_refl
              ltac:(discriminate)) as [Hsync _].
  destruct (Hsync text Hreach' Hseen') as [Hst Htr]. fold w2 in Hst, Htr.
  pose proof (PlanningEffects.task_by_id_messages
                ([mkPlanningMessage (lit "user") (planningPrompt rt task)
                    (date_now env 1)]
                 ++ [mkPlanningMessage (lit "assistant") text (date_now env' 0)])
                _ _ H1) as H2.
  rewrite <- Hst in H2.
  split; [exact H2|]. split; [exact Htr|].
  apply (proj2 (get_quiet env'' columns taskId w2) _ H2).
  right. left. unfold stored_messages, PlanningGet.last_stored_assistant.
  simpl. rewrite ?str_eqb_refl. discriminate.
Qed.

End PlanningGetProps.

(* ================================================================== *)
(** * What the completion webhook does *)
(* ================================================================== *)

Module CompletionEffects.

Import Facts Statements HandlerFacts Invariants Frames Samples.

#[local] Arguments sql_text : simpl never.

#[local] Arguments str_eqb : simpl never.
#[local] Arguments index_of : simpl never.
#[local] Arguments task_by_id : simpl never.
#[local] Arguments update_task_status : simpl never.
#[local] Arguments update_agent_status : simpl never.
#[local] Arguments active_session_by_key : simpl never.
#[local] Arguments active_task_of : simpl never.
#[local] Arguments assigned_agent_name : simpl never.
#[local] Arguments Completion.register_deliverables : simpl never.
#[local] Arguments Completion.log_completion : simpl never.
#[local] Arguments Completion.targetStatus : simpl never.
#[local] Arguments Completion.newStatus : simpl never.
#[local] Arguments Completion.completionMatch : simpl never.
#[local] Arguments trim : simpl never.
#[local] Opaque JSON_parse.

Lemma newStatus_moves (current target : jstring) :
  str_eqb (Completion.newStatus current target) current = false ->
  Completion.newStatus current target = target
  /\ (rank current < rank target)%Z.
Proof.
  unfold Completion.newStatus, rank.
  destruct (Z.gtb_spec (index_of target Completion.statusOrder)
              (index_of current Completion.statusOrder)) as [G|G].
  - intros _. split; [reflexivity|lia].
  - rewrite str_eqb_refl. discriminate.
Qed.

(** What the tail of the direct branch did to the tasks: nothing. *)
Ltac tail_tasks :=
  repeat match goal with
    | E : Completion.register_deliverables ?rt ?env ?b ?t ?w1 = (_, ?w2) |- _ =>
        let H := fresh "Htail" in
        pose proof (@register_deliverables_tasks rt env b t
                      (tasks (w_store w1)) w1 eq_refl) as H;
        rewrite E in H; simpl in H; clear E
    | E : Completion.log_completion ?rt ?env ?b ?t ?n ?w1 = (_, ?w2) |- _ =>
        let H := fresh "Htail" in
        pose proof (@log_completion_tasks rt env b t n
                      (tasks (w_store w1)) w1 eq_refl) as H;
        rewrite E in H; simpl in H; clear E
    end.

Lemma completion_tasks rt env signature raw w :
  let st := w_store w in
  let st' := w_store (snd (Completion.POST rt env signature raw w)) in
  tasks st' = tasks st
  \/ exists task new,
       In task (tasks st)
       /\ tasks st' = tasks (update_task_status new (now env) (t_id task) st)
       /\ (rank (t_status task) < rank new)%Z.
Proof.
  unfold Completion.POST, Completion.POST_body, handle, bind.
  rewrite check_signature_ok.
  destruct (signature_ok rt env signature raw); [|left; reflexivity].
  unfold Completion.process, Completion.direct, Completion.legacy, read,
    bind_param, or_reply.
  simpl.
  repeat (split_case; simpl); try (left; reflexivity).
  all: tail_tasks;
    repeat match goal with
      | H : tasks (w_store _) = _ |- _ => rewrite H; clear H
      end.
  all: try (left; reflexivity).
  all: try match goal with
       | Hn : negb (str_eqb (Completion.newStatus ?cur ?target) ?cur) = true,
         Ht : task_by_id _ _ = Some ?t |- _ =>
           apply negb_true_iff, newStatus_moves in Hn; destruct Hn as [Hn Hr];
           right; exists t, (Completion.newStatus cur target);
           split; [unfold task_by_id in Ht; now apply find_some in Ht|];
           split; [reflexivity|rewrite Hn; exact Hr]
       end.
  all: match goal with
       | Ht : active_task_of _ _ = Some ?t |- _ =>
           apply active_task_of_Some in Ht as (Hin & _ & Hst & _);
           right; exists t, (lit "testing");
           split; [exact Hin|]; split; [reflexivity|];
           destruct Hst as [-> | ->]; reflexivity
       end.
Qed.

Lemma advanced_refl (l : list Task) : Forall2 advanced l l.
Proof. induction l; constructor; [now left|assumption]. Qed.

Lemma update_advances (new now : jstring) (task : Task) (l : list Task) :
  NoDup (map t_id l) -> In task l ->
  (rank (t_status task) < rank new)%Z ->
  Forall2 advanced l
    (map (fun t =>
            if str_eqb (t_id t) (t_id task) then
              mkTask (t_id t) (t_title t) (t_description t) new (t_priority t)
                (t_assigned_agent_id t) (t_workspace_id t) (t_due_date t)
                (t_planning_session_key t) (t_planning_messages t) now
            else t) l).
Proof.
  intros Hnd Hin Hr.
  induction l as [|x l IH]; simpl; [constructor|].
  inversion Hnd as [|? ? Hx Hl]; subst.
  destruct (str_eqb (t_id x) (t_id task)) eqn:E.
  - apply str_eqb_eq in E.
    assert (x = task) as ->.
    { destruct Hin as [?|Hin]; [assumption|].
      exfalso. apply Hx. rewrite E. now apply in_map. }
    constructor.
    + right. exists new, now. auto.
    + clear IH Hin.
      assert (Hno : forall y, In y l -> str_eqb (t_id y) (t_id task) = false).
      { intros y Hy. apply str_eqb_neq. intros Ey. apply Hx.
        rewrite <- Ey. now apply in_map. }
      clear Hx Hl Hnd. induction l as [|y l IH]; simpl; [constructor|].
      rewrite (Hno y) by now left. constructor; [now left|].
      apply IH. intros z Hz. apply Hno. now right.
  - constructor; [now left|].
    apply IH; [assumption|].
    destruct Hin as [->|Hin]; [|assumption].
    now rewrite str_eqb_refl in E.
Qed.

(** X22.  Whatever the request, the completion webhook never moves a
    task backwards: when task ids are unique, every row of tasks is
    afterwards either as it was or the same row with a status strictly
    later in the order and a new time of update. *)
Theorem completion_never_moves_back rt env signature raw w :
  NoDup (map t_id (tasks (w_store w))) ->
  Forall2 advanced (tasks (w_store w))
    (tasks (w_store (snd (Completion.POST rt env signature raw w)))).
Proof.
  intros Hnd.
  destruct (completion_tasks rt env signature raw w)
    as [E|(task & new & Hin & E & Hr)]; rewrite E.
  - apply advanced_refl.
  - now apply update_advances.
Qed.

(** X20.  With a secret configured, a request whose signature header
    is the hex digest of the raw body under that secret is let through:
    the answer is that of the handler proper on the raw body. *)
Theorem signed_request_accepted rt env signature raw w secret :
  WEBHOOK_SECRET env = Some secret -> secret <> [] ->
  hmac_sha256_hex rt secret raw <> [] ->
  signature = Some (hmac_sha256_hex rt secret raw) ->
  Completion.POST rt env signature raw w
  = handle (fun _ => mkResponse 500 (error_body "Internal server error"))
      (Completion.process rt env raw) w.
Proof.
  intros Hs Hne Hh ->. apply POST_accepted.
  unfold signature_ok, Completion.verifyWebhookSignature. rewrite Hs.
  destruct secret as [|c k]; [contradiction|].
  destruct (hmac_sha256_hex rt (c :: k) raw) as [|x sig] eqn:E; [contradiction|].
  cbn [cell_truthy negb orb andb display_cell]. rewrite ?E.
  apply str_eqb_refl.
Qed.

(** X21.  Past the signature check: a raw body that is not JSON, or is
    the JSON null, is answered 500; a JSON value that, if it is an
    object, has neither a truthy task_id nor both a truthy session_id and
    a truthy message, is answered 400; a task_id that, as the database
    layer stores text, names no task is answered 404.  None of them
    changes anything. *)
Theorem completion_rejects rt env signature raw w :
  signature_ok rt env signature raw = true ->
  let r := Completion.POST rt env signature raw w in
  let internal := mkResponse 500 (error_body "Internal server error") in
  (JSON_parse raw = None \/ JSON_parse raw = Some JNull -> r = (internal, w))
  /\ (forall v,
        JSON_parse raw = Some v -> v <> JNull ->
        (forall members,
           v = JObj members ->
           truthy_opt (last_member (lit "task_id") members) = false
           /\ (truthy_opt (last_member (lit "session_id") members) = false
               \/ truthy_opt (last_member (lit "message") members) = false)) ->
        r = (mkResponse 400 (error_body
               "Invalid payload. Provide either task_id or session_id + message"),
             w))
  /\ (forall members tid,
        JSON_parse raw = Some (JObj members) ->
        last_member (lit "task_id") members = Some (JStr tid) -> tid <> [] ->
        task_by_id (sql_text tid) (w_store w) = None ->
        r = (mkResponse 404 (error_body "Task not found"), w)).
Proof.
  intros Hsig r internal. subst r.
  rewrite POST_accepted by assumption.
  unfold Completion.process, handle, read. simpl.
  split; [|split].
  - intros [-> | ->]; reflexivity.
  - intros v -> Hv Hobj.
    destruct v as [| | | | |members]; try contradiction; simpl; try reflexivity.
    destruct (Hobj members eq_refl) as [Ht Hrest]. rewrite Ht. simpl.
    destruct (truthy_opt (last_member (lit "session_id") members)) eqn:Es; simpl;
      [|reflexivity].
    destruct Hrest as [Hrest|Hrest]; [discriminate|]. rewrite Hrest. reflexivity.
  - intros members tid -> Htid Hne Hnone. simpl. rewrite Htid.
    destruct tid as [|c tid]; [contradiction|]. simpl.
    unfold Completion.direct. simpl. rewrite Hnone. reflexivity.
Qed.

Lemma rows_of_content env env' task task' items :
  t_id task' = t_id task ->
  forall n n',
    map row_content (rows_of env' task' items n')
    = map row_content (rows_of env task items n).
Proof.
  intros Hid. induction items as [|d items IH]; intros n n'; [reflexivity|].
  simpl. rewrite (IH (S n) (S n')). f_equal.
  destruct d; unfold row_content, row_of; simpl; rewrite Hid; reflexivity.
Qed.

Lemma rows_of_length env task items n : length (rows_of env task items n) = length items.
Proof. revert n; induction items; intros; simpl; auto. Qed.

#[local] Arguments agent_by_id : simpl never.
#[local] Arguments Completion.for_each : simpl never.
#[local] Arguments rows_of : simpl never.

Lemma register_listed rt env members task items w :
  match last_member (lit "deliverables") members with
  | None => items = []
  | Some (JArr l) => items = l /\ forallb well_typed_entry l = true
  | Some _ => False
  end ->
  Completion.register_deliverables rt env (JObj members) task w
  = (Ret (length items),
     mkWorld
       (mkStore (tasks (w_store w)) (agents (w_store w)) (sessions (w_store w))
          (events (w_store w)) (activities (w_store w))
          (deliverables (w_store w) ++ rows_of env task items (w_uuids w)))
       (length items + w_uuids w) (w_trace w)).
Proof.
  intros H.
  unfold Completion.register_deliverables, Completion.deliverables_of, read,
    or_default. simpl.
  destruct (last_member (lit "deliverables") members) as [[| | | |l|]|];
    try contradiction.
  - destruct H as [-> H]. simpl.
    rewrite CompletionProps.for_each_well_typed by assumption. reflexivity.
  - subst items. simpl. unfold rows_of. rewrite app_nil_r.
    destruct w as [[] ? ?]; reflexivity.
Qed.

Lemma log_summary rt env members task name w :
  text_or_absent (last_member (lit "summary") members) = true ->
  let summary := summary_of members in
  let st2 :=
    insert_event
      (mkEvent (uuid env (S (w_uuids w))) (lit "task_completed")
         (t_assigned_agent_id task) (Some (t_id task))
         (sql_text (display_cell name ++ lit " completed: " ++ summary))
         (now env))
      (insert_activity
         (mkActivity (uuid env (w_uuids w)) (t_id task)
            (t_assigned_agent_id task) (lit "completed")
            (Some (sql_text summary)) (now env))
         (w_store w)) in
  Completion.log_completion rt env (JObj members) task name w
  = (Ret tt,
     mkWorld
       (match t_assigned_agent_id task with
        | Some (c :: r) =>
            update_agent_status (lit "standby") (now env) (c :: r) st2
        | _ => st2
        end)
       (S (S (w_uuids w))) (w_trace w)).
Proof.
  intros H.
  unfold Completion.log_completion, read, bind_param, or_default, summary_of,
    display. simpl.
  destruct (last_member (lit "summary") members) as [[| | |[|c s]| |]|];
    try discriminate; simpl;
    destruct (t_assigned_agent_id task) as [[|c1 r1]|]; reflexivity.
Qed.

(** The world a direct payload leaves. *)
Lemma direct_world rt env signature raw w members tid task items :
  signature_ok rt env signature raw = true ->
  direct_payload raw members tid items ->
  task_by_id (sql_text tid) (w_store w) = Some task ->
  let st := w_store w in
  let n := w_uuids w in
  let new := status_after members (t_status task) in
  let summary := summary_of members in
  let st1 := if str_eqb new (t_status task) then st
             else update_task_status new (now env) (t_id task) st in
  let st2 :=
    insert_event
      (mkEvent (uuid env (S (length items + n))) (lit "task_completed")
         (t_assigned_agent_id task) (Some (t_id task))
         (sql_text (display_cell (assigned_agent_name task st)
                    ++ lit " completed: " ++ summary)) (now env))
      (insert_activity
         (mkActivity (uuid env (length items + n)) (t_id task)
            (t_assigned_agent_id task) (lit "completed")
            (Some (sql_text summary)) (now env))
         (mkStore (tasks st1) (agents st1) (sessions st1) (events st1)
            (activities st1)
            (deliverables st1 ++ rows_of env task items n))) in
  snd (Completion.POST rt env signature raw w)
  = mkWorld
      (match t_assigned_agent_id task with
       | Some (c :: r) => update_agent_status (lit "standby") (now env) (c :: r) st2
       | _ => st2
       end)
      (S (S (length items + n))) (w_trace w)
  /\ status (fst (Completion.POST rt env signature raw w)) = 200.
Proof.
  intros Hsig (Hparse & Htid & Hne & Hitems & Hsum) Htask.
  rewrite POST_accepted by assumption.
  unfold Completion.process, handle, read. simpl. rewrite Hparse. simpl.
  rewrite Htid. destruct tid as [|c0 tid]; [contradiction|]. simpl.
  unfold Completion.direct, read, bind_param. simpl.
  rewrite Htask. simpl.
  unfold status_after.
  set (new := Completion.newStatus (t_status task)
                (Completion.targetStatus (last_member (lit "status") members))).
  destruct (str_eqb new (t_status task)); simpl;
    rewrite (@register_listed rt env members task items _ Hitems); simpl;
    rewrite log_summary by assumption; simpl; split; reflexivity.
Qed.

(** X23.  A direct completion is answered 200 and logs: one activity
    of type completed whose message is the payload's summary, or Task
    finished when the summary is absent, null or empty; one
    task_completed event; the assigned agent, when the task has one, is
    set to standby.  It draws one identifier per deliverable and two
    more.  The task is looked up, and both messages are written, as the
    database layer stores text. *)
Theorem direct_completion_logged rt env signature raw w members tid task items :
  signature_ok rt env signature raw = true ->
  direct_payload raw members tid items ->
  task_by_id (sql_text tid) (w_store w) = Some task ->
  let st := w_store w in
  let r := Completion.POST rt env signature raw w in
  let st' := w_store (snd r) in
  let n := length items + w_uuids w in
  status (fst r) = 200
  /\ activities st'
     = activities st
       ++ [mkActivity (uuid env n) (t_id task) (t_assigned_agent_id task)
             (lit "completed") (Some (sql_text (summary_of members))) (now env)]
  /\ events st'
     = events st
       ++ [mkEvent (uuid env (S n)) (lit "task_completed")
             (t_assigned_agent_id task) (Some (t_id task))
             (sql_text (display_cell (assigned_agent_name task st)
                        ++ lit " completed: " ++ summary_of members))
             (now env)]
  /\ (forall aid agent,
        t_assigned_agent_id task = Some aid -> aid <> [] ->
        agent_by_id aid st = Some agent ->
        agent_by_id aid st'
        = Some (mkAgent (a_id agent) (a_name agent) (a_role agent)
                  (a_is_master agent) (lit "standby") (a_workspace_id agent)
                  (now env)))
  /\ (cell_truthy (t_assigned_agent_id task) = false -> agents st' = agents st)
  /\ w_uuids (snd r) = 2 + n.
Proof.
  intros Hsig Hp Htask st r st' n.
  destruct (@direct_world rt env signature raw w members tid task items
              Hsig Hp Htask) as [E Hstatus].
  subst st' r. rewrite E. clear E. cbn [w_store w_uuids].
  split; [exact Hstatus|].
  set (new := status_after members (t_status task)).
  split; [|split; [|split; [|split]]].
  - destruct (t_assigned_agent_id task) as [[|c r]|];
      destruct (str_eqb new (t_status task)); reflexivity.
  - destruct (t_assigned_agent_id task) as [[|c r]|];
      destruct (str_eqb new (t_status task)); reflexivity.
  - intros aid agent -> Hne Hagent. destruct aid as [|c r]; [contradiction|].
    match goal with
    | |- agent_by_id _ (update_agent_status ?s ?t ?i ?st2) = _ =>
        apply (@DispatchEffects.agent_by_id_update s t i st2 agent)
    end.
    rewrite <- Hagent. apply DispatchEffects.agent_by_id_agents.
    destruct (str_eqb new (t_status task)); reflexivity.
  - destruct (t_assigned_agent_id task) as [[|c r]|]; try discriminate;
      intros _; destruct (str_eqb new (t_status task)); reflexivity.
  - reflexivity.
Qed.

Lemma newStatus_idem (current target : jstring) :
  Completion.newStatus (Completion.newStatus current target) target
  = Completion.newStatus current target.
Proof.
  unfold Completion.newStatus.
  destruct (Z.gtb_spec (index_of target Completion.statusOrder)
              (index_of current Completion.statusOrder)) as [G|G].
  - rewrite Z.gtb_ltb, Z.ltb_irrefl. reflexivity.
  - destruct (Z.gtb_spec (index_of target Completion.statusOrder)
                (index_of current Completion.statusOrder)); [lia|reflexivity].
Qed.

(** X24.  The same direct payload sent twice: the second request is
    answered 200 and changes no task row, but registers every
    deliverable again, with the same content, and logs the completion
    again. *)
Theorem direct_completion_replayed
    rt env env' signature signature' raw w members tid task items :
  signature_ok rt env signature raw = true ->
  signature_ok rt env' signature' raw = true ->
  direct_payload raw members tid items ->
  task_by_id (sql_text tid) (w_store w) = Some task ->
  let w1 := snd (Completion.POST rt env signature raw w) in
  let r2 := Completion.POST rt env' signature' raw w1 in
  let w2 := snd r2 in
  status (fst r2) = 200
  /\ tasks (w_store w2) = tasks (w_store w1)
  /\ (exists rows1 rows2,
        deliverables (w_store w1) = deliverables (w_store w) ++ rows1
        /\ deliverables (w_store w2) = deliverables (w_store w1) ++ rows2
        /\ length rows1 = length items
        /\ map row_content rows2 = map row_content rows1)
  /\ length (activities (w_store w2)) = 2 + length (activities (w_store w))
  /\ length (events (w_store w2)) = 2 + length (events (w_store w)).
Proof.
  intros Hsig Hsig' Hp Htask w1 r2 w2.
  destruct (@direct_world rt env signature raw w members tid task items
              Hsig Hp Htask) as [E1 _]. fold w1 in E1.
  set (new := status_after members (t_status task)) in *.
  assert (Htask1 : exists task1,
    task_by_id (sql_text tid) (w_store w1) = Some task1
    /\ t_id task1 = t_id task /\ t_status task1 = new).
  { rewrite E1. cbn [w_store].
    pose proof (task_by_id_id _ _ Htask) as Hid.
    destruct (str_eqb new (t_status task)) eqn:En.
    - exists task. split; [|split; [reflexivity|]].
      + rewrite <- Htask. apply task_by_id_tasks.
        destruct (t_assigned_agent_id task) as [[|c r]|]; reflexivity.
      + symmetry. now apply str_eqb_eq.
    - exists (mkTask (t_id task) (t_title task) (t_description task) new
                (t_priority task) (t_assigned_agent_id task) (t_workspace_id task)
                (t_due_date task) (t_planning_session_key task)
                (t_planning_messages task) (now env)).
      split; [|split; reflexivity].
      rewrite (@task_by_id_tasks (sql_text tid) _
                 (update_task_status new (now env) (t_id task) (w_store w)));
        [rewrite <- Hid in Htask |- *; apply task_by_id_update; exact Htask|].
      destruct (t_assigned_agent_id task) as [[|c r]|]; reflexivity. }
  destruct Htask1 as (task1 & Htask1 & Hid1 & Hst1).
  destruct (@direct_world rt env' signature' raw w1 members tid task1 items
              Hsig' Hp Htask1) as [E2 Hstatus2].
  fold r2 w2 in E2, Hstatus2.
  assert (Hsame : str_eqb (status_after members (t_status task1)) (t_status task1)
                  = true).
  { rewrite Hst1. unfold new, status_after. rewrite newStatus_idem.
    apply str_eqb_refl. }
  rewrite Hsame in E2.
  split; [exact Hstatus2|].
  split.
  { rewrite E2. destruct (t_assigned_agent_id task1) as [[|c r]|]; reflexivity. }
  split.
  { exists (rows_of env task items (w_uuids w)),
      (rows_of env' task1 items (w_uuids w1)).
    split; [|split; [|split]].
    - rewrite E1.
      destruct (t_assigned_agent_id task) as [[|c r]|];
        destruct (str_eqb new (t_status task)); reflexivity.
    - rewrite E2. destruct (t_assigned_agent_id task1) as [[|c r]|]; reflexivity.
    - apply rows_of_length.
    - now apply rows_of_content. }
  split.
  - rewrite E2.
    assert (A1 : length (activities (w_store w1)) = 1 + length (activities (w_store w))).
    { rewrite E1.
      destruct (t_assigned_agent_id task) as [[|c r]|];
        destruct (str_eqb new (t_status task)); simpl;
        rewrite length_app; simpl; lia. }
    destruct (t_assigned_agent_id task1) as [[|c r]|]; simpl;
      rewrite length_app; simpl; lia.
  - rewrite E2.
    assert (A1 : length (events (w_store w1)) = 1 + length (events (w_store w))).
    { rewrite E1.
      destruct (t_assigned_agent_id task) as [[|c r]|];
        destruct (str_eqb new (t_status task)); simpl;
        rewrite length_app; simpl; lia. }
    destruct (t_assigned_agent_id task1) as [[|c r]|]; simpl;
      rewrite length_app; simpl; lia.
Qed.

End CompletionEffects.

(* ================================================================== *)
(** * Requests in sequence *)
(* ================================================================== *)

Module Workflow.

Import Facts Statements HandlerFacts Invariants Frames Samples.

#[local] Arguments sql_text : simpl never.

#[local] Arguments str_eqb : simpl never.
#[local] Arguments index_of : simpl never.
#[local] Arguments task_by_id : simpl never.
#[local] Arguments agent_by_id : simpl never.
#[local] Arguments update_task_status : simpl never.
#[local] Arguments update_agent_status : simpl never.

Lemma targetStatus_later (status : option json) :
  (rank (lit "in_progress") < rank (Completion.targetStatus status))%Z.
Proof.
  unfold Completion.targetStatus.
  destruct status as [[| | |s| |]|]; try reflexivity.
  destruct (existsb (str_eqb s) Completion.allowedStatuses) eqn:E; [|reflexivity].
  apply existsb_str_eqb in E.
  destruct E as [<-|[<-|[<-|[]]]]; reflexivity.
Qed.

(** X25.  Dispatch, then the completion report the dispatch message
    asks for.  After a dispatch that went through, a direct payload
    whose task_id, as the database layer stores text, names the task is
    answered 200, leaves the task in the target status (the
    payload's status when that is testing, review or done, and testing
    otherwise), all else of the row but the time of update being as
    before the dispatch, and sets the agent to standby. *)
Theorem dispatch_then_complete
    rt env env' id w task agent signature raw members tid items :
  dispatchable id (w_store w) task agent ->
  reachable env -> send_ok env = true ->
  signature_ok rt env' signature raw = true ->
  direct_payload raw members tid items -> sql_text tid = id ->
  let w1 := snd (Dispatch.POST rt env id w) in
  let r2 := Completion.POST rt env' signature raw w1 in
  let st2 := w_store (snd r2) in
  let target := Completion.targetStatus (last_member (lit "status") members) in
  status (fst r2) = 200
  /\ In target Completion.allowedStatuses
  /\ task_by_id id st2
     = Some (mkTask (t_id task) (t_title task) (t_description task) target
               (t_priority task) (t_assigned_agent_id task) (t_workspace_id task)
               (t_due_date task) (t_planning_session_key task)
               (t_planning_messages task) (now env'))
  /\ agent_by_id (a_id agent) st2
     = Some (mkAgent (a_id agent) (a_name agent) (a_role agent)
               (a_is_master agent) (lit "standby") (a_workspace_id agent)
               (now env')).
Proof.
  intros Hd Hreach Hsend Hsig Hp Hsql w1 r2 st2 target.
  destruct (@DispatchEffects.dispatch_done rt env id w task agent Hd Hreach Hsend)
    as (_ & Htask1 & Hagent1).
  fold w1 in Htask1, Hagent1.
  destruct Hd as (Htask & Hassigned & Hne & Hagent & _).
  assert (Hnamed : task_by_id (sql_text tid) (w_store w1) = task_by_id id (w_store w1))
    by (rewrite Hsql; reflexivity).
  rewrite <- Hnamed in Htask1.
  destruct (@CompletionEffects.direct_world rt env' signature raw w1 members tid _ items
              Hsig Hp Htask1) as [E Hstatus].
  fold r2 in E, Hstatus.
  split; [exact Hstatus|].
  split.
  { unfold target, Completion.targetStatus.
    destruct (last_member (lit "status") members) as [[| | |s| |]|];
      try (left; reflexivity).
    destruct (existsb (str_eqb s) Completion.allowedStatuses) eqn:Ex;
      [now apply existsb_str_eqb|left; reflexivity]. }
  subst st2. rewrite E. clear E. cbn [w_store t_status t_assigned_agent_id t_id].
  rewrite Hassigned.
  destruct (a_id agent) as [|c r] eqn:Eid; [contradiction|].
  assert (Hnew : status_after members (lit "in_progress") = target).
  { unfold status_after, Completion.newStatus. fold target.
    pose proof (targetStatus_later (last_member (lit "status") members)) as L.
    fold target in L. unfold rank in L.
    destruct (Z.gtb_spec (index_of target Completion.statusOrder)
                (index_of (lit "in_progress") Completion.statusOrder));
      [reflexivity|lia]. }
  rewrite Hnew.
  assert (Hmoved : str_eqb target (lit "in_progress") = false).
  { apply str_eqb_neq. intros Et.
    pose proof (targetStatus_later (last_member (lit "status") members)) as L.
    fold target in L. rewrite Et in L. lia. }
  rewrite Hmoved.
  pose proof (task_by_id_id _ _ Htask) as Hid.
  rewrite Hnamed in Htask1.
  split.
  - rewrite (@task_by_id_tasks id _
               (update_task_status target (now env') id (w_store w1)))
      by (rewrite <- Hid; reflexivity).
    rewrite (@task_by_id_update target (now env') id (w_store w1) _ Htask1).
    simpl. rewrite ?Hassigned. reflexivity.
  - match goal with
    | |- agent_by_id _ (update_agent_status ?s ?t ?i ?st2) = _ =>
        rewrite (@DispatchEffects.agent_by_id_update s t i st2 _
                   ltac:(rewrite <- Hagent1;
                         apply DispatchEffects.agent_by_id_agents; reflexivity))
    end.
    reflexivity.
Qed.

#[local] Arguments active_session_by_key : simpl never.
#[local] Arguments active_task_of : simpl never.
#[local] Arguments assigned_agent_name : simpl never.
#[local] Arguments Completion.completionMatch : simpl never.
#[local] Arguments trim : simpl never.
#[local] Opaque JSON_parse.

(** The world a legacy payload leaves when it names an active session
    whose agent has an active task. *)
Lemma legacy_world rt env signature raw w members sid msg captured session task :
  signature_ok rt env signature raw = true ->
  legacy_payload raw members sid msg ->
  Completion.completionMatch msg = Some captured ->
  active_session_by_key (sql_text sid) (w_store w) = Some session ->
  active_task_of (s_agent_id session) (w_store w) = Some task ->
  let st := w_store w in
  let r := Completion.POST rt env signature raw w in
  status (fst r) = 200
  /\ snd r
     = mkWorld
         (update_agent_status (lit "standby") (now env) (s_agent_id session)
            (insert_event
               (mkEvent (uuid env (w_uuids w)) (lit "task_completed")
                  (Some (s_agent_id session)) (Some (t_id task))
                  (sql_text (display_cell (assigned_agent_name task st)
                             ++ lit " completed: " ++ trim captured))
                  (now env))
               (update_task_status (lit "testing") (now env) (t_id task) st)))
         (S (w_uuids w)) (w_trace w).
Proof.
  intros Hsig (Hparse & Htid & Hsid & Hsne & Hmsg & Hmne) Hmatch Hsession Htask.
  simpl. rewrite POST_accepted by assumption.
  unfold Completion.process, handle, read. simpl. rewrite Hparse. simpl.
  rewrite Htid. simpl. rewrite Hsid.
  destruct sid as [|c0 sid]; [contradiction|]. simpl. rewrite Hmsg.
  destruct msg as [|c1 msg]; [contradiction|]. simpl.
  unfold Completion.legacy, bind_param. simpl.
  rewrite Hmatch. simpl. rewrite Hsession. simpl. rewrite Htask. simpl.
  destruct (active_task_of_Some _ _ Htask) as (_ & _ & Hst & _).
  destruct Hst as [-> | ->]; split; reflexivity.
Qed.

(** A task that is still active after a legacy completion is not the
    one that was completed. *)
Lemma still_active (agent now id : jstring) (st : store) (t : Task) :
  active_task_of agent (update_task_status (lit "testing") now id st) = Some t ->
  t_id t <> id /\ In t (tasks st).
Proof.
  intros H. apply active_task_of_Some in H as (Hin & _ & Hst & _).
  unfold update_task_status, set_tasks in Hin. simpl in Hin.
  apply in_map_iff in Hin as (x & Hx & Hin).
  destruct (str_eqb (t_id x) id) eqn:E.
  - subst t. simpl in Hst. destruct Hst as [Hst|Hst]; discriminate.
  - subst t. apply str_eqb_neq in E. auto.
Qed.

(** X26.  The same legacy payload sent twice, its session id naming,
    as the database layer stores text, an active session.  The second
    request does not find the task the first one completed: either the agent
    has no further active task and the answer is 404 with nothing
    changed, or another task of the agent, its latest still active, is
    moved to testing as well. *)
Theorem legacy_replay_takes_next
    rt env env' signature signature' raw w members sid msg captured session task :
  signature_ok rt env signature raw = true ->
  signature_ok rt env' signature' raw = true ->
  legacy_payload raw members sid msg ->
  Completion.completionMatch msg = Some captured ->
  active_session_by_key (sql_text sid) (w_store w) = Some session ->
  active_task_of (s_agent_id session) (w_store w) = Some task ->
  let w1 := snd (Completion.POST rt env signature raw w) in
  let r2 := Completion.POST rt env' signature' raw w1 in
  match active_task_of (s_agent_id session) (w_store w1) with
  | None =>
      r2 = (mkResponse 404 (error_body "No active task found for this agent"), w1)
  | Some next =>
      t_id next <> t_id task
      /\ In next (tasks (w_store w))
      /\ status (fst r2) = 200
      /\ option_map t_status (task_by_id (t_id next) (w_store (snd r2)))
         = Some (lit "testing")
  end.
Proof.
  intros Hsig Hsig' Hp Hmatch Hsession Htask w1 r2.
  destruct (@legacy_world rt env signature raw w members sid msg captured session
              task Hsig Hp Hmatch Hsession Htask) as [_ E1].
  fold w1 in E1.
  assert (Hsession1 :
    active_session_by_key (sql_text sid) (w_store w1) = Some session)
    by (rewrite E1; exact Hsession).
  destruct (active_task_of (s_agent_id session) (w_store w1)) as [next|] eqn:Hnext.
  - destruct (@legacy_world rt env' signature' raw w1 members sid msg captured
                session next Hsig' Hp Hmatch Hsession1 Hnext) as [Hstatus E2].
    fold r2 in Hstatus, E2.
    assert (Hn : active_task_of (s_agent_id session)
                   (update_task_status (lit "testing") (now env) (t_id task)
                      (w_store w)) = Some next).
    { rewrite <- Hnext, E1. reflexivity. }
    destruct (@still_active _ _ _ _ _ Hn) as [Hne Hin].
    split; [exact Hne|]. split; [exact Hin|]. split; [exact Hstatus|].
    rewrite E2. cbn [w_store].
    assert (Hfound : exists x, task_by_id (t_id next) (w_store w1) = Some x).
    { apply active_task_of_Some in Hnext as (Hin1 & _).
      unfold task_by_id.
      destruct (find (fun t => str_eqb (t_id t) (t_id next)) (tasks (w_store w1)))
        as [x|] eqn:F; [eauto|].
      eapply find_none in F; [|exact Hin1]. simpl in F.
      now rewrite str_eqb_refl in F. }
    destruct Hfound as (x & Hx).
    rewrite (@task_by_id_tasks (t_id next) _
               (update_task_status (lit "testing") (now env') (t_id next)
                  (w_store w1))) by reflexivity.
    rewrite (@task_by_id_update _ _ _ _ _ Hx). reflexivity.
  - subst r2. rewrite POST_accepted by assumption.
    destruct Hp as (Hparse & Htid & Hsid & Hsne & Hmsg & Hmne).
    unfold Completion.process, handle, read. simpl. rewrite Hparse. simpl.
    rewrite Htid. simpl. rewrite Hsid.
    destruct sid as [|c0 sid]; [contradiction|]. simpl. rewrite Hmsg.
    destruct msg as [|c1 msg]; [contradiction|]. simpl.
    unfold Completion.legacy, bind_param. simpl.
    rewrite Hmatch. simpl. rewrite Hsession1. simpl. rewrite Hnext. reflexivity.
Qed.

End Workflow.

(* ================================================================== *)
(** * The patterns of the handlers *)
(* ================================================================== *)

Module PatternProps.

Import Facts Statements HandlerFacts Invariants.

(** ** The whitespace of a derived session id *)





(** ** The completion pattern *)

Lemma lit_match_split (ic : bool) (p s r : jstring) :
  lit_match ic p s = Some r ->
  exists m, s = m ++ r /\ map (canon ic) m = map (canon ic) p.
Proof.
  revert s; induction p as [|x p IH]; intros s; simpl.
  - intros [= ->]. exists []. auto.
  - destruct s as [|y s]; [discriminate|].
    destruct (N.eqb_spec (canon ic x) (canon ic y)) as [E|_]; [|discriminate].
    intros H. destruct (IH _ H) as (m & -> & Hm).
    exists (y :: m). simpl. rewrite Hm, E. auto.
Qed.

Lemma lit_match_app (ic : bool) (p m r : jstring) :
  map (canon ic) m = map (canon ic) p -> lit_match ic p (m ++ r) = Some r.
Proof.
  revert m; induction p as [|x p IH]; intros [|y m]; simpl; try discriminate.
  - reflexivity.
  - intros [= Hy Hm]. rewrite Hy, N.eqb_refl. now apply IH.
Qed.

(** What a greedy repetition took when the match went through. *)
Lemma star_some (A : Type) (p : N -> bool) (k : jstring -> option A)
    (s : jstring) (a : A) :
  star p s k = Some a ->
  exists taken r, s = taken ++ r /\ forallb p taken = true /\ k r = Some a.
Proof.
  induction s as [|c s IH]; simpl.
  - intros H. exists [], []. auto.
  - destruct (p c) eqn:E.
    + destruct (star p s k) as [a'|] eqn:S.
      * intros [= ->]. destruct (IH eq_refl) as (taken & r & -> & Ht & Hk).
        exists (c :: taken), r. simpl. rewrite E. auto.
      * intros H. exists [], (c :: s). auto.
    + intros H. exists [], (c :: s). auto.
Qed.

(** A greedy repetition in front of a continuation that always
    succeeds takes all it can. *)
Lemma star_max (A : Type) (p : N -> bool) (k : jstring -> option A) (s : jstring) :
  (forall y, k y <> None) ->
  exists taken r,
    s = taken ++ r /\ forallb p taken = true
    /\ match r with [] => True | c :: _ => p c = false end
    /\ star p s k = k r.
Proof.
  intros Hk. induction s as [|c s IH]; simpl.
  - exists [], []. auto.
  - destruct (p c) eqn:E.
    + destruct IH as (taken & r & -> & Ht & Hr & Hs).
      exists (c :: taken), r. simpl. rewrite E, Hs.
      destruct (k r) eqn:K; [auto|]. now apply Hk in K.
    + exists [], (c :: s). simpl. auto.
Qed.

(** Taking all of a run that ends where the class fails. *)
Lemma star_greedy (A : Type) (p : N -> bool) (k : jstring -> option A)
    (taken r : jstring) (a : A) :
  forallb p taken = true ->
  match r with [] => True | c :: _ => p c = false end ->
  k r = Some a ->
  star p (taken ++ r) k = Some a.
Proof.
  intros Ht Hr Hk. induction taken as [|c taken IH]; simpl in *.
  - destruct r as [|c r]; [assumption|]. simpl. now rewrite Hr.
  - apply andb_true_iff in Ht as [Hc Ht]. rewrite Hc, (IH Ht). reflexivity.
Qed.

Lemma exec_some (ic : bool) (r : re) (s : jstring) (caps : list jstring) :
  exec ic r s = Some caps ->
  exists pre s',
    s = pre ++ s' /\ run ic r s' [] (fun _ c => Some c) = Some caps.
Proof.
  induction s as [|c s IH]; simpl.
  - destruct (run ic r [] [] (fun _ c => Some c)) eqn:R; [|discriminate].
    intros [= ->]. exists [], []. auto.
  - destruct (run ic r (c :: s) [] (fun _ c0 => Some c0)) eqn:R.
    + intros [= ->]. exists [], (c :: s). auto.
    + intros H. destruct (IH H) as (pre & s' & -> & Hr).
      exists (c :: pre), s'. auto.
Qed.

Lemma exec_here (ic : bool) (r : re) (s : jstring) (caps : list jstring) :
  run ic r s [] (fun _ c => Some c) = Some caps -> exec ic r s = Some caps.
Proof. intros H. destruct s; simpl; now rewrite H. Qed.

Lemma firstn_taken (A : Type) (taken r : list A) :
  firstn (length (taken ++ r) - length r) (taken ++ r) = taken.
Proof.
  rewrite length_app, Nat.add_sub.
  rewrite firstn_app, Nat.sub_diag, firstn_all. simpl. apply app_nil_r.
Qed.

Lemma dot_line_terminator (c : N) : dot c = false <-> is_line_terminator c = true.
Proof. unfold dot. destruct (is_line_terminator c); simpl; intuition congruence. Qed.

(** X27.  What the completion pattern captures: a non-empty text
    without line terminator that follows, after whitespace, an
    occurrence of the marker TASK_COMPLETE: in any letter case, and
    reaches to the end of the line. *)
Theorem completion_marker_sound (msg summary : jstring) :
  Completion.completionMatch msg = Some summary ->
  summary <> [] /\ forallb dot summary = true
  /\ exists pre m spaces post,
       msg = pre ++ m ++ spaces ++ summary ++ post
       /\ map (canon true) m = map (canon true) (lit "TASK_COMPLETE:")
       /\ forallb is_space spaces = true
       /\ match post with
          | [] => True
          | c :: _ => is_line_terminator c = true
          end.
Proof.
  unfold Completion.completionMatch.
  destruct (exec true Completion.completionRe msg) as [[|cap caps]|] eqn:E;
    try discriminate.
  intros [= ->].
  apply exec_some in E as (pre & s' & -> & R).
  unfold Completion.completionRe in R. cbn [run] in R.
  destruct (lit_match true (lit "TASK_COMPLETE:") s') as [s1|] eqn:L;
    [|discriminate].
  apply lit_match_split in L as (m & -> & Hm).
  apply star_some in R as (spaces & s2 & -> & Hsp & R).
  destruct s2 as [|c s2]; [discriminate|].
  destruct (dot c) eqn:Hc; [|discriminate].
  match type of R with
  | star dot ?x ?k = _ =>
      destruct (@star_max _ dot k x ltac:(discriminate))
        as (taken & post & E & Ht & Hpost & S)
  end.
  rewrite S in R. subst s2.
  change (c :: taken ++ post) with ((c :: taken) ++ post) in R.
  rewrite firstn_taken in R. injection R as <- <-.
  split; [discriminate|]. split; [simpl; now rewrite Hc|].
  exists pre, m, spaces, post.
  split; [reflexivity|]. split; [exact Hm|]. split; [exact Hsp|].
  destruct post as [|d post]; [exact I|]. now apply dot_line_terminator.
Qed.

(** X28.  A message that starts with the marker in any letter case,
    followed by whitespace and a summary that fills the rest of its
    line and begins with a visible character, is recognised, and the
    summary is what is captured. *)
Theorem completion_marker_complete (m spaces summary post : jstring) :
  map (canon true) m = map (canon true) (lit "TASK_COMPLETE:") ->
  forallb is_space spaces = true ->
  forallb dot summary = true ->
  match summary with [] => False | c :: _ => is_space c = false end ->
  match post with [] => True | c :: _ => is_line_terminator c = true end ->
  Completion.completionMatch (m ++ spaces ++ summary ++ post) = Some summary.
Proof.
  intros Hm Hsp Hdot Hhead Hpost.
  unfold Completion.completionMatch.
  rewrite (@exec_here true Completion.completionRe _ [summary]); [reflexivity|].
  unfold Completion.completionRe. cbn [run].
  rewrite (lit_match_app true _ _ _ Hm).
  destruct summary as [|c summary]; [contradiction|].
  simpl in Hdot. apply andb_true_iff in Hdot as [Hc Hdot].
  apply star_greedy; [exact Hsp|simpl; exact Hhead|].
  cbn [app]. rewrite Hc.
  apply star_greedy; [exact Hdot| |].
  - destruct post as [|d post]; [exact I|]. now apply dot_line_terminator.
  - change (c :: summary ++ post) with ((c :: summary) ++ post).
    rewrite firstn_taken. reflexivity.
Qed.

End PatternProps.

(* ================================================================== *)
(** * The theorems at sample worlds *)
(* ================================================================== *)

Module Instances.

Import Statements Samples Invariants Scenarios.

#[local] Arguments sql_text : simpl never.

(** Settles that the sample task can be dispatched. *)
Ltac sample_dispatchable :=
  unfold dispatchable; repeat split; try reflexivity;
  [vm_compute; discriminate | left; reflexivity].

Lemma one_active_session_unless_overlapping_witness :
  let r := Interleaving.POST_overlapping rt0 env0 env0 (lit "M1") []
             (litq "{'openclaw_session_id':'custom'}") (world_of st_team) in
  status (fst (fst r)) = 201 /\ status (snd (fst r)) = 201
  /\ length (filter (is_active_session_of (lit "M1"))
               (sessions (w_store (snd r)))) = 2
  /\ ~ at_most_one_active (w_store (snd r)).
Proof.
  refine (proj2 (proj2 (@Overlap.one_active_session_unless_overlapping rt0 env0
                          no_columns (lit "M1") [] None [] (world_of st_team) _))
            env0 (litq "{'openclaw_session_id':'custom'}") charlie
            None (Some (lit "custom")) _ _ _ _ _ _ _ _).
  - intros agent_id. simpl.
    match goal with |- context [if ?b then _ else _] => destruct b end;
      simpl; lia.
  - reflexivity.
  - reflexivity.
  - right. reflexivity.
  - reflexivity.
  - right. reflexivity.
  - reflexivity.
  - vm_compute. reflexivity.
  - vm_compute. reflexivity.
Defined.

Lemma dispatch_gateway_down_witness :
  Dispatch.POST rt0 env_down (lit "T1") (world_of st_unlinked)
  = (mkResponse 503 (error_body "Failed to connect to OpenClaw Gateway"),
     mkWorld st_unlinked 0 [Connect]).
Proof.
  apply (@DispatchEffects.dispatch_gateway_down rt0 env_down (lit "T1")
           (world_of st_unlinked)
           (task_of "T1" "inbox" "A" "2026-02-02T00:00:00.000Z") engineer).
  - sample_dispatchable.
  - reflexivity.
  - reflexivity.
Defined.

Lemma dispatch_send_failure_witness :
  fst (Dispatch.POST rt0 env_send_fails (lit "T1") (world_of st_unlinked))
  = Dispatch.internal_error.
Proof.
  refine (proj1 (@DispatchEffects.dispatch_send_failure rt0 env_send_fails (lit "T1")
                   (world_of st_unlinked)
                   (task_of "T1" "inbox" "A" "2026-02-02T00:00:00.000Z") engineer
                   _ _ _)).
  - sample_dispatchable.
  - right. reflexivity.
  - reflexivity.
Defined.

Lemma dispatch_success_witness :
  status (fst (Dispatch.POST rt0 env0 (lit "T1") (world_of st_unlinked))) = 200.
Proof.
  refine (proj1 (@DispatchEffects.dispatch_success rt0 env0 (lit "T1")
                   (world_of st_unlinked)
                   (task_of "T1" "inbox" "A" "2026-02-02T00:00:00.000Z") engineer
                   _ _ _)).
  - sample_dispatchable.
  - right. reflexivity.
  - reflexivity.
Defined.


Lemma link_session_key_witness :
  status (fst (OpenClawLink.POST rt0 env0 (lit "A")
                 (litq "{'openclaw_session_id':'custom'}") (world_of st_unlinked)))
  = 201.
Proof.
  refine (proj1 (@LinkEffects.link_session_key rt0 env0 (lit "A")
                   (litq "{'openclaw_session_id':'custom'}") (world_of st_unlinked)
                   engineer (Some (lit "custom")) _ _ _ _ _)).
  - reflexivity.
  - reflexivity.
  - right. reflexivity.
  - reflexivity.
  - vm_compute. reflexivity.
Defined.

Lemma link_round_trip_witness :
  active_session_of (lit "A")
    (w_store
       (snd (OpenClawLink.DELETE env0 (lit "A")
               (snd (OpenClawLink.POST rt0 env0 (lit "A") [] (world_of st_unlinked))))))
  = None.
Proof.
  destruct (@LinkEffects.link_round_trip rt0 env0 (lit "A") [] []
              (world_of st_unlinked))
    as (s & _ & _ & _ & _ & H & _).
  - vm_compute. reflexivity.
  - exact H.
Defined.

(** Settles that the sample reply shows first in the third round. *)
Ltac sample_first_reply :=
  unfold first_reply; split; [unfold Planning.poll_attempts; lia|];
  split;
  [ let j := fresh "j" in let Hj := fresh "Hj" in
    intros j Hj; destruct j as [|[|j]]; [reflexivity|reflexivity|lia]
  | reflexivity ].

Lemma planning_reply_stored_witness :
  w_trace (snd (Planning.POST rt0 (env_reply (litq "{'question':'Which stack?'}"))
                  (lit "T1") (world_of st_unlinked)))
  = planning_prompt_sent rt0 (env_reply (litq "{'question':'Which stack?'}"))
      (lit "T1") (task_of "T1" "inbox" "A" "2026-02-02T00:00:00.000Z")
    ++ rounds (planning_key (lit "T1")) 3.
Proof.
  refine (proj1 (@PlanningEffects.planning_reply_stored rt0
                   (env_reply (litq "{'question':'Which stack?'}")) (lit "T1")
                   (world_of st_unlinked)
                   (task_of "T1" "inbox" "A" "2026-02-02T00:00:00.000Z") 2
                   (litq "{'question':'Which stack?'}") _ _ _ _)).
  - split; reflexivity.
  - right. reflexivity.
  - reflexivity.
  - sample_first_reply.
Defined.


Lemma planning_scalar_reply_fails_witness :
  fst (Planning.POST rt0 (env_reply (lit "42")) (lit "T1") (world_of st_unlinked))
  = mkResponse 500
      (JObj [field "error"
               (JStr (lit "Failed to start planning: "
                      ++ fault_message rt0 TypeFault))]).
Proof.
  refine (proj1 (@PlanningEffects.planning_scalar_reply_fails rt0
                   (env_reply (lit "42")) env0 (lit "T1") (world_of st_unlinked)
                   (task_of "T1" "inbox" "A" "2026-02-02T00:00:00.000Z") 2
                   (lit "42") (JNum false 42 0) _ _ _ _ _ _ _)).
  - split; reflexivity.
  - right. reflexivity.
  - reflexivity.
  - sample_first_reply.
  - vm_compute. reflexivity.
  - reflexivity.
  - reflexivity.
Defined.

Lemma planning_starts_once_witness :
  status (fst (Planning.POST rt0 env0 (lit "T1")
                 (snd (Planning.POST rt0 env0 (lit "T1") (world_of st_unlinked)))))
  = 400.
Proof.
  pose proof (proj2 (@PlanningEffects.planning_starts_once rt0 env0 env0 (lit "T1")
                       (world_of st_unlinked)
                       (task_of "T1" "inbox" "A" "2026-02-02T00:00:00.000Z")
                       (conj eq_refl eq_refl) (or_intror eq_refl) eq_refl)) as H.
  cbv zeta in H. rewrite H. reflexivity.
Defined.

Lemma planning_get_syncs_witness :
  w_trace (snd (PlanningGet.GET (env_replied (lit "Which stack?")) no_columns
                  (lit "T1") (world_of st_waiting)))
  = [ChatHistory (lit "agent:main:planning:T1")].
Proof.
  refine (proj2 (proj1 (@PlanningGetProps.planning_get_syncs
                          (env_replied (lit "Which stack?")) no_columns (lit "T1")
                          (world_of st_waiting) task_waiting
                          [mkPlanningMessage (lit "user")
                             (lit "PLANNING REQUEST: Build auth") 1001]
                          (lit "agent:main:planning:T1") _ _ _ _ _ _)
                   (lit "Which stack?") _ _)).
  - reflexivity.
  - reflexivity.
  - discriminate.
  - reflexivity.
  - reflexivity.
  - vm_compute. discriminate.
  - left. reflexivity.
  - reflexivity.
Defined.

Lemma planning_start_then_get_witness :
  let w1 := snd (Planning.POST rt0 env0 (lit "T1") (world_of st_unlinked)) in
  let w2 := snd (PlanningGet.GET (env_replied (lit "Which stack?")) no_columns
                   (lit "T1") w1) in
  snd (PlanningGet.GET env0 no_columns (lit "T1") w2) = w2.
Proof.
  refine (proj2 (proj2 (@PlanningGetProps.planning_start_then_get rt0 env0
                          (env_replied (lit "Which stack?")) env0 no_columns
                          (lit "T1") (world_of st_unlinked)
                          (task_of "T1" "inbox" "A" "2026-02-02T00:00:00.000Z")
                          (lit "Which stack?") _ _ _ _ _ _))).
  - split; reflexivity.
  - right. reflexivity.
  - reflexivity.
  - intros i Hi. reflexivity.
  - left. reflexivity.
  - reflexivity.
Defined.

Lemma signed_request_accepted_witness :
  Completion.POST rt0 env_secret
    (Some (hmac_sha256_hex rt0 (lit "s3cret") raw_legacy)) raw_legacy
    (world_of st_working)
  = handle (fun _ => mkResponse 500 (error_body "Internal server error"))
      (Completion.process rt0 env_secret raw_legacy) (world_of st_working).
Proof.
  apply (@CompletionEffects.signed_request_accepted rt0 env_secret _ raw_legacy
           (world_of st_working) (lit "s3cret")).
  - reflexivity.
  - vm_compute. discriminate.
  - vm_compute. discriminate.
  - reflexivity.
Defined.

Lemma completion_rejects_witness :
  Completion.POST rt0 env0 None (lit "not even JSON") (world_of st_working)
  = (mkResponse 500 (error_body "Internal server error"), world_of st_working).
Proof.
  refine (proj1 (@CompletionEffects.completion_rejects rt0 env0 None
                   (lit "not even JSON") (world_of st_working) _) _).
  - reflexivity.
  - left. vm_compute. reflexivity.
Defined.

Lemma completion_never_moves_back_witness :
  Forall2 advanced (tasks st_working)
    (tasks (w_store (snd (Completion.POST rt0 env0 None raw_legacy
                            (world_of st_working))))).
Proof.
  apply (@CompletionEffects.completion_never_moves_back rt0 env0 None raw_legacy
           (world_of st_working)).
  repeat constructor; simpl; intros H;
    repeat (destruct H as [H|H]; [vm_compute in H; discriminate|]); exact H.
Defined.

(** Settles the shape of a sample payload. *)
Ltac sample_payload :=
  repeat split; try reflexivity; vm_compute;
  repeat split; try reflexivity; discriminate.

Lemma direct_completion_logged_witness :
  status (fst (Completion.POST rt0 env0 None raw_with_deliverables
                 (world_of st_done))) = 200.
Proof.
  refine (proj1 (@CompletionEffects.direct_completion_logged rt0 env0 None
                   raw_with_deliverables (world_of st_done) members_listed
                   (lit "T1") (task_of "T1" "done" "A" "2026-02-02T00:00:00.000Z")
                   items_listed _ _ _)).
  - reflexivity.
  - sample_payload.
  - reflexivity.
Defined.

Lemma direct_completion_replayed_witness :
  let w1 := snd (Completion.POST rt0 env0 None raw_with_deliverables
                   (world_of st_done)) in
  tasks (w_store (snd (Completion.POST rt0 env0 None raw_with_deliverables w1)))
  = tasks (w_store w1).
Proof.
  refine (proj1 (proj2 (@CompletionEffects.direct_completion_replayed rt0 env0 env0
                          None None raw_with_deliverables (world_of st_done)
                          members_listed (lit "T1")
                          (task_of "T1" "done" "A" "2026-02-02T00:00:00.000Z")
                          items_listed _ _ _ _))).
  - reflexivity.
  - reflexivity.
  - sample_payload.
  - reflexivity.
Defined.

Lemma dispatch_then_complete_witness :
  status (fst (Completion.POST rt0 env0 None raw_review_after_done
                 (snd (Dispatch.POST rt0 env0 (lit "T1") (world_of st_unlinked)))))
  = 200.
Proof.
  refine (proj1 (@Workflow.dispatch_then_complete rt0 env0 env0 (lit "T1")
                   (world_of st_unlinked)
                   (task_of "T1" "inbox" "A" "2026-02-02T00:00:00.000Z") engineer
                   None raw_review_after_done members_review (lit "T1") []
                   _ _ _ _ _ _)).
  - sample_dispatchable.
  - right. reflexivity.
  - reflexivity.
  - reflexivity.
  - sample_payload.
  - reflexivity.
Defined.

Lemma legacy_replay_takes_next_witness :
  let w1 := snd (Completion.POST rt0 env0 None raw_legacy (world_of st_working)) in
  status (fst (Completion.POST rt0 env0 None raw_legacy w1)) = 200.
Proof.
  pose proof (@Workflow.legacy_replay_takes_next rt0 env0 env0 None None raw_legacy
                (world_of st_working) members_legacy
                (lit "mission-control-engineering")
                (lit "TASK_COMPLETE: Built the authentication system")
                (lit "Built the authentication system") engineer_session
                (task_of "T2" "assigned" "A" "2026-02-03T00:00:00.000Z")) as H.
  cbv zeta in H.
  change (active_task_of (s_agent_id engineer_session)
            (w_store (snd (Completion.POST rt0 env0 None raw_legacy
                             (world_of st_working)))))
    with (Some (task_of "T1" "in_progress" "A" "2026-02-02T00:00:00.000Z")) in H.
  cbv iota in H.
  refine (proj1 (proj2 (proj2 (H _ _ _ _ _ _)))).
  - reflexivity.
  - reflexivity.
  - sample_payload.
  - vm_compute. reflexivity.
  - reflexivity.
  - reflexivity.
Defined.

Lemma completion_marker_sound_witness :
  forallb dot (lit "Built the auth system") = true.
Proof.
  refine (proj1 (proj2 (@PatternProps.completion_marker_sound
                          (lit "TASK_COMPLETE: Built the auth system")
                          (lit "Built the auth system") _))).
  vm_compute. reflexivity.
Defined.

Lemma completion_marker_complete_witness :
  Completion.completionMatch
    (lit "Task_Complete:" ++ lit "  " ++ lit "all done" ++ line_feed ++ lit "more")
  = Some (lit "all done").
Proof.
  apply (@PatternProps.completion_marker_complete (lit "Task_Complete:") (lit "  ")
           (lit "all done") (line_feed ++ lit "more")).
  - vm_compute. reflexivity.
  - reflexivity.
  - reflexivity.
  - vm_compute. reflexivity.
  - vm_compute. reflexivity.
Defined.

End Instances.
